(** * btczjs: transaction serialisation, sighash preimages and signing

    A shallow embedding of [src/transaction.js], and what holds of it.

    - JavaScript strings are lists of characters ([list ascii]); every
      string the module handles is the lower-case hexadecimal rendering of
      a byte sequence.
    - JavaScript numbers are modelled by the integers they denote ([Z]);
      the one place where double rounding matters, [Math.pow(2, 64) - 1],
      is computed with [round_double].
    - A Node [Buffer] is the list of its bytes (each in [0, 256)); a write
      out of bounds throws.
    - Objects that the code shares and mutates (the transaction object, its
      [ins] and [outs] arrays and their elements) live in an explicit store
      addressed by locations, so that aliasing is visible; a function that
      only reads a transaction ([serializeTx]) works on the value read out
      of the store.
    - The collaborators ([bs58check], [zutils], [zcrypto], [secp256k1]) are
      parameters.

    The file has two parts: the definitions (the module, then the
    vocabulary used to state its properties), then the properties. *)

From Stdlib Require Import ZArith Ascii String Lia.
From stdpp Require Import base list.

Local Open Scope Z_scope.

Abbreviation jsstring := (list ascii) (only parsing).

(** String literals of the source. *)
Definition str (s : string) : jsstring := list_ascii_of_string s.

(** Thrown JavaScript exceptions. *)
Inductive error : Type :=
  | TypeError    (* property access or assignment on [undefined] *)
  | RangeError   (* Buffer write of a value out of bounds *)
  | ExternalError. (* raised by a collaborator: bs58check, secp256k1, ... *)

Inductive result (A : Type) : Type :=
  | Ok (a : A)
  | Throw (e : error).
Arguments Ok {A} a.
Arguments Throw {A} e.

Definition rbind {A B} (r : result A) (f : A -> result B) : result B :=
  match r with
  | Ok a => f a
  | Throw e => Throw e
  end.

(** ** The part of Node's [Buffer] API that the module uses *)
Module Buffer.

Definition is_byte (b : Z) : Prop := 0 <= b < 256.

(** [Buffer(array)] / [Buffer.from(array)]: every entry is cast to uint8. *)
Definition from_array (a : list Z) : list Z := map (fun x => x mod 256) a.

(** [Buffer.alloc(n)]: [n] zero bytes. *)
Definition alloc (n : nat) : list Z := replicate n 0.

Definition hexdigits : jsstring := str "0123456789abcdef".

Definition hexdigit (n : Z) : ascii := nth (Z.to_nat n) hexdigits "0"%char.

Definition hexbyte (b : Z) : jsstring := [hexdigit (b / 16); hexdigit (b mod 16)].

(** [buf.toString('hex')] *)
Definition toString_hex (buf : list Z) : jsstring := flat_map hexbyte buf.

Definition hexval (c : ascii) : option Z :=
  let n := Z.of_N (N_of_ascii c) in
  if (48 <=? n) && (n <=? 57) then Some (n - 48)
  else if (97 <=? n) && (n <=? 102) then Some (n - 87)
  else if (65 <=? n) && (n <=? 70) then Some (n - 55)
  else None.

(** [Buffer.from(s, 'hex')]: decodes pairs of hex digits and stops at the
    first pair that is not hexadecimal; a trailing single digit is dropped. *)
Fixpoint from_hex (s : jsstring) : list Z :=
  match s with
  | c1 :: c2 :: rest =>
      match hexval c1, hexval c2 with
      | Some a, Some b => (16 * a + b) :: from_hex rest
      | _, _ => []
      end
  | _ => []
  end.

(** [buf.writeUInt16LE(value, offset)]: throws unless [value] is an
    unsigned 16-bit integer; otherwise stores the two bytes, low first. *)
Definition writeUInt16LE (buf : list Z) (value : Z) (offset : nat) : result (list Z) :=
  if (0 <=? value) && (value <? 65536) then
    Ok (<[S offset := value / 256]> (<[offset := value mod 256]> buf))
  else Throw RangeError.

(** [buf.writeUInt32LE(value, offset)] *)
Definition writeUInt32LE (buf : list Z) (value : Z) (offset : nat) : result (list Z) :=
  if (0 <=? value) && (value <? 4294967296) then
    Ok (<[S (S (S offset)) := value / 16777216]>
       (<[S (S offset) := (value / 65536) mod 256]>
       (<[S offset := (value / 256) mod 256]>
       (<[offset := value mod 256]> buf))))
  else Throw RangeError.

(** [buf.fill(pattern, offset, end)] with a Buffer as pattern: the bytes
    of the pattern are written cyclically into [buf[offset .. end)]. *)
Fixpoint fill_from (buf pattern : list Z) (k : nat) (offset n : nat) : list Z :=
  match n with
  | O => buf
  | S n' =>
      match pattern !! (k `mod` length pattern)%nat with
      | Some b => fill_from (<[offset := b]> buf) pattern (S k) (S offset) n'
      | None => buf
      end
  end.

Definition fill (buf pattern : list Z) (offset end_ : nat) : list Z :=
  fill_from buf pattern 0 offset (Nat.min end_ (length buf) - offset).

(** [buf.reverse()] *)
Definition reverse (buf : list Z) : list Z := rev buf.

(** [Buffer.concat([a, b])] *)
Definition concat (bufs : list (list Z)) : list Z := mjoin bufs.

End Buffer.

(** ** Varint / byte codec *)

(** [numToBytes(num, bytes)]: [%] is JavaScript's truncated remainder and
    [Math.floor(num / 256)] the floored quotient. *)
Fixpoint numToBytes (num : Z) (bytes : nat) : list Z :=
  match bytes with
  | O => []
  | S bytes' => [Z.rem num 256] ++ numToBytes (num / 256) bytes'
  end.

(** The array [b] that [numToVarInt] builds before handing it to [Buffer]. *)
Definition numToVarInt_array (num : Z) : list Z :=
  if num <? 253 then [num]
  else if num <? 65536 then [253] ++ numToBytes num 2
  else if num <? 4294967296 then [254] ++ numToBytes num 4
  else [253] ++ numToBytes num 8.

Definition numToVarInt (num : Z) : jsstring :=
  Buffer.toString_hex (Buffer.from_array (numToVarInt_array num)).

(** [getStringBufferLength(hexStr)] *)
Definition getStringBufferLength (hexStr : jsstring) : jsstring :=
  let _tmpBuf := Z.of_nat (length (Buffer.from_hex hexStr)) in
  Buffer.toString_hex (Buffer.from_array [_tmpBuf]).

(** The integer denoted by a little-endian byte sequence. *)
Fixpoint le_value (bs : list Z) : Z :=
  match bs with
  | [] => 0
  | b :: bs' => b + 256 * le_value bs'
  end.

(** [bs] is the [k]-byte little-endian encoding of [n]. *)
Definition little_endian (k : nat) (n : Z) (bs : list Z) : Prop :=
  length bs = k /\ Forall Buffer.is_byte bs /\ le_value bs = n.

(** ** JavaScript numbers and strings *)

(** The integer-valued double nearest to a non-negative integer (round to
    nearest, ties to even); the identity below [2^53]. *)
Definition round_double (x : Z) : Z :=
  if x <? 2 ^ 53 then x
  else
    let e := Z.log2 x - 52 in
    let q := x / 2 ^ e in
    let r := x mod 2 ^ e in
    let half := 2 ^ (e - 1) in
    if (half <? r) || ((r =? half) && Z.odd q) then (q + 1) * 2 ^ e else q * 2 ^ e.

(** [Math.pow(2, 64) - 1]: the amount written into, and looked for in, the
    outputs that SIGHASH_SINGLE blanks.  In double arithmetic the
    subtraction rounds, so this is the double [2^64]. *)
Definition pow_2_64_minus_1 : Z := round_double (2 ^ 64 - 1).

(** [Math.pow(2, 32) - 1] *)
Definition pow_2_32_minus_1 : Z := round_double (2 ^ 32 - 1).

(** [s.substring(start, end)] for non-negative arguments. *)
Definition substring (s : jsstring) (start end_ : nat) : jsstring :=
  let a := Nat.min start (length s) in
  let b := Nat.min end_ (length s) in
  take (Nat.max a b - Nat.min a b) (drop (Nat.min a b) s).

(** [s.substr(start, length)] for non-negative arguments. *)
Definition substr (s : jsstring) (start len : nat) : jsstring :=
  take len (drop start s).

(** ['89abcdef'.indexOf(c) != -1] where [c] is [s[0]]; for an empty [s] the
    subscript is [undefined], which is not found. *)
Definition first_char_in (set : jsstring) (s : jsstring) : bool :=
  match s with
  | c :: _ => existsb (Ascii.eqb c) set
  | [] => false
  end.

(** ** Opcodes and sighash codes *)

Definition OP_DUP : jsstring := str "76".
Definition OP_HASH160 : jsstring := str "a9".
Definition OP_EQUALVERIFY : jsstring := str "88".
Definition OP_CHECKSIG : jsstring := str "ac".
Definition OP_CHECKBLOCKATHEIGHT : jsstring := str "b4".
Definition OP_EQUAL : jsstring := str "87".
Definition OP_REVERSED : jsstring := str "89".

Definition SIGHASH_ALL : Z := 1.
Definition SIGHASH_NONE : Z := 2.
Definition SIGHASH_SINGLE : Z := 3.
Definition SIGHASH_ANYONECANPAY : Z := 128.

(** ** Object types *)

(** An element of [ins].  The nested [output] object is never written by
    the module, so it is carried inline. *)
Record TXIN : Type := mkTXIN {
  in_hash : jsstring;      (* output.hash *)
  in_vout : Z;             (* output.vout *)
  in_script : jsstring;
  in_sequence : jsstring
}.

(** An element of [outs]. *)
Record TXOUT : Type := mkTXOUT {
  out_script : jsstring;
  out_satoshis : Z
}.

(** A transaction read out of the heap: what a function that only reads
    its argument (such as [serializeTx]) observes. *)
Record TXOBJ : Type := mkTXOBJ {
  locktime : Z;
  version : Z;
  ins : list TXIN;
  outs : list TXOUT
}.

(** ** Script builder *)

Definition blockHeight : Z := 141575.

Definition blockHash : jsstring :=
  str "00000004bbe8504b7a8e7c6e23ea6fa57878ce946f9819752405d964175c4276".

Section ScriptBuilder.

(** [bs58check.decode]: the payload bytes, or an exception. *)
Variable bs58check_decode : jsstring -> result (list Z).

Definition mkPubkeyHashReplayScript (address : jsstring) : result jsstring :=
  rbind (bs58check_decode address) (fun decoded =>
  let addrHex := Buffer.toString_hex decoded in
  let subAddrHex := substring addrHex 4 (length addrHex) in
  rbind (Buffer.writeUInt32LE (Buffer.alloc 4) blockHeight 0) (fun blockHeightBuffer =>
  let blockHeightBuffer :=
    if bool_decide (blockHeightBuffer !! 3%nat = Some 0) then
      let temp_buf := Buffer.alloc 3 in
      Buffer.fill temp_buf blockHeightBuffer 0 3
    else blockHeightBuffer in
  let blockHeightHex := Buffer.toString_hex blockHeightBuffer in
  let blockHeightLength := getStringBufferLength blockHeightHex in
  let blockHashHex := Buffer.toString_hex (Buffer.reverse (Buffer.from_hex blockHash)) in
  let blockHashLength := getStringBufferLength blockHashHex in
  Ok (OP_DUP ++
      OP_HASH160 ++
      getStringBufferLength subAddrHex ++
      subAddrHex ++
      OP_EQUALVERIFY ++
      OP_CHECKSIG ++
      blockHashLength ++
      blockHashHex ++
      blockHeightLength ++
      blockHeightHex ++
      OP_CHECKBLOCKATHEIGHT))).

Definition mkScriptHashScript (address : jsstring) : result jsstring :=
  rbind (bs58check_decode address) (fun decoded =>
  let addrHex := Buffer.toString_hex decoded in
  let subAddrHex := substring addrHex 4 (length addrHex) in
  Ok (OP_HASH160 ++ str "14" ++ subAddrHex ++ OP_EQUAL)).

Definition addressToScript (address : jsstring) : result jsstring :=
  if first_char_in (str "32") address then mkScriptHashScript address
  else mkPubkeyHashReplayScript address.

End ScriptBuilder.

(** ** Serialiser *)

(** [array.map(callback)] used for its effects only: the callback is run on
    every element in order, threading the variables it assigns. *)
Fixpoint Array_each {A S : Type} (f : S -> A -> result S) (s : S) (a : list A) : result S :=
  match a with
  | [] => Ok s
  | x :: a' => rbind (f s x) (fun s' => Array_each f s' a')
  end.

(** The callback run on each input; its state is the shared [_buf16] and
    the string built so far. *)
Definition serializeTx_in (st : list Z * jsstring) (i : TXIN) : result (list Z * jsstring) :=
  let '(_buf16, serializedTx) := st in
  rbind (Buffer.writeUInt16LE _buf16 (in_vout i) 0) (fun _buf16 =>
  let serializedTx := serializedTx ++ in_hash i in
  let serializedTx := serializedTx ++ Buffer.toString_hex _buf16 in
  let serializedTx := serializedTx ++ numToVarInt (Z.of_nat (length (in_script i))) in
  let serializedTx := serializedTx ++ in_script i in
  let serializedTx := serializedTx ++ in_sequence i in
  Ok (_buf16, serializedTx)).

(** The callback run on each output. *)
Definition serializeTx_out (serializedTx : jsstring) (o : TXOUT) : result jsstring :=
  let _buf32 := Buffer.alloc 8 in
  rbind
    (if out_satoshis o =? pow_2_64_minus_1 then
       rbind (Buffer.writeUInt32LE _buf32 pow_2_32_minus_1 0) (fun _buf32 =>
       Buffer.writeUInt32LE _buf32 pow_2_32_minus_1 4)
     else Buffer.writeUInt32LE _buf32 (out_satoshis o) 0)
    (fun _buf32 =>
  let serializedTx := serializedTx ++ Buffer.toString_hex _buf32 in
  let serializedTx := serializedTx ++ numToVarInt (Z.of_nat (length (out_script o))) in
  let serializedTx := serializedTx ++ out_script o in
  Ok serializedTx).

Definition serializeTx (txObj : TXOBJ) : result jsstring :=
  let serializedTx := [] in
  let _buf16 := Buffer.alloc 4 in
  rbind (Buffer.writeUInt16LE _buf16 (version txObj) 0) (fun _buf16 =>
  let serializedTx := serializedTx ++ Buffer.toString_hex _buf16 in
  let serializedTx := serializedTx ++ numToVarInt (Z.of_nat (length (ins txObj))) in
  rbind (Array_each serializeTx_in (_buf16, serializedTx) (ins txObj)) (fun st =>
  let '(_buf16, serializedTx) := st in
  let serializedTx := serializedTx ++ numToVarInt (Z.of_nat (length (outs txObj))) in
  rbind (Array_each serializeTx_out serializedTx (outs txObj)) (fun serializedTx =>
  rbind (Buffer.writeUInt16LE _buf16 (locktime txObj) 0) (fun _buf16 =>
  let serializedTx := serializedTx ++ Buffer.toString_hex _buf16 in
  Ok serializedTx)))).

(** ** The object store *)

Abbreviation loc := nat (only parsing).

(** The transaction object itself: two numbers and two array references. *)
Record TXREF : Type := mkTXREF {
  ref_locktime : Z;
  ref_version : Z;
  ref_ins : loc;
  ref_outs : loc
}.

Inductive cell : Type :=
  | CTx (t : TXREF)
  | CArr (a : list loc)
  | CIn (i : TXIN)
  | COut (o : TXOUT).

Abbreviation heap := (list cell) (only parsing).

(** Reading a property of something that is not an object of the expected
    shape yields [undefined], and using that throws. *)
Definition readTx (h : heap) (l : loc) : result TXREF :=
  match h !! l with Some (CTx t) => Ok t | _ => Throw TypeError end.

Definition readArr (h : heap) (l : loc) : result (list loc) :=
  match h !! l with Some (CArr a) => Ok a | _ => Throw TypeError end.

Definition readIn (h : heap) (l : loc) : result TXIN :=
  match h !! l with Some (CIn i) => Ok i | _ => Throw TypeError end.

Definition readOut (h : heap) (l : loc) : result TXOUT :=
  match h !! l with Some (COut o) => Ok o | _ => Throw TypeError end.

Fixpoint rmap {A B : Type} (f : A -> result B) (l : list A) : result (list B) :=
  match l with
  | [] => Ok []
  | x :: l' => rbind (f x) (fun y => rbind (rmap f l') (fun ys => Ok (y :: ys)))
  end.

(** The transaction reachable from [tx], as a reader sees it. *)
Definition readTXOBJ (h : heap) (tx : loc) : result TXOBJ :=
  rbind (readTx h tx) (fun t =>
  rbind (readArr h (ref_ins t)) (fun ia =>
  rbind (rmap (readIn h) ia) (fun is_ =>
  rbind (readArr h (ref_outs t)) (fun oa =>
  rbind (rmap (readOut h) oa) (fun os =>
  Ok (mkTXOBJ (ref_locktime t) (ref_version t) is_ os)))))).

(** Computations that read and write the store and may throw; the store
    survives an exception. *)
Definition M (A : Type) : Type := heap -> result A * heap.

#[global] Instance M_ret : MRet M := fun A a h => (Ok a, h).

#[global] Instance M_bind : MBind M := fun A B f m h =>
  match m h with
  | (Ok a, h') => f a h'
  | (Throw e, h') => (Throw e, h')
  end.

Definition throw {A : Type} (e : error) : M A := fun h => (Throw e, h).

Definition lift {A : Type} (r : result A) : M A := fun h => (r, h).

Definition reading {A : Type} (f : heap -> result A) : M A := fun h => (f h, h).

Definition alloc (c : cell) : M loc := fun h => (Ok (length h), h ++ [c]).

Definition store (l : loc) (c : cell) : M unit := fun h => (Ok tt, <[l := c]> h).

(** [for (var j = 0; j < n; j++) body(j)], for a bound that the body does
    not change. *)
Fixpoint forLoop (n : nat) (j : nat) (body : nat -> M unit) : M unit :=
  match n with
  | O => mret tt
  | S n' => body j ;; forLoop n' (S j) body
  end.

(** [Object.assign({}, txObj)]: a new object with the same four properties;
    [ins] and [outs] still refer to the arrays of [txObj]. *)
Definition Object_assign (txObj : loc) : M loc :=
  t ← reading (fun h => readTx h txObj); alloc (CTx t).

(** [tx.ins.length] *)
Definition ins_length (tx : loc) : M nat :=
  t ← reading (fun h => readTx h tx);
  a ← reading (fun h => readArr h (ref_ins t));
  mret (length a).

(** [tx.ins[j]], about to be dereferenced *)
Definition ins_at (tx : loc) (j : nat) : M loc :=
  t ← reading (fun h => readTx h tx);
  a ← reading (fun h => readArr h (ref_ins t));
  match a !! j with Some l => mret l | None => throw TypeError end.

(** [tx.outs[j]], about to be dereferenced *)
Definition outs_at (tx : loc) (j : nat) : M loc :=
  t ← reading (fun h => readTx h tx);
  a ← reading (fun h => readArr h (ref_outs t));
  match a !! j with Some l => mret l | None => throw TypeError end.

(** [tx.ins[j].script = s] *)
Definition set_ins_script (tx : loc) (j : nat) (s : jsstring) : M unit :=
  l ← ins_at tx j;
  i ← reading (fun h => readIn h l);
  store l (CIn (mkTXIN (in_hash i) (in_vout i) s (in_sequence i))).

(** [tx.outs[j].satoshis = v] *)
Definition set_outs_satoshis (tx : loc) (j : nat) (v : Z) : M unit :=
  l ← outs_at tx j;
  o ← reading (fun h => readOut h l);
  store l (COut (mkTXOUT (out_script o) v)).

(** [tx.outs[j].script = s] *)
Definition set_outs_script (tx : loc) (j : nat) (s : jsstring) : M unit :=
  l ← outs_at tx j;
  o ← reading (fun h => readOut h l);
  store l (COut (mkTXOUT s (out_satoshis o))).

(** [tx.outs = a] *)
Definition set_outs (tx : loc) (a : loc) : M unit :=
  t ← reading (fun h => readTx h tx);
  store tx (CTx (mkTXREF (ref_locktime t) (ref_version t) (ref_ins t) a)).

(** [tx.ins = a] *)
Definition set_ins (tx : loc) (a : loc) : M unit :=
  t ← reading (fun h => readTx h tx);
  store tx (CTx (mkTXREF (ref_locktime t) (ref_version t) a (ref_outs t))).

(** ** Sighash preimage builder *)

Definition signatureForm (txObj : loc) (i : nat) (script : jsstring) (hashcode : Z) : M loc :=
  newTx ← Object_assign txObj;
  n ← ins_length newTx;
  forLoop n 0 (fun j => set_ins_script newTx j []) ;;
  set_ins_script newTx i script ;;
  (if hashcode =? SIGHASH_NONE then
     a ← alloc (CArr []);
     set_outs newTx a
   else if hashcode =? SIGHASH_SINGLE then
     t ← reading (fun h => readTx h newTx);
     o ← reading (fun h => readArr h (ref_outs t));
     n ← ins_length newTx;
     a ← alloc (CArr (take n o));
     set_outs newTx a ;;
     forLoop (n - 1) 0 (fun j =>
       set_outs_satoshis newTx j pow_2_64_minus_1 ;;
       set_outs_script newTx j [])
   else if hashcode =? SIGHASH_ANYONECANPAY then
     l ← ins_at newTx i;
     a ← alloc (CArr [l]);
     set_ins newTx a
   else mret tt) ;;
  mret newTx.

(** ** Signer *)

(** Lines 309-323 of [signTx]: the encoding of the raw signature, with the
    sighash code appended. *)
Definition encodeSignature (rawsig : jsstring) (hashcode : Z) : jsstring :=
  let b1 := substr rawsig 0 64 in
  let b2 := substr rawsig 64 128 in
  let b1 := if first_char_in (str "89abcdef") b1 then str "00" ++ b1 else b1 in
  let b2 := if first_char_in (str "89abcdef") b2 then str "00" ++ b2 else b2 in
  let left := str "02" ++ getStringBufferLength b1 ++ b1 in
  let right := str "02" ++ getStringBufferLength b2 ++ b2 in
  let sig := str "30" ++ getStringBufferLength (left ++ right) ++ left ++ right in
  let sigAndHashcode := sig ++ Buffer.toString_hex (Buffer.from_array [hashcode]) in
  sigAndHashcode.

(** [if (hashcode === undefined) hashcode = SIGHASH_ALL] *)
Definition sighash_code (hashcode : option Z) : Z :=
  match hashcode with None => SIGHASH_ALL | Some c => c end.

Section Signer.

(** The collaborators: [bs58check.decode], [zutils.privKeyToPubKey],
    [zutils.pubKeyToAddr], [zcrypto.sha256x2] and [secp256k1.sign] (the
    64 signature bytes).  Being functions, they are deterministic. *)
Variable bs58check_decode : jsstring -> result (list Z).
Variable privKeyToPubKey : jsstring -> result jsstring.
Variable pubKeyToAddr : jsstring -> result jsstring.
Variable sha256x2 : list Z -> jsstring.
Variable secp256k1_sign : list Z -> list Z -> result (list Z).

Definition signTx (txObj : loc) (i : nat) (privKey : jsstring) (hashcode : option Z) : M loc :=
  let hashcode := sighash_code hashcode in
  _buf16 ← lift (Buffer.writeUInt16LE (Buffer.alloc 4) hashcode 0);
  pubKey ← lift (privKeyToPubKey privKey);
  address ← lift (pubKeyToAddr pubKey);
  script ← lift (mkPubkeyHashReplayScript bs58check_decode address);
  signingTx ← signatureForm txObj i script hashcode;
  signingTxObj ← reading (fun h => readTXOBJ h signingTx);
  signingTxHex ← lift (serializeTx signingTxObj);
  let signingTxWithHashcode :=
    Buffer.concat [Buffer.from_hex signingTxHex; _buf16] in
  let msg := sha256x2 signingTxWithHashcode in
  signature ← lift (secp256k1_sign (Buffer.from_hex msg) (Buffer.from_hex privKey));
  let rawsig := Buffer.toString_hex signature in
  let sigAndHashcode := encodeSignature rawsig hashcode in
  set_ins_script txObj i
    (getStringBufferLength sigAndHashcode ++ sigAndHashcode ++
     getStringBufferLength pubKey ++ pubKey) ;;
  mret txObj.

End Signer.

(** ** Vocabulary of the specification *)

(** The integer denoted by a big-endian byte sequence. *)
Definition be_value (bs : list Z) : Z := fold_left (fun acc b => 256 * acc + b) bs 0.

(** A data push: one length byte, then the data. *)
Definition pushdata (bs : list Z) : jsstring :=
  Buffer.toString_hex [Z.of_nat (length bs)] ++ Buffer.toString_hex bs.

(** The bytes of the pinned block hash, as written in the source. *)
Definition pinned_hash : list Z :=
  [0x00; 0x00; 0x00; 0x04; 0xbb; 0xe8; 0x50; 0x4b; 0x7a; 0x8e; 0x7c; 0x6e;
   0x23; 0xea; 0x6f; 0xa5; 0x78; 0x78; 0xce; 0x94; 0x6f; 0x98; 0x19; 0x75;
   0x24; 0x05; 0xd9; 0x64; 0x17; 0x5c; 0x42; 0x76].

(** The three-byte little-endian rendering of the pinned height. *)
Definition pinned_height : list Z := [0x07; 0x29; 0x02].

(** What every replay-protected script ends with. *)
Definition replay_suffix : jsstring :=
  pushdata (rev pinned_hash) ++ pushdata pinned_height ++ OP_CHECKBLOCKATHEIGHT.

(** A 32-byte big-endian integer as DER stores it: a zero byte in front
    exactly when the top bit of the first byte is set. *)
Definition der_pad (x : list Z) : list Z :=
  match x with
  | b :: _ => if Z.testbit b 7 then 0 :: x else x
  | [] => x
  end.

(** Dropping the padding: the last 32 bytes. *)
Definition strip_pad (x : list Z) : list Z := drop (length x - 32) x.

(** The DER structure: SEQUENCE of two INTEGERs. *)
Definition der_sequence (r' s' : list Z) : list Z :=
  [0x30; 4 + Z.of_nat (length r') + Z.of_nat (length s')] ++
  [0x02; Z.of_nat (length r')] ++ r' ++
  [0x02; Z.of_nat (length s')] ++ s'.

(** A reader for that structure: the two INTEGER contents and what follows
    the SEQUENCE. *)
Definition der_decode (bs : list Z) : option (list Z * list Z * list Z) :=
  match bs with
  | 0x30 :: len :: 0x02 :: lr :: rest =>
      let r' := take (Z.to_nat lr) rest in
      match drop (Z.to_nat lr) rest with
      | 0x02 :: ls :: rest' =>
          let s' := take (Z.to_nat ls) rest' in
          if (len =? 4 + lr + ls) && (Z.to_nat lr =? length r')%nat && (Z.to_nat ls =? length s')%nat
          then Some (r', s', drop (Z.to_nat ls) rest')
          else None
      | _ => None
      end
  | _ => None
  end.

(** [k] bytes of [n], least significant first. *)
Fixpoint le_bytes (k : nat) (n : Z) : list Z :=
  match k with
  | O => []
  | S k' => n mod 256 :: le_bytes k' (n / 256)
  end.

(** The wire layout of section 4.3 of the specification, for a given way
    [script_length] of measuring a script: version, output index and lock
    time occupy four little-endian bytes, the amount eight (all 0xFF for
    the placeholder). *)
Definition layout_amount (a : Z) : list Z :=
  if a =? pow_2_64_minus_1 then replicate 8 255 else le_bytes 8 a.

Definition layout_in (script_length : jsstring -> nat) (i : TXIN) : jsstring :=
  in_hash i ++
  Buffer.toString_hex (le_bytes 4 (in_vout i)) ++
  numToVarInt (Z.of_nat (script_length (in_script i))) ++
  in_script i ++
  in_sequence i.

Definition layout_out (script_length : jsstring -> nat) (o : TXOUT) : jsstring :=
  Buffer.toString_hex (layout_amount (out_satoshis o)) ++
  numToVarInt (Z.of_nat (script_length (out_script o))) ++
  out_script o.

Definition layout (script_length : jsstring -> nat) (tx : TXOBJ) : jsstring :=
  Buffer.toString_hex (le_bytes 4 (version tx)) ++
  numToVarInt (Z.of_nat (length (ins tx))) ++
  flat_map (layout_in script_length) (ins tx) ++
  numToVarInt (Z.of_nat (length (outs tx))) ++
  flat_map (layout_out script_length) (outs tx) ++
  Buffer.toString_hex (le_bytes 4 (locktime tx)).

(** The specification measures a script in bytes. *)
Definition spec_serialize (tx : TXOBJ) : jsstring :=
  layout (fun script => length (Buffer.from_hex script)) tx.

(** The values that the 16-bit and 32-bit writes of [serializeTx] accept. *)
Definition fits16 (v : Z) : Prop := 0 <= v < 65536.

Definition fits_amount (a : Z) : Prop := a = pow_2_64_minus_1 \/ 0 <= a < 4294967296.

Definition serializable (tx : TXOBJ) : Prop :=
  fits16 (version tx) /\ fits16 (locktime tx) /\
  Forall (fun i => fits16 (in_vout i)) (ins tx) /\
  Forall (fun o => fits_amount (out_satoshis o)) (outs tx).

(** ** Well-formed transactions in the store *)

(** [tx] refers to an object of type TXOBJ: its [ins] and [outs] are
    arrays whose elements are input and output objects. *)
Record wf_tx (h : heap) (tx : loc) (t : TXREF) (insA outsA : list loc) : Prop := mk_wf_tx {
  wf_cell : h !! tx = Some (CTx t);
  wf_ins_arr : h !! ref_ins t = Some (CArr insA);
  wf_outs_arr : h !! ref_outs t = Some (CArr outsA);
  wf_ins : Forall (fun l => exists x, h !! l = Some (CIn x)) insA;
  wf_outs : Forall (fun l => exists o, h !! l = Some (COut o)) outsA
}.

Definition with_script (s : jsstring) (x : TXIN) : TXIN :=
  mkTXIN (in_hash x) (in_vout x) s (in_sequence x).

(** An output blanked by SIGHASH_SINGLE. *)
Definition blank_out : TXOUT := mkTXOUT [] pow_2_64_minus_1.

Definition cell_set_script (s : jsstring) (c : cell) : cell :=
  match c with CIn x => CIn (with_script s x) | _ => c end.

Definition cell_blank_out (c : cell) : cell :=
  match c with COut _ => COut blank_out | _ => c end.

(** Two cells hold the same kind of object; transaction objects and arrays
    moreover agree. *)
Definition same_kind (c c' : cell) : Prop :=
  match c, c' with
  | CTx t, CTx t' => t = t'
  | CArr a, CArr a' => a = a'
  | CIn _, CIn _ => True
  | COut _, COut _ => True
  | _, _ => False
  end.

(** [g] is [h] with every cell rewritten by [F] at its location. *)
Definition pointwise (F : loc -> cell -> cell) (h g : heap) : Prop :=
  length g = length h /\ forall l, g !! l = F l <$> h !! l.

(** What [signatureForm] does to the cell at [l] of the store it is called
    on: the inputs of the transaction lose their script (the one being
    signed gets the substitute), and in SINGLE mode the outputs in front of
    position [ins.length - 1] are blanked. *)
Definition sig_mark (insA outsA : list loc) (li : loc) (script : jsstring)
    (hashcode : Z) (l : loc) (c : cell) : cell :=
  match c with
  | CIn x =>
      if bool_decide (l ∈ insA)
      then CIn (with_script (if bool_decide (l = li) then script else []) x)
      else c
  | COut o =>
      if (hashcode =? SIGHASH_SINGLE) && bool_decide (l ∈ take (length insA - 1) outsA)
      then COut blank_out
      else c
  | _ => c
  end.

(** The arrays that the returned object refers to. *)
Definition sig_ins (insA : list loc) (li : loc) (hashcode : Z) : list loc :=
  if hashcode =? SIGHASH_NONE then insA
  else if hashcode =? SIGHASH_SINGLE then insA
  else if hashcode =? SIGHASH_ANYONECANPAY then [li]
  else insA.

Definition sig_outs (insA outsA : list loc) (hashcode : Z) : list loc :=
  if hashcode =? SIGHASH_NONE then []
  else if hashcode =? SIGHASH_SINGLE then take (length insA) outsA
  else outsA.

Definition kind_preserving (F : loc -> cell -> cell) : Prop :=
  forall l c, same_kind c (F l c).

(** The state of the store after [j] rounds of the loop that clears the
    input scripts, and after [j] rounds of the loop that blanks outputs. *)
Definition marked (f : cell -> cell) (a : list loc) (j : nat) (l : loc) (c : cell) : cell :=
  if bool_decide (l ∈ take j a) then f c else c.

Definition cleared : list loc -> nat -> loc -> cell -> cell := marked (cell_set_script []).

Definition blanked : list loc -> nat -> loc -> cell -> cell := marked cell_blank_out.

(** What a successful call of [signatureForm] leaves behind: the cells that
    existed are rewritten by [sig_mark], and the new object sits at the
    first fresh location. *)
Definition sig_post (h : heap) (t : TXREF) (insA outsA : list loc) (li : loc)
    (script : jsstring) (hashcode : Z) (h' : heap) : Prop :=
  (length h < length h')%nat /\
  (forall l, (l < length h)%nat ->
     h' !! l = sig_mark insA outsA li script hashcode l <$> h !! l) /\
  exists t',
    h' !! length h = Some (CTx t') /\
    ref_locktime t' = ref_locktime t /\
    ref_version t' = ref_version t /\
    h' !! ref_ins t' = Some (CArr (sig_ins insA li hashcode)) /\
    h' !! ref_outs t' = Some (CArr (sig_outs insA outsA hashcode)).

(** The chain of tests on [hashcode] in [signatureForm], as a computation
    on the copy [newTx]. *)
Definition sighash_branch (newTx : loc) (i : nat) (hashcode : Z) : M unit :=
  if hashcode =? SIGHASH_NONE then
    a ← alloc (CArr []);
    set_outs newTx a
  else if hashcode =? SIGHASH_SINGLE then
    t ← reading (fun h => readTx h newTx);
    o ← reading (fun h => readArr h (ref_outs t));
    n ← ins_length newTx;
    a ← alloc (CArr (take n o));
    set_outs newTx a ;;
    forLoop (n - 1) 0 (fun j =>
      set_outs_satoshis newTx j pow_2_64_minus_1 ;;
      set_outs_script newTx j [])
  else if hashcode =? SIGHASH_ANYONECANPAY then
    l ← ins_at newTx i;
    a ← alloc (CArr [l]);
    set_ins newTx a
  else mret tt.

(** What the tests on [hashcode] do to the store [h3] they start from. *)
Definition branch_post (h3 : heap) (N : loc) (t : TXREF) (insA outsA : list loc)
    (li : loc) (hashcode : Z) (h' : heap) : Prop :=
  (length h3 <= length h')%nat /\
  (forall l, (l < length h3)%nat -> l <> N ->
     h' !! l =
     (if hashcode =? SIGHASH_SINGLE
      then blanked (take (length insA) outsA) (length insA - 1) l
      else fun c => c) <$> h3 !! l) /\
  exists t',
    h' !! N = Some (CTx t') /\
    ref_locktime t' = ref_locktime t /\
    ref_version t' = ref_version t /\
    h' !! ref_ins t' = Some (CArr (sig_ins insA li hashcode)) /\
    h' !! ref_outs t' = Some (CArr (sig_outs insA outsA hashcode)).

(** ** Example stores *)

(** Two inputs that already carry unlocking scripts, two outputs. *)
Definition heap_two : heap :=
  [ CTx (mkTXREF 0 1 1%nat 2%nat);
    CArr [3; 4]%nat;
    CArr [5; 6]%nat;
    CIn (mkTXIN (Buffer.toString_hex (replicate 32 170)) 0 (str "51ab") (str "ffffffff"));
    CIn (mkTXIN (Buffer.toString_hex (replicate 32 187)) 1 (str "52cd") (str "ffffffff"));
    COut (mkTXOUT (str "76a9") 5000);
    COut (mkTXOUT (str "a914") 7000) ].

(** Two inputs and a single output. *)
Definition heap_short : heap :=
  [ CTx (mkTXREF 0 1 1%nat 2%nat);
    CArr [3; 4]%nat;
    CArr [5]%nat;
    CIn (mkTXIN (Buffer.toString_hex (replicate 32 170)) 0 [] (str "ffffffff"));
    CIn (mkTXIN (Buffer.toString_hex (replicate 32 187)) 1 [] (str "ffffffff"));
    COut (mkTXOUT (str "76a9") 5000) ].

(** Three inputs and a single output. *)
Definition heap_shorter : heap :=
  [ CTx (mkTXREF 0 1 1%nat 2%nat);
    CArr [3; 4; 5]%nat;
    CArr [6]%nat;
    CIn (mkTXIN (Buffer.toString_hex (replicate 32 170)) 0 [] (str "ffffffff"));
    CIn (mkTXIN (Buffer.toString_hex (replicate 32 187)) 1 [] (str "ffffffff"));
    CIn (mkTXIN (Buffer.toString_hex (replicate 32 204)) 2 [] (str "ffffffff"));
    COut (mkTXOUT (str "76a9") 5000) ].

(** ** The pure steps of [signTx] *)

Section SignerSteps.

Variable bs58check_decode : jsstring -> result (list Z).
Variable privKeyToPubKey : jsstring -> result jsstring.
Variable pubKeyToAddr : jsstring -> result jsstring.
Variable sha256x2 : list Z -> jsstring.
Variable secp256k1_sign : list Z -> list Z -> result (list Z).

(** "Prepare signing": the public key and the script put into the
    preimage. *)
Definition signing_script (privKey : jsstring) : result (jsstring * jsstring) :=
  rbind (privKeyToPubKey privKey) (fun pubKey =>
  rbind (pubKeyToAddr pubKey) (fun address =>
  rbind (mkPubkeyHashReplayScript bs58check_decode address) (fun script =>
  Ok (pubKey, script)))).

(** From the preimage to the unlocking script: serialise, hash, sign,
    encode. *)
Definition unlocking_script (privKey : jsstring) (hashcode : Z) (_buf16 : list Z)
    (pubKey : jsstring) (signingTxObj : TXOBJ) : result jsstring :=
  rbind (serializeTx signingTxObj) (fun signingTxHex =>
  let signingTxWithHashcode :=
    Buffer.concat [Buffer.from_hex signingTxHex; _buf16] in
  let msg := sha256x2 signingTxWithHashcode in
  rbind (secp256k1_sign (Buffer.from_hex msg) (Buffer.from_hex privKey)) (fun signature =>
  let rawsig := Buffer.toString_hex signature in
  let sigAndHashcode := encodeSignature rawsig hashcode in
  Ok (getStringBufferLength sigAndHashcode ++ sigAndHashcode ++
      getStringBufferLength pubKey ++ pubKey))).

End SignerSteps.

(** The cell at [l] after [ins[i].script = s], when [ins[i]] is at [li]. *)
Definition assigned (li : loc) (s : jsstring) (l : loc) (c : cell) : cell :=
  if decide (li = l) then cell_set_script s c else c.

(** ** Stand-ins for the collaborators, to run the signer on examples *)

Definition toy_decode (address : jsstring) : result (list Z) :=
  Ok (32 :: 137 :: replicate 20 17).

Definition toy_privKeyToPubKey (privKey : jsstring) : result jsstring :=
  Ok (str "02" ++ Buffer.toString_hex (replicate 32 1)).

Definition toy_pubKeyToAddr (pubKey : jsstring) : result jsstring :=
  Ok (str "znToyAddress").

Definition toy_sha256x2 (data : list Z) : jsstring :=
  Buffer.toString_hex (replicate 32 (fold_right Z.add 0 data mod 256)).

Definition toy_sign (msg privKey : list Z) : result (list Z) :=
  Ok (take 32 (msg ++ replicate 32 0) ++ replicate 32 129).

Definition toy_key : jsstring := Buffer.toString_hex (replicate 32 9).

(** ** Example transactions *)

(** One input, one output paying 99990000 with a two-byte script. *)
Definition tx_one : TXOBJ :=
  mkTXOBJ 0 1
    [mkTXIN (Buffer.toString_hex (replicate 32 170)) 0 [] (str "ffffffff")]
    [mkTXOUT (str "76a9") 99990000].

(** The same with a lock time of 500000. *)
Definition tx_locked : TXOBJ :=
  mkTXOBJ 500000 1
    [mkTXIN (Buffer.toString_hex (replicate 32 170)) 0 [] (str "ffffffff")]
    [mkTXOUT [] 99990000].

(** The same paying 5000000000. *)
Definition tx_large : TXOBJ :=
  mkTXOBJ 0 1
    [mkTXIN (Buffer.toString_hex (replicate 32 170)) 0 [] (str "ffffffff")]
    [mkTXOUT [] 5000000000].

Definition input_scripts (tx : TXOBJ) : list jsstring := map in_script (ins tx).

Definition output_fields (tx : TXOBJ) : list (Z * jsstring) :=
  map (fun o => (out_satoshis o, out_script o)) (outs tx).

(** ** Building a transaction *)

(** An entry of the spendable-output history. *)
Record HISTORY : Type := mkHISTORY {
  h_txid : jsstring;
  h_vout : Z;
  h_value : Z;
  h_address : jsstring
}.

(** A recipient. *)
Record RECIPIENTS : Type := mkRECIPIENTS {
  r_satoshis : Z;
  r_address : jsstring
}.

(** [array.map(callback)] where the callback returns a new object: the
    callback runs on every element in order; the result is the list of the
    objects' locations.  (A location is taken when an object is complete.) *)
Fixpoint Array_map {A : Type} (f : A -> M loc) (a : list A) : M (list loc) :=
  match a with
  | [] => mret []
  | x :: a' => l ← f x; ls ← Array_map f a'; mret (l :: ls)
  end.

Section RawTx.

Variable bs58check_decode : jsstring -> result (list Z).

Definition createRawTx (history : list HISTORY) (recipients : list RECIPIENTS) : M loc :=
  ins0 ← alloc (CArr []);
  outs0 ← alloc (CArr []);
  txObj ← alloc (CTx (mkTXREF 0 1 ins0 outs0));
  elems ← Array_map (fun h =>
    alloc (CIn (mkTXIN (h_txid h) (h_vout h) [] (str "ffffffff")))) history;
  a ← alloc (CArr elems);
  set_ins txObj a ;;
  elems ← Array_map (fun o =>
    script ← lift (addressToScript bs58check_decode (r_address o));
    alloc (COut (mkTXOUT script (r_satoshis o)))) recipients;
  a ← alloc (CArr elems);
  set_outs txObj a ;;
  mret txObj.

End RawTx.

(** The input built from a history entry. *)
Definition input_of (h : HISTORY) : TXIN :=
  mkTXIN (h_txid h) (h_vout h) [] (str "ffffffff").

(** The output built from a recipient: its script comes from
    [addressToScript], which may throw. *)
Definition output_of (decode : jsstring -> result (list Z)) (o : RECIPIENTS) : result TXOUT :=
  rbind (addressToScript decode (r_address o)) (fun script =>
  Ok (mkTXOUT script (r_satoshis o))).

Definition outputs_of (decode : jsstring -> result (list Z)) (recipients : list RECIPIENTS)
    : result (list TXOUT) :=
  rmap (output_of decode) recipients.

(** How an input with an empty script and the default sequence number is
    laid out. *)
Definition unsigned_input (e : HISTORY) : jsstring :=
  h_txid e ++ Buffer.toString_hex (le_bytes 4 (h_vout e)) ++ str "00" ++ str "ffffffff".

(** The objects that [createRawTx] adds to a store of [n] objects, for the
    inputs [xs] and the outputs [os]. *)
Definition created (n : nat) (xs : list TXIN) (os : list TXOUT) : list cell :=
  [CArr []; CArr [];
   CTx (mkTXREF 0 1 (n + 3 + length xs)%nat (n + 3 + length xs + 1 + length os)%nat)] ++
  (map CIn xs ++ [CArr (seq (n + 3)%nat (length xs))]) ++
  (map COut os ++ [CArr (seq (n + 3 + length xs + 1)%nat (length os))]).

(** ** More examples *)

(** The transaction in [heap_two]. *)
Definition tx_two : TXOBJ :=
  mkTXOBJ 0 1
    [mkTXIN (Buffer.toString_hex (replicate 32 170)) 0 (str "51ab") (str "ffffffff");
     mkTXIN (Buffer.toString_hex (replicate 32 187)) 1 (str "52cd") (str "ffffffff")]
    [mkTXOUT (str "76a9") 5000; mkTXOUT (str "a914") 7000].

(** One spendable output and two recipients. *)
Definition history_one : list HISTORY :=
  [mkHISTORY (Buffer.toString_hex (replicate 32 170)) 0 12000 (str "znToyAddress")].

Definition recipients_two : list RECIPIENTS :=
  [mkRECIPIENTS 5000 (str "znToyAddress"); mkRECIPIENTS 7000 (str "3ToyAddress")].

(** A decoder that rejects the empty address, a signer that always
    fails, and one that always returns the same 64 bytes. *)
Definition picky_decode (address : jsstring) : result (list Z) :=
  match address with
  | [] => Throw ExternalError
  | _ => toy_decode address
  end.

Definition failing_sign (msg privKey : list Z) : result (list Z) := Throw ExternalError.


(** A signer whose [r] has the top bit of its first byte set. *)
Definition high_bit_sign (msg privKey : list Z) : result (list Z) :=
  Ok ((129 :: replicate 31 7) ++ replicate 32 5).

(** A transaction whose first output is blanked, as SIGHASH_SINGLE leaves
    it. *)
Definition tx_blank : TXOBJ :=
  mkTXOBJ 0 1
    [mkTXIN (Buffer.toString_hex (replicate 32 170)) 0 [] (str "ffffffff")]
    [blank_out; mkTXOUT (str "76a9") 5000].

(** * Properties *)

(** ** Hexadecimal rendering *)

Lemma toString_hex_app (a b : list Z) :
  Buffer.toString_hex (a ++ b) = Buffer.toString_hex a ++ Buffer.toString_hex b.
Proof. unfold Buffer.toString_hex. apply flat_map_app. Qed.

Lemma toString_hex_cons (b : Z) (bs : list Z) :
  Buffer.toString_hex (b :: bs) =
  Buffer.hexdigit (b / 16) :: Buffer.hexdigit (b mod 16) :: Buffer.toString_hex bs.
Proof. reflexivity. Qed.

Lemma toString_hex_length (bs : list Z) :
  length (Buffer.toString_hex bs) = (2 * length bs)%nat.
Proof.
  induction bs as [|b bs IH]; [reflexivity|].
  rewrite toString_hex_cons. simpl. rewrite IH. lia.
Qed.

Lemma nibble_cases (q : Z) :
  0 <= q < 16 ->
  q = 0 \/ q = 1 \/ q = 2 \/ q = 3 \/ q = 4 \/ q = 5 \/ q = 6 \/ q = 7 \/
  q = 8 \/ q = 9 \/ q = 10 \/ q = 11 \/ q = 12 \/ q = 13 \/ q = 14 \/ q = 15.
Proof. lia. Qed.

Ltac nibble q H :=
  destruct (nibble_cases q H) as
    [->|[->|[->|[->|[->|[->|[->|[->|[->|[->|[->|[->|[->|[->|[->| ->]]]]]]]]]]]]]]].

Lemma hexval_hexdigit (q : Z) : 0 <= q < 16 -> Buffer.hexval (Buffer.hexdigit q) = Some q.
Proof. intros H. nibble q H; reflexivity. Qed.

Lemma byte_nibbles (b : Z) :
  Buffer.is_byte b -> 0 <= b / 16 < 16 /\ 0 <= b mod 16 < 16 /\ 16 * (b / 16) + b mod 16 = b.
Proof.
  unfold Buffer.is_byte. intros H.
  pose proof (Z.div_mod b 16 ltac:(lia)).
  pose proof (Z.mod_pos_bound b 16 ltac:(lia)).
  repeat split; lia.
Qed.

Lemma from_hex_toString_hex (bs : list Z) :
  Forall Buffer.is_byte bs -> Buffer.from_hex (Buffer.toString_hex bs) = bs.
Proof.
  induction 1 as [|b bs Hb _ IH]; [reflexivity|].
  rewrite toString_hex_cons.
  destruct (byte_nibbles b Hb) as (Hq & Hr & E).
  cbn [Buffer.from_hex].
  rewrite (hexval_hexdigit _ Hq), (hexval_hexdigit _ Hr), IH, E. reflexivity.
Qed.

Lemma from_array_bytes (bs : list Z) :
  Forall Buffer.is_byte bs -> Buffer.from_array bs = bs.
Proof.
  unfold Buffer.from_array.
  induction 1 as [|b bs Hb _ IH]; [reflexivity|].
  cbn [map]. rewrite IH. f_equal. apply Z.mod_small. exact Hb.
Qed.

(** ** Varint codec *)

Lemma numToBytes_little_endian (k : nat) :
  forall n, 0 <= n < 256 ^ Z.of_nat k -> little_endian k n (numToBytes n k).
Proof.
  induction k as [|k IH]; intros n Hn.
  - change (256 ^ Z.of_nat 0) with 1 in Hn.
    repeat split; [constructor | simpl; lia].
  - rewrite Nat2Z.inj_succ, Z.pow_succ_r in Hn by lia.
    assert (Hq : 0 <= n / 256 < 256 ^ Z.of_nat k).
    { split; [apply Z.div_pos; lia | apply Z.div_lt_upper_bound; lia]. }
    destruct (IH _ Hq) as (Hlen & Hall & Hval).
    cbn [numToBytes app].
    rewrite Z.rem_mod_nonneg by lia.
    pose proof (Z.mod_pos_bound n 256 ltac:(lia)).
    repeat split.
    + simpl. congruence.
    + constructor; [exact H | exact Hall].
    + cbn [le_value]. rewrite Hval.
      pose proof (Z.div_mod n 256 ltac:(lia)). lia.
Qed.

(** C5. [numToVarInt] renders [n] itself as one byte below 253; otherwise a
    marker byte followed by [n] in little-endian: 253 and 2 bytes below
    65536, 254 and 4 bytes below 2^32, and 253 again with 8 bytes from 2^32
    up to 2^64. *)
Theorem numToVarInt_encoding (n : Z) :
  0 <= n < 2 ^ 64 ->
  exists bs,
    numToVarInt n = Buffer.toString_hex bs /\
    Buffer.from_hex (numToVarInt n) = bs /\
    (n < 253 -> bs = [n]) /\
    (253 <= n < 65536 -> exists p, bs = 253 :: p /\ little_endian 2 n p) /\
    (65536 <= n < 2 ^ 32 -> exists p, bs = 254 :: p /\ little_endian 4 n p) /\
    (2 ^ 32 <= n < 2 ^ 64 -> exists p, bs = 253 :: p /\ little_endian 8 n p).
Proof.
  intros Hn.
  assert (Hall : Forall Buffer.is_byte (numToVarInt_array n)).
  { unfold numToVarInt_array.
    destruct (Z.ltb_spec n 253); [repeat constructor; lia|].
    destruct (Z.ltb_spec n 65536).
    { constructor; [unfold Buffer.is_byte; lia|].
      apply (numToBytes_little_endian 2). change (256 ^ Z.of_nat 2) with 65536. lia. }
    destruct (Z.ltb_spec n 4294967296).
    { constructor; [unfold Buffer.is_byte; lia|].
      apply (numToBytes_little_endian 4). change (256 ^ Z.of_nat 4) with 4294967296. lia. }
    constructor; [unfold Buffer.is_byte; lia|].
    apply (numToBytes_little_endian 8). change (256 ^ Z.of_nat 8) with (2 ^ 64). lia. }
  exists (numToVarInt_array n).
  unfold numToVarInt. rewrite (from_array_bytes _ Hall).
  split; [reflexivity|]. split; [apply from_hex_toString_hex, Hall|].
  unfold numToVarInt_array.
  change (2 ^ 32) with 4294967296.
  destruct (Z.ltb_spec n 253); [repeat split; intros; try lia; reflexivity|].
  destruct (Z.ltb_spec n 65536).
  { repeat split; intros; try lia. eexists; split; [reflexivity|].
    apply numToBytes_little_endian. change (256 ^ Z.of_nat 2) with 65536. lia. }
  destruct (Z.ltb_spec n 4294967296).
  { repeat split; intros; try lia. eexists; split; [reflexivity|].
    apply numToBytes_little_endian. change (256 ^ Z.of_nat 4) with 4294967296. lia. }
  repeat split; intros; try lia. eexists; split; [reflexivity|].
  apply numToBytes_little_endian. change (256 ^ Z.of_nat 8) with (2 ^ 64). lia.
Qed.

Lemma numToVarInt_encoding_witness :
  exists bs,
    numToVarInt 70000 = Buffer.toString_hex bs /\
    Buffer.from_hex (numToVarInt 70000) = bs /\
    (70000 < 253 -> bs = [70000]) /\
    (253 <= 70000 < 65536 -> exists p, bs = 253 :: p /\ little_endian 2 70000 p) /\
    (65536 <= 70000 < 2 ^ 32 -> exists p, bs = 254 :: p /\ little_endian 4 70000 p) /\
    (2 ^ 32 <= 70000 < 2 ^ 64 -> exists p, bs = 253 :: p /\ little_endian 8 70000 p).
Proof. apply (numToVarInt_encoding 70000). lia. Defined.

Lemma getStringBufferLength_hex (bs : list Z) :
  Forall Buffer.is_byte bs -> (length bs < 256)%nat ->
  getStringBufferLength (Buffer.toString_hex bs) = Buffer.toString_hex [Z.of_nat (length bs)].
Proof.
  intros Hall Hlen. unfold getStringBufferLength.
  rewrite (from_hex_toString_hex _ Hall), from_array_bytes; [reflexivity|].
  repeat constructor; lia.
Qed.

Lemma testbit7_nibble (b : Z) : Buffer.is_byte b -> Z.testbit b 7 = (8 <=? b / 16).
Proof.
  intros Hb. destruct (byte_nibbles b Hb) as (Hq & _ & _).
  rewrite Z.testbit_odd, Z.shiftr_div_pow2 by lia.
  change (2 ^ 7) with (16 * 8). rewrite <- Z.div_div by lia.
  nibble (b / 16) Hq; reflexivity.
Qed.

Lemma first_char_high_bit (b : Z) (bs : list Z) :
  Buffer.is_byte b ->
  first_char_in (str "89abcdef") (Buffer.toString_hex (b :: bs)) = Z.testbit b 7.
Proof.
  intros Hb. rewrite (testbit7_nibble b Hb), toString_hex_cons.
  destruct (byte_nibbles b Hb) as (Hq & _ & _).
  cbn [first_char_in]. nibble (b / 16) Hq; reflexivity.
Qed.

(** ** Script builder *)

Lemma pinned_constants :
  little_endian 3 blockHeight pinned_height /\
  Buffer.from_hex blockHash = pinned_hash /\
  replay_suffix =
    str "2076425c1764d905247519986f94ce7878a56fea236e7c8e7a4b50e8bb0400000003072902b4".
Proof.
  split; [|split; reflexivity].
  split; [reflexivity|]. split; [|reflexivity].
  repeat constructor; unfold Buffer.is_byte; lia.
Qed.

Lemma mkPubkeyHashReplayScript_shape decode (address : jsstring) :
  mkPubkeyHashReplayScript decode address =
  rbind (decode address) (fun decoded =>
    let addrHex := Buffer.toString_hex decoded in
    let subAddrHex := substring addrHex 4 (length addrHex) in
    Ok ((OP_DUP ++ OP_HASH160 ++ getStringBufferLength subAddrHex ++ subAddrHex ++
         OP_EQUALVERIFY ++ OP_CHECKSIG) ++ replay_suffix)).
Proof.
  unfold mkPubkeyHashReplayScript.
  destruct (decode address) as [decoded|e]; [|reflexivity].
  cbn [rbind].
  change (Buffer.writeUInt32LE (Buffer.alloc 4) blockHeight 0) with (Ok [7; 41; 2; 0]).
  cbn [rbind].
  change (bool_decide ([7; 41; 2; 0] !! 3%nat = Some 0)) with true.
  cbv beta iota zeta.
  f_equal.
  repeat rewrite <- app_assoc.
  repeat f_equal.
Qed.

(** C10. Whatever the address, a script built by [mkPubkeyHashReplayScript]
    ends with the same suffix: a push of the byte-reversed pinned block
    hash, a push of the three-byte little-endian pinned height 141575, and
    OP_CHECKBLOCKATHEIGHT; the suffix is a constant of the module that no
    argument reaches. *)
Theorem mkPubkeyHashReplayScript_suffix
    (decode : jsstring -> result (list Z)) (a1 a2 s1 s2 : jsstring) :
  mkPubkeyHashReplayScript decode a1 = Ok s1 ->
  mkPubkeyHashReplayScript decode a2 = Ok s2 ->
  (exists p1 p2, s1 = p1 ++ replay_suffix /\ s2 = p2 ++ replay_suffix) /\
  replay_suffix =
    pushdata (rev pinned_hash) ++ pushdata pinned_height ++ OP_CHECKBLOCKATHEIGHT /\
  Buffer.from_hex blockHash = pinned_hash /\
  little_endian 3 blockHeight pinned_height /\
  blockHeight = 141575 /\
  blockHash = str "00000004bbe8504b7a8e7c6e23ea6fa57878ce946f9819752405d964175c4276".
Proof.
  intros H1 H2.
  rewrite mkPubkeyHashReplayScript_shape in H1, H2.
  destruct (decode a1) as [d1|]; [|discriminate].
  destruct (decode a2) as [d2|]; [|discriminate].
  cbn [rbind] in H1, H2. cbv zeta in H1, H2.
  apply (f_equal (fun r => match r with Ok x => x | Throw _ => [] end)) in H1, H2.
  cbv beta iota in H1, H2.
  destruct pinned_constants as (Hle & Hh & _).
  repeat split; try assumption; try apply Hle.
  eexists _, _. split; symmetry; eassumption.
Qed.

Lemma mkPubkeyHashReplayScript_suffix_witness :
  exists s1 s2,
    mkPubkeyHashReplayScript (fun _ => Ok (32 :: 137 :: replicate 20 17)) (str "znA") = Ok s1 /\
    mkPubkeyHashReplayScript (fun _ => Ok (32 :: 137 :: replicate 20 17)) (str "znB") = Ok s2 /\
    exists p1 p2, s1 = p1 ++ replay_suffix /\ s2 = p2 ++ replay_suffix.
Proof.
  eexists _, _. split; [reflexivity|]. split; [reflexivity|].
  apply (mkPubkeyHashReplayScript_suffix
           (fun _ => Ok (32 :: 137 :: replicate 20 17)) (str "znA") (str "znB"));
    reflexivity.
Defined.

(** ** Serialiser *)

(** The placeholder as a number: the double nearest to [2^64 - 1]. *)
Lemma pow_2_64_minus_1_value : pow_2_64_minus_1 = 2 ^ 64 /\ pow_2_32_minus_1 = 2 ^ 32 - 1.
Proof. split; reflexivity. Qed.

(** One step of the output loop: for an output whose amount is the
    SIGHASH_SINGLE placeholder [Math.pow(2, 64) - 1], the callback appends
    eight bytes 0xFF as the amount (followed by the script length and the
    script). *)
Lemma serializeTx_out_blanked (serializedTx script : jsstring) :
  serializeTx_out serializedTx (mkTXOUT script pow_2_64_minus_1) =
  Ok (serializedTx ++ Buffer.toString_hex (replicate 8 255) ++
      numToVarInt (Z.of_nat (length script)) ++ script).
Proof.
  unfold serializeTx_out. cbn [out_satoshis out_script].
  rewrite Z.eqb_refl.
  change (Buffer.writeUInt32LE (Buffer.alloc 8) pow_2_32_minus_1 0)
    with (Ok [255; 255; 255; 255; 0; 0; 0; 0]).
  cbn [rbind].
  change (Buffer.writeUInt32LE [255; 255; 255; 255; 0; 0; 0; 0] pow_2_32_minus_1 4)
    with (Ok (replicate 8 255)).
  cbn [rbind]. rewrite <- !app_assoc. reflexivity.
Qed.

(** ** Signature encoding *)

Lemma der_pad_bytes (x : list Z) : Forall Buffer.is_byte x -> Forall Buffer.is_byte (der_pad x).
Proof.
  intros H. destruct x as [|b x]; [exact H|].
  cbn [der_pad]. destruct (Z.testbit b 7); [|exact H].
  constructor; [unfold Buffer.is_byte; lia | exact H].
Qed.

Lemma der_pad_length (x : list Z) :
  length x = 32%nat -> (length (der_pad x) = 32 \/ length (der_pad x) = 33)%nat.
Proof.
  intros H. destruct x as [|b x]; [discriminate|].
  cbn [der_pad]. destruct (Z.testbit b 7); [right|left]; simpl in *; lia.
Qed.

Lemma strip_der_pad (x : list Z) : length x = 32%nat -> strip_pad (der_pad x) = x.
Proof.
  intros H. destruct x as [|b x]; [discriminate|].
  unfold strip_pad. cbn [der_pad]. destruct (Z.testbit b 7).
  - replace (length (0%Z :: b :: x) - 32)%nat with 1%nat by (simpl in *; lia). reflexivity.
  - rewrite H. reflexivity.
Qed.

Lemma be_value_der_pad (x : list Z) : be_value (der_pad x) = be_value x.
Proof.
  destruct x as [|b x]; [reflexivity|].
  cbn [der_pad]. destruct (Z.testbit b 7); reflexivity.
Qed.

Lemma padded_hex (x : list Z) :
  Forall Buffer.is_byte x ->
  (if first_char_in (str "89abcdef") (Buffer.toString_hex x)
   then str "00" ++ Buffer.toString_hex x else Buffer.toString_hex x) =
  Buffer.toString_hex (der_pad x).
Proof.
  intros H. destruct H as [|b x Hb _]; [reflexivity|].
  rewrite (first_char_high_bit b x Hb). cbn [der_pad].
  destruct (Z.testbit b 7); reflexivity.
Qed.

Lemma der_integer_hex (x : list Z) :
  Forall Buffer.is_byte x -> (length x < 256)%nat ->
  str "02" ++ getStringBufferLength (Buffer.toString_hex x) ++ Buffer.toString_hex x =
  Buffer.toString_hex ([2; Z.of_nat (length x)] ++ x).
Proof.
  intros H Hl. rewrite (getStringBufferLength_hex x H Hl).
  rewrite toString_hex_app. reflexivity.
Qed.

Lemma substr_halves (r s : list Z) :
  length r = 32%nat -> length s = 32%nat ->
  substr (Buffer.toString_hex (r ++ s)) 0 64 = Buffer.toString_hex r /\
  substr (Buffer.toString_hex (r ++ s)) 64 128 = Buffer.toString_hex s.
Proof.
  intros Hr Hs. unfold substr. rewrite toString_hex_app. split.
  - rewrite drop_0. apply take_app_length'. rewrite toString_hex_length, Hr. reflexivity.
  - rewrite drop_app_length' by (rewrite toString_hex_length, Hr; reflexivity).
    apply take_ge. rewrite toString_hex_length, Hs. lia.
Qed.

Lemma encodeSignature_bytes (r s : list Z) (hashcode : Z) :
  length r = 32%nat -> length s = 32%nat ->
  Forall Buffer.is_byte r -> Forall Buffer.is_byte s ->
  0 <= hashcode < 256 ->
  encodeSignature (Buffer.toString_hex (r ++ s)) hashcode =
  Buffer.toString_hex (der_sequence (der_pad r) (der_pad s) ++ [hashcode]).
Proof.
  intros Hr Hs Br Bs Hh.
  unfold encodeSignature.
  destruct (substr_halves r s Hr Hs) as [-> ->].
  cbv zeta.
  rewrite !padded_hex by assumption.
  pose proof (der_pad_bytes r Br) as Br'. pose proof (der_pad_bytes s Bs) as Bs'.
  pose proof (der_pad_length r Hr) as Lr. pose proof (der_pad_length s Hs) as Ls.
  set (r' := der_pad r) in *. set (s' := der_pad s) in *.
  rewrite (der_integer_hex r' Br') by lia.
  rewrite (der_integer_hex s' Bs') by lia.
  rewrite <- toString_hex_app.
  set (body := ([2; Z.of_nat (length r')] ++ r') ++ [2; Z.of_nat (length s')] ++ s').
  assert (Bbody : Forall Buffer.is_byte body).
  { unfold body. repeat first [apply Forall_app; split | apply Forall_cons; split];
      try assumption; try apply Forall_nil; unfold Buffer.is_byte; lia. }
  assert (Lbody : length body = (4 + length r' + length s')%nat).
  { unfold body. rewrite !length_app. simpl. lia. }
  rewrite (getStringBufferLength_hex body Bbody) by lia.
  rewrite from_array_bytes by (repeat constructor; lia).
  change (str "30") with (Buffer.toString_hex [48]).
  rewrite <- !toString_hex_app. f_equal.
  unfold der_sequence. rewrite Lbody. unfold body.
  rewrite <- !app_assoc. cbn [app].
  do 2 f_equal. lia.
Qed.

Lemma der_decode_sequence (r' s' rest : list Z) :
  der_decode (der_sequence r' s' ++ rest) = Some (r', s', rest).
Proof.
  unfold der_sequence. cbn [app der_decode].
  rewrite Nat2Z.id, <- app_assoc, drop_app_length. cbn [app].
  rewrite Nat2Z.id, take_app_length, take_app_length, drop_app_length.
  rewrite Z.eqb_refl, !Nat.eqb_refl. reflexivity.
Qed.

Lemma der_sequence_bytes (r' s' : list Z) :
  Forall Buffer.is_byte r' -> Forall Buffer.is_byte s' ->
  (length r' <= 33)%nat -> (length s' <= 33)%nat ->
  Forall Buffer.is_byte (der_sequence r' s').
Proof.
  intros Br Bs Lr Ls. unfold der_sequence.
  repeat first [apply Forall_app; split | apply Forall_cons; split];
    try assumption; try apply Forall_nil; unfold Buffer.is_byte; lia.
Qed.

(** The encoding of a raw signature of two 32-byte big-endian values [r]
    and [s]: tag 0x30, a length byte, tag 0x02, a length byte, the bytes of
    [r], tag 0x02, a length byte, the bytes of [s], and one trailing byte
    holding the sighash code; [r] and [s] carry a leading zero byte exactly
    when the top bit of their first byte is set; reading the structure back
    and dropping the padding gives [r] and [s] again; and the DER structure
    is [6 + len r' + len s'] bytes long. *)
Lemma encodeSignature_der_form (r s : list Z) (hashcode : Z) :
  length r = 32%nat -> length s = 32%nat ->
  Forall Buffer.is_byte r -> Forall Buffer.is_byte s ->
  0 <= hashcode < 256 ->
  let r' := der_pad r in
  let s' := der_pad s in
  let sigAndHashcode := encodeSignature (Buffer.toString_hex (r ++ s)) hashcode in
  sigAndHashcode =
    Buffer.toString_hex
      ([0x30; 4 + Z.of_nat (length r') + Z.of_nat (length s')] ++
       [0x02; Z.of_nat (length r')] ++ r' ++
       [0x02; Z.of_nat (length s')] ++ s' ++
       [hashcode]) /\
  (forall b x, r = b :: x -> r' = if Z.testbit b 7 then 0 :: r else r) /\
  (forall b x, s = b :: x -> s' = if Z.testbit b 7 then 0 :: s else s) /\
  der_decode (Buffer.from_hex sigAndHashcode) = Some (r', s', [hashcode]) /\
  strip_pad r' = r /\ strip_pad s' = s /\
  be_value r' = be_value r /\ be_value s' = be_value s /\
  length (Buffer.from_hex sigAndHashcode) = (6 + length r' + length s' + 1)%nat /\
  length (der_sequence r' s') = (6 + length r' + length s')%nat.
Proof.
  intros Hr Hs Br Bs Hh r' s' sigAndHashcode.
  pose proof (encodeSignature_bytes r s hashcode Hr Hs Br Bs Hh) as E.
  fold r' s' sigAndHashcode in E.
  pose proof (der_pad_bytes r Br) as Br'. pose proof (der_pad_bytes s Bs) as Bs'.
  pose proof (der_pad_length r Hr) as Lr. pose proof (der_pad_length s Hs) as Ls.
  fold r' in Br', Lr. fold s' in Bs', Ls.
  assert (Ball : Forall Buffer.is_byte (der_sequence r' s' ++ [hashcode])).
  { apply Forall_app; split; [apply der_sequence_bytes; (assumption || lia)|].
    repeat constructor; lia. }
  assert (Lseq : length (der_sequence r' s') = (6 + length r' + length s')%nat).
  { unfold der_sequence. rewrite !length_app. simpl. lia. }
  split.
  { rewrite E. f_equal. unfold der_sequence. rewrite <- !app_assoc. reflexivity. }
  split; [intros b x ->; reflexivity|].
  split; [intros b x ->; reflexivity|].
  rewrite E, (from_hex_toString_hex _ Ball).
  split; [apply der_decode_sequence|].
  split; [apply strip_der_pad, Hr|].
  split; [apply strip_der_pad, Hs|].
  split; [apply be_value_der_pad|].
  split; [apply be_value_der_pad|].
  split; [rewrite length_app, Lseq; simpl; lia | exact Lseq].
Qed.

(** ** What [serializeTx] writes *)

Lemma le_bytes_16 (v : Z) : fits16 v -> le_bytes 4 v = [v mod 256; v / 256; 0; 0].
Proof.
  unfold fits16. intros H. cbn [le_bytes].
  assert (E1 : (v / 256) mod 256 = v / 256) by (Z.to_euclidean_division_equations; lia).
  assert (E2 : v / 256 / 256 = 0) by (Z.to_euclidean_division_equations; lia).
  rewrite E1, E2. reflexivity.
Qed.

Lemma le_bytes_32 (a : Z) :
  0 <= a < 4294967296 ->
  le_bytes 8 a =
  [a mod 256; (a / 256) mod 256; (a / 65536) mod 256; a / 16777216; 0; 0; 0; 0].
Proof.
  intros H. cbn [le_bytes].
  assert (E1 : a / 256 / 256 = a / 65536) by (Z.to_euclidean_division_equations; lia).
  assert (E2 : a / 65536 / 256 = a / 16777216) by (Z.to_euclidean_division_equations; lia).
  assert (E3 : (a / 16777216) mod 256 = a / 16777216) by (Z.to_euclidean_division_equations; lia).
  assert (E4 : a / 16777216 / 256 = 0) by (Z.to_euclidean_division_equations; lia).
  rewrite E1, E2, E3, E4. reflexivity.
Qed.

Lemma writeUInt16LE_buf16 (a b v : Z) :
  fits16 v -> Buffer.writeUInt16LE [a; b; 0; 0] v 0 = Ok (le_bytes 4 v).
Proof.
  intros H. rewrite (le_bytes_16 v H). unfold fits16 in H. unfold Buffer.writeUInt16LE.
  destruct (Z.leb_spec 0 v); [|lia]. destruct (Z.ltb_spec v 65536); [|lia]. reflexivity.
Qed.

Lemma layout_amount_write (a : Z) :
  fits_amount a ->
  (if a =? pow_2_64_minus_1 then
     rbind (Buffer.writeUInt32LE (Buffer.alloc 8) pow_2_32_minus_1 0) (fun _buf32 =>
     Buffer.writeUInt32LE _buf32 pow_2_32_minus_1 4)
   else Buffer.writeUInt32LE (Buffer.alloc 8) a 0) = Ok (layout_amount a).
Proof.
  intros H. unfold layout_amount.
  destruct (Z.eqb_spec a pow_2_64_minus_1) as [_|Hne]; [reflexivity|].
  destruct H as [H|H]; [contradiction|].
  rewrite (le_bytes_32 a H). unfold Buffer.writeUInt32LE.
  destruct (Z.leb_spec 0 a); [|lia]. destruct (Z.ltb_spec a 4294967296); [|lia]. reflexivity.
Qed.

Lemma serializeTx_ins (l : list TXIN) :
  Forall (fun i => fits16 (in_vout i)) l ->
  forall (a b : Z) (acc : jsstring),
  exists a' b',
    Array_each serializeTx_in ([a; b; 0; 0], acc) l =
    Ok ([a'; b'; 0; 0], acc ++ flat_map (layout_in (@length ascii)) l).
Proof.
  induction 1 as [|i l Hi _ IH]; intros a b acc.
  - exists a, b. cbn [Array_each flat_map]. rewrite app_nil_r. reflexivity.
  - cbn [Array_each serializeTx_in].
    rewrite (writeUInt16LE_buf16 a b _ Hi), (le_bytes_16 _ Hi). cbn [rbind].
    destruct (IH (in_vout i mod 256) (in_vout i / 256)
                ((((((acc ++ in_hash i) ++
                       Buffer.toString_hex [in_vout i mod 256; in_vout i / 256; 0; 0]) ++
                      numToVarInt (Z.of_nat (length (in_script i)))) ++
                     in_script i) ++ in_sequence i))) as (a' & b' & ->).
    exists a', b'. do 2 f_equal. cbn [flat_map]. unfold layout_in.
    rewrite (le_bytes_16 _ Hi). rewrite <- !app_assoc. reflexivity.
Qed.

Lemma serializeTx_outs (l : list TXOUT) :
  Forall (fun o => fits_amount (out_satoshis o)) l ->
  forall acc : jsstring,
    Array_each serializeTx_out acc l = Ok (acc ++ flat_map (layout_out (@length ascii)) l).
Proof.
  induction 1 as [|o l Ho _ IH]; intros acc.
  - cbn [Array_each flat_map]. rewrite app_nil_r. reflexivity.
  - cbn [Array_each]. unfold serializeTx_out at 1.
    rewrite (layout_amount_write _ Ho). cbn [rbind]. rewrite IH.
    f_equal. cbn [flat_map]. unfold layout_out. rewrite <- !app_assoc. reflexivity.
Qed.

(** On the values its 16- and 32-bit writes accept, [serializeTx] produces
    the layout of the specification with every script length counted in
    characters of the hexadecimal string. *)
Lemma serializeTx_layout (tx : TXOBJ) :
  serializable tx -> serializeTx tx = Ok (layout (@length ascii) tx).
Proof.
  intros (Hv & Hl & Hins & Houts). unfold serializeTx.
  change (Buffer.alloc 4) with [0; 0; 0; 0].
  rewrite (writeUInt16LE_buf16 0 0 _ Hv), (le_bytes_16 _ Hv). cbn [rbind].
  destruct (serializeTx_ins (ins tx) Hins (version tx mod 256) (version tx / 256)
              (([] ++ Buffer.toString_hex [version tx mod 256; version tx / 256; 0; 0]) ++
               numToVarInt (Z.of_nat (length (ins tx))))) as (a' & b' & ->).
  cbn [rbind]. rewrite (serializeTx_outs (outs tx) Houts). cbn [rbind].
  rewrite (writeUInt16LE_buf16 a' b' _ Hl). cbn [rbind].
  f_equal. unfold layout. rewrite (le_bytes_16 _ Hv).
  rewrite <- !app_assoc. reflexivity.
Qed.

(** So the code and the specification agree when every script is empty. *)
Lemma serializeTx_spec_without_scripts (tx : TXOBJ) :
  serializable tx ->
  Forall (fun i => in_script i = []) (ins tx) ->
  Forall (fun o => out_script o = []) (outs tx) ->
  serializeTx tx = Ok (spec_serialize tx).
Proof.
  intros Hs Hi Ho. rewrite (serializeTx_layout tx Hs). f_equal.
  unfold spec_serialize, layout. f_equal. f_equal. f_equal; [|f_equal; f_equal].
  - induction Hi as [|i l Hi _ IH]; [reflexivity|].
    cbn [flat_map]. rewrite IH. f_equal. unfold layout_in. rewrite Hi. reflexivity.
  - induction Ho as [|o l Ho _ IH]; [reflexivity|].
    cbn [flat_map]. rewrite IH. f_equal. unfold layout_out. rewrite Ho. reflexivity.
Qed.

(** ** The store monad *)

Lemma bind_ok {A B : Type} (m : M A) (k : A -> M B) (h h' : heap) (a : A) :
  m h = (Ok a, h') -> (m ≫= k) h = k a h'.
Proof. intros E. unfold mbind, M_bind. rewrite E. reflexivity. Qed.

Lemma bind_throw {A B : Type} (m : M A) (k : A -> M B) (h h' : heap) (e : error) :
  m h = (Throw e, h') -> (m ≫= k) h = (Throw e, h').
Proof. intros E. unfold mbind, M_bind. rewrite E. reflexivity. Qed.

Lemma bind_inv {A B : Type} (m : M A) (k : A -> M B) (h h' : heap) (b : B) :
  (m ≫= k) h = (Ok b, h') -> exists a h1, m h = (Ok a, h1) /\ k a h1 = (Ok b, h').
Proof.
  unfold mbind, M_bind. destruct (m h) as [[a|e] h1]; [eauto | discriminate].
Qed.

Lemma readTx_ok (h : heap) (l : loc) (t : TXREF) : h !! l = Some (CTx t) -> readTx h l = Ok t.
Proof. intros E. unfold readTx. rewrite E. reflexivity. Qed.

Lemma readArr_ok (h : heap) (l : loc) (a : list loc) :
  h !! l = Some (CArr a) -> readArr h l = Ok a.
Proof. intros E. unfold readArr. rewrite E. reflexivity. Qed.

Lemma readIn_ok (h : heap) (l : loc) (x : TXIN) : h !! l = Some (CIn x) -> readIn h l = Ok x.
Proof. intros E. unfold readIn. rewrite E. reflexivity. Qed.

Lemma readOut_ok (h : heap) (l : loc) (o : TXOUT) :
  h !! l = Some (COut o) -> readOut h l = Ok o.
Proof. intros E. unfold readOut. rewrite E. reflexivity. Qed.

Lemma insert_as_alter (h : heap) (l : loc) (c : cell) (f : cell -> cell) :
  h !! l = Some c -> <[l := f c]> h = alter f l h.
Proof.
  intros E. apply list_eq. intros l'.
  destruct (decide (l = l')) as [<-|Hne].
  - rewrite list_lookup_alter_eq, E.
    apply list_lookup_insert_eq. eapply lookup_lt_Some, E.
  - rewrite list_lookup_insert_ne, list_lookup_alter_ne by assumption. reflexivity.
Qed.

Section Accessors.

Variables (h : heap) (tx : loc) (t : TXREF).
Hypothesis Htx : h !! tx = Some (CTx t).

Lemma ins_length_ok (a : list loc) :
  h !! ref_ins t = Some (CArr a) -> ins_length tx h = (Ok (length a), h).
Proof.
  intros Ha. unfold ins_length, mbind, M_bind, reading, mret, M_ret.
  rewrite (readTx_ok _ _ _ Htx), (readArr_ok _ _ _ Ha). reflexivity.
Qed.

Lemma ins_at_ok (a : list loc) (j : nat) (l : loc) :
  h !! ref_ins t = Some (CArr a) -> a !! j = Some l -> ins_at tx j h = (Ok l, h).
Proof.
  intros Ha Hj. unfold ins_at, mbind, M_bind, reading.
  rewrite (readTx_ok _ _ _ Htx), (readArr_ok _ _ _ Ha), Hj. reflexivity.
Qed.

Lemma ins_at_throw (a : list loc) (j : nat) :
  h !! ref_ins t = Some (CArr a) -> a !! j = None -> ins_at tx j h = (Throw TypeError, h).
Proof.
  intros Ha Hj. unfold ins_at, mbind, M_bind, reading.
  rewrite (readTx_ok _ _ _ Htx), (readArr_ok _ _ _ Ha), Hj. reflexivity.
Qed.

Lemma outs_at_ok (a : list loc) (j : nat) (l : loc) :
  h !! ref_outs t = Some (CArr a) -> a !! j = Some l -> outs_at tx j h = (Ok l, h).
Proof.
  intros Ha Hj. unfold outs_at, mbind, M_bind, reading.
  rewrite (readTx_ok _ _ _ Htx), (readArr_ok _ _ _ Ha), Hj. reflexivity.
Qed.

Lemma outs_at_throw (a : list loc) (j : nat) :
  h !! ref_outs t = Some (CArr a) -> a !! j = None -> outs_at tx j h = (Throw TypeError, h).
Proof.
  intros Ha Hj. unfold outs_at, mbind, M_bind, reading.
  rewrite (readTx_ok _ _ _ Htx), (readArr_ok _ _ _ Ha), Hj. reflexivity.
Qed.

Lemma set_ins_script_ok (a : list loc) (j : nat) (l : loc) (x : TXIN) (s : jsstring) :
  h !! ref_ins t = Some (CArr a) -> a !! j = Some l -> h !! l = Some (CIn x) ->
  set_ins_script tx j s h = (Ok tt, alter (cell_set_script s) l h).
Proof.
  intros Ha Hj Hl. unfold set_ins_script.
  rewrite (bind_ok _ _ _ _ _ (ins_at_ok a j l Ha Hj)).
  unfold mbind, M_bind, reading, store. rewrite (readIn_ok _ _ _ Hl).
  rewrite <- (insert_as_alter h l (CIn x) (cell_set_script s) Hl). reflexivity.
Qed.

Lemma set_ins_script_throw (a : list loc) (j : nat) (s : jsstring) :
  h !! ref_ins t = Some (CArr a) -> a !! j = None ->
  set_ins_script tx j s h = (Throw TypeError, h).
Proof.
  intros Ha Hj. unfold set_ins_script.
  apply bind_throw, (ins_at_throw a j Ha Hj).
Qed.

Lemma set_outs_satoshis_ok (a : list loc) (j : nat) (l : loc) (o : TXOUT) (v : Z) :
  h !! ref_outs t = Some (CArr a) -> a !! j = Some l -> h !! l = Some (COut o) ->
  set_outs_satoshis tx j v h = (Ok tt, <[l := COut (mkTXOUT (out_script o) v)]> h).
Proof.
  intros Ha Hj Hl. unfold set_outs_satoshis.
  rewrite (bind_ok _ _ _ _ _ (outs_at_ok a j l Ha Hj)).
  unfold mbind, M_bind, reading, store. rewrite (readOut_ok _ _ _ Hl). reflexivity.
Qed.

Lemma set_outs_script_ok (a : list loc) (j : nat) (l : loc) (o : TXOUT) (s : jsstring) :
  h !! ref_outs t = Some (CArr a) -> a !! j = Some l -> h !! l = Some (COut o) ->
  set_outs_script tx j s h = (Ok tt, <[l := COut (mkTXOUT s (out_satoshis o))]> h).
Proof.
  intros Ha Hj Hl. unfold set_outs_script.
  rewrite (bind_ok _ _ _ _ _ (outs_at_ok a j l Ha Hj)).
  unfold mbind, M_bind, reading, store. rewrite (readOut_ok _ _ _ Hl). reflexivity.
Qed.

Lemma blank_out_throw (a : list loc) (j : nat) :
  h !! ref_outs t = Some (CArr a) -> a !! j = None ->
  (set_outs_satoshis tx j pow_2_64_minus_1 ;; set_outs_script tx j []) h =
  (Throw TypeError, h).
Proof.
  intros Ha Hj. apply bind_throw. unfold set_outs_satoshis.
  apply bind_throw, (outs_at_throw a j Ha Hj).
Qed.

End Accessors.

Lemma blank_out_ok (h : heap) (tx : loc) (t : TXREF) (a : list loc) (j : nat) (l : loc) (o : TXOUT) :
  h !! tx = Some (CTx t) ->
  h !! ref_outs t = Some (CArr a) -> a !! j = Some l -> h !! l = Some (COut o) ->
  (set_outs_satoshis tx j pow_2_64_minus_1 ;; set_outs_script tx j []) h =
  (Ok tt, alter cell_blank_out l h).
Proof.
  intros Htx Ha Hj Hl.
  assert (Hlt : (l < length h)%nat) by (eapply lookup_lt_Some, Hl).
  assert (Hn1 : l <> tx) by (intros ->; congruence).
  assert (Hn2 : l <> ref_outs t) by (intros ->; congruence).
  rewrite (bind_ok _ _ _ _ _
             (set_outs_satoshis_ok h tx t Htx a j l o pow_2_64_minus_1 Ha Hj Hl)).
  rewrite (set_outs_script_ok _ tx t) with (a := a) (l := l)
      (o := mkTXOUT (out_script o) pow_2_64_minus_1).
  - rewrite list_insert_insert_eq.
    rewrite <- (insert_as_alter h l (COut o) cell_blank_out Hl). reflexivity.
  - rewrite list_lookup_insert_ne by assumption. exact Htx.
  - rewrite list_lookup_insert_ne by assumption. exact Ha.
  - exact Hj.
  - apply list_lookup_insert_eq, Hlt.
Qed.

(** ** Loops *)

Lemma forLoop_ok (body : nat -> M unit) (I : nat -> heap -> Prop) (m : nat) :
  forall (k : nat) (h : heap),
  I k h ->
  (forall j g, (k <= j < k + m)%nat -> I j g ->
     exists g', body j g = (Ok tt, g') /\ I (S j) g') ->
  exists h', forLoop m k body h = (Ok tt, h') /\ I (k + m)%nat h'.
Proof.
  induction m as [|m IH]; intros k h HI Hbody.
  - exists h. rewrite Nat.add_0_r. split; [reflexivity | exact HI].
  - destruct (Hbody k h ltac:(lia) HI) as (g' & Eb & HI').
    destruct (IH (S k) g' HI') as (h' & El & HIl).
    { intros j g Hj. apply Hbody. lia. }
    exists h'. cbn [forLoop]. rewrite (bind_ok _ _ _ _ _ Eb).
    split; [exact El|]. replace (k + S m)%nat with (S k + m)%nat by lia. exact HIl.
Qed.

Lemma forLoop_throw (body : nat -> M unit) (I : nat -> heap -> Prop) (e : error) (j0 m : nat) :
  forall (k : nat) (h : heap),
  I k h -> (k <= j0 < k + m)%nat ->
  (forall j g, (k <= j < j0)%nat -> I j g ->
     exists g', body j g = (Ok tt, g') /\ I (S j) g') ->
  (forall g, I j0 g -> exists g', body j0 g = (Throw e, g')) ->
  exists h', forLoop m k body h = (Throw e, h').
Proof.
  induction m as [|m IH]; intros k h HI Hk Hbody Hthrow; [lia|].
  cbn [forLoop].
  destruct (decide (k = j0)) as [->|Hne].
  - destruct (Hthrow h HI) as (g' & Eb). exists g'. apply bind_throw, Eb.
  - destruct (Hbody k h ltac:(lia) HI) as (g' & Eb & HI').
    rewrite (bind_ok _ _ _ _ _ Eb).
    apply (IH (S k) g' HI'); [lia | | exact Hthrow].
    intros j g Hj. apply Hbody. lia.
Qed.

(** ** Pointwise rewriting of the store *)

Lemma same_kind_refl (c : cell) : same_kind c c.
Proof. destruct c; simpl; auto. Qed.

Lemma cell_set_script_kind (s : jsstring) (c : cell) : same_kind c (cell_set_script s c).
Proof. destruct c; simpl; auto. Qed.

Lemma cell_blank_out_kind (c : cell) : same_kind c (cell_blank_out c).
Proof. destruct c; simpl; auto. Qed.

Lemma marked_kind (f : cell -> cell) (a : list loc) (j : nat) :
  (forall c, same_kind c (f c)) -> kind_preserving (marked f a j).
Proof.
  intros Hf l c. unfold marked.
  case_bool_decide; [apply Hf | apply same_kind_refl].
Qed.

Lemma cleared_kind (a : list loc) (j : nat) : kind_preserving (cleared a j).
Proof. apply marked_kind, cell_set_script_kind. Qed.

Lemma blanked_kind (a : list loc) (j : nat) : kind_preserving (blanked a j).
Proof. apply marked_kind, cell_blank_out_kind. Qed.

Lemma sig_mark_kind insA outsA li script hashcode :
  kind_preserving (sig_mark insA outsA li script hashcode).
Proof.
  intros l c. destruct c; simpl; auto.
  - case_bool_decide; simpl; auto.
  - destruct (_ && _); simpl; auto.
Qed.

Section Pointwise.

Variables (F : loc -> cell -> cell) (h g : heap).
Hypothesis HF : kind_preserving F.
Hypothesis Hpw : pointwise F h g.

Lemma pointwise_tx (l : loc) (t : TXREF) : h !! l = Some (CTx t) -> g !! l = Some (CTx t).
Proof.
  intros E. destruct Hpw as [_ Hl]. rewrite Hl, E. simpl.
  pose proof (HF l (CTx t)) as K. destruct (F l (CTx t)); simpl in K; try contradiction.
  congruence.
Qed.

Lemma pointwise_arr (l : loc) (a : list loc) : h !! l = Some (CArr a) -> g !! l = Some (CArr a).
Proof.
  intros E. destruct Hpw as [_ Hl]. rewrite Hl, E. simpl.
  pose proof (HF l (CArr a)) as K. destruct (F l (CArr a)); simpl in K; try contradiction.
  congruence.
Qed.

Lemma pointwise_in (l : loc) (x : TXIN) :
  h !! l = Some (CIn x) -> exists x', g !! l = Some (CIn x').
Proof.
  intros E. destruct Hpw as [_ Hl]. rewrite Hl, E. simpl.
  pose proof (HF l (CIn x)) as K. destruct (F l (CIn x)); simpl in K; try contradiction.
  eauto.
Qed.

Lemma pointwise_out (l : loc) (o : TXOUT) :
  h !! l = Some (COut o) -> exists o', g !! l = Some (COut o').
Proof.
  intros E. destruct Hpw as [_ Hl]. rewrite Hl, E. simpl.
  pose proof (HF l (COut o)) as K. destruct (F l (COut o)); simpl in K; try contradiction.
  eauto.
Qed.

Lemma pointwise_wf (tx : loc) (t : TXREF) (insA outsA : list loc) :
  wf_tx h tx t insA outsA -> wf_tx g tx t insA outsA.
Proof.
  intros [H1 H2 H3 H4 H5]. constructor.
  - apply pointwise_tx, H1.
  - apply pointwise_arr, H2.
  - apply pointwise_arr, H3.
  - eapply Forall_impl; [exact H4|]. intros l [x Hx]. eapply pointwise_in, Hx.
  - eapply Forall_impl; [exact H5|]. intros l [o Ho]. eapply pointwise_out, Ho.
Qed.

(** One more cell rewritten in place. *)
Lemma pointwise_alter (F' : loc -> cell -> cell) (f : cell -> cell) (l0 : loc) :
  (forall l c, h !! l = Some c ->
     F' l c = if decide (l0 = l) then f (F l c) else F l c) ->
  pointwise F' h (alter f l0 g).
Proof.
  intros HF'. destruct Hpw as [Hlen Hl]. split.
  - rewrite length_alter. exact Hlen.
  - intros l. rewrite list_lookup_alter.
    destruct (decide (l0 = l)) as [->|Hne].
    + rewrite Hl. destruct (h !! l) as [c|] eqn:E; [|reflexivity].
      simpl. rewrite (HF' l c E). rewrite decide_True by reflexivity. reflexivity.
    + rewrite Hl. destruct (h !! l) as [c|] eqn:E; [|reflexivity].
      simpl. rewrite (HF' l c E). rewrite decide_False by assumption. reflexivity.
Qed.

End Pointwise.

Lemma pointwise_id (h : heap) : pointwise (fun _ c => c) h h.
Proof. split; [reflexivity|]. intros l. destruct (h !! l); reflexivity. Qed.

Lemma pointwise_ext (F F' : loc -> cell -> cell) (h g : heap) :
  (forall l c, h !! l = Some c -> F l c = F' l c) ->
  pointwise F h g -> pointwise F' h g.
Proof.
  intros HE [Hlen Hl]. split; [exact Hlen|].
  intros l. rewrite Hl. destruct (h !! l) as [c|] eqn:E; [|reflexivity].
  simpl. rewrite (HE l c E). reflexivity.
Qed.

(** ** The two loops of [signatureForm] *)

Lemma marked_0 (f : cell -> cell) (a : list loc) (h : heap) : pointwise (marked f a 0) h h.
Proof.
  eapply pointwise_ext; [|apply pointwise_id].
  intros l c _. unfold marked. rewrite take_0.
  rewrite bool_decide_eq_false_2; [reflexivity | apply not_elem_of_nil].
Qed.

Lemma marked_step (f : cell -> cell) (a : list loc) (j : nat) (l l' : loc) (c : cell) :
  (forall c, f (f c) = f c) -> a !! j = Some l ->
  marked f a (S j) l' c = if decide (l = l') then f (marked f a j l' c) else marked f a j l' c.
Proof.
  intros Hf Hl. unfold marked. rewrite (take_S_r _ _ _ Hl).
  destruct (decide (l = l')) as [->|Hne].
  - rewrite bool_decide_eq_true_2
      by (apply elem_of_app; right; apply list_elem_of_singleton; reflexivity).
    case_bool_decide; [rewrite Hf|]; reflexivity.
  - case_bool_decide as H1; case_bool_decide as H2; try reflexivity; exfalso.
    + apply H2. apply elem_of_app in H1 as [H1|H1]; [exact H1|].
      apply list_elem_of_singleton in H1. congruence.
    + apply H1. apply elem_of_app. left. exact H2.
Qed.

Lemma cell_set_script_idem (s : jsstring) (c : cell) :
  cell_set_script s (cell_set_script s c) = cell_set_script s c.
Proof. destruct c; reflexivity. Qed.

Lemma cell_blank_out_idem (c : cell) : cell_blank_out (cell_blank_out c) = cell_blank_out c.
Proof. destruct c; reflexivity. Qed.

Section LoopSteps.

Variables (h : heap) (tx : loc) (t : TXREF) (insA outsA : list loc).
Hypothesis Hwf : wf_tx h tx t insA outsA.

(** One round of the loop over the inputs. *)
Lemma clear_step (j : nat) (g : heap) :
  (j < length insA)%nat -> pointwise (cleared insA j) h g ->
  exists g', set_ins_script tx j [] g = (Ok tt, g') /\ pointwise (cleared insA (S j)) h g'.
Proof.
  intros Hj Hpw.
  pose proof (pointwise_wf _ h g (cleared_kind insA j) Hpw _ _ _ _ Hwf) as [G1 G2 _ G4 _].
  destruct (lookup_lt_is_Some_2 insA j Hj) as [l Hl].
  destruct (Forall_lookup_1 _ _ _ _ G4 Hl) as [x Hx].
  eexists. split; [apply (set_ins_script_ok g tx t G1 insA j l x [] G2 Hl Hx)|].
  apply (pointwise_alter _ h g Hpw). intros l' c _.
  apply marked_step; [apply cell_set_script_idem | exact Hl].
Qed.

(** One round of the loop over the outputs. *)
Lemma blank_step (j : nat) (g : heap) :
  (j < length outsA)%nat -> pointwise (blanked outsA j) h g ->
  exists g',
    (set_outs_satoshis tx j pow_2_64_minus_1 ;; set_outs_script tx j []) g = (Ok tt, g') /\
    pointwise (blanked outsA (S j)) h g'.
Proof.
  intros Hj Hpw.
  pose proof (pointwise_wf _ h g (blanked_kind outsA j) Hpw _ _ _ _ Hwf) as [G1 _ G3 _ G5].
  destruct (lookup_lt_is_Some_2 outsA j Hj) as [l Hl].
  destruct (Forall_lookup_1 _ _ _ _ G5 Hl) as [o Ho].
  eexists. split; [apply (blank_out_ok g tx t outsA j l o G1 G3 Hl Ho)|].
  apply (pointwise_alter _ h g Hpw). intros l' c _.
  apply marked_step; [apply cell_blank_out_idem | exact Hl].
Qed.

Lemma clear_loop :
  exists h',
    forLoop (length insA) 0 (fun j => set_ins_script tx j []) h = (Ok tt, h') /\
    pointwise (cleared insA (length insA)) h h'.
Proof.
  apply (forLoop_ok _ (fun j g => pointwise (cleared insA j) h g) (length insA) 0%nat h).
  - apply marked_0.
  - intros j g Hj. apply clear_step. lia.
Qed.

Lemma blank_loop (m : nat) :
  (m <= length outsA)%nat ->
  exists h',
    forLoop m 0 (fun j =>
      set_outs_satoshis tx j pow_2_64_minus_1 ;; set_outs_script tx j []) h = (Ok tt, h') /\
    pointwise (blanked outsA m) h h'.
Proof.
  intros Hm.
  apply (forLoop_ok _ (fun j g => pointwise (blanked outsA j) h g) m 0%nat h).
  - apply marked_0.
  - intros j g Hj. apply blank_step. lia.
Qed.

Lemma blank_loop_throw (m : nat) :
  (length outsA < m)%nat ->
  exists h',
    forLoop m 0 (fun j =>
      set_outs_satoshis tx j pow_2_64_minus_1 ;; set_outs_script tx j []) h =
    (Throw TypeError, h').
Proof.
  intros Hm.
  apply (forLoop_throw _ (fun j g => pointwise (blanked outsA j) h g) TypeError
           (length outsA) m 0%nat h).
  - apply marked_0.
  - lia.
  - intros j g Hj. apply blank_step. lia.
  - intros g Hpw.
    pose proof (pointwise_wf _ h g (blanked_kind outsA _) Hpw _ _ _ _ Hwf) as [G1 _ G3 _ _].
    exists g. apply (blank_out_throw g tx t G1 outsA (length outsA) G3).
    apply lookup_ge_None. lia.
Qed.

End LoopSteps.

(** ** The sighash preimage builder on a well-formed transaction *)

Lemma wf_tx_lt (h : heap) (tx : loc) (t : TXREF) (insA outsA : list loc) :
  wf_tx h tx t insA outsA ->
  (tx < length h)%nat /\ (ref_ins t < length h)%nat /\ (ref_outs t < length h)%nat.
Proof.
  intros [H1 H2 H3 _ _].
  split; [|split]; eapply lookup_lt_Some; eassumption.
Qed.

Lemma wf_tx_snoc (h : heap) (tx : loc) (t : TXREF) (insA outsA : list loc) (c : cell) :
  wf_tx h tx t insA outsA -> wf_tx (h ++ [c]) tx t insA outsA.
Proof.
  intros [H1 H2 H3 H4 H5]. constructor; try (apply lookup_app_l_Some; assumption).
  - eapply Forall_impl; [exact H4|]. intros l [x Hx]. exists x. apply lookup_app_l_Some, Hx.
  - eapply Forall_impl; [exact H5|]. intros l [o Ho]. exists o. apply lookup_app_l_Some, Ho.
Qed.

Lemma wf_tx_copy (h : heap) (tx : loc) (t : TXREF) (insA outsA : list loc) :
  wf_tx h tx t insA outsA -> wf_tx (h ++ [CTx t]) (length h) t insA outsA.
Proof.
  intros Hwf. pose proof (wf_tx_snoc h tx t insA outsA (CTx t) Hwf) as [H1 H2 H3 H4 H5].
  constructor; try assumption. apply list_lookup_middle. reflexivity.
Qed.

Lemma sig_mark_not_single insA outsA li script hashcode l c :
  hashcode <> SIGHASH_SINGLE ->
  sig_mark insA outsA li script hashcode l c = sig_mark insA outsA li script SIGHASH_ALL l c.
Proof.
  intros Hne. destruct c; try reflexivity. simpl.
  destruct (Z.eqb_spec hashcode SIGHASH_SINGLE); [contradiction | reflexivity].
Qed.

Lemma sig_mark_all_step insA outsA li script l c :
  li ∈ insA ->
  sig_mark insA outsA li script SIGHASH_ALL l c =
  if decide (li = l) then cell_set_script script (cleared insA (length insA) l c)
  else cleared insA (length insA) l c.
Proof.
  intros Hli. unfold cleared, marked. rewrite take_ge by lia.
  destruct (decide (li = l)) as [<-|Hne].
  - rewrite bool_decide_eq_true_2 by assumption.
    destruct c; try reflexivity. simpl.
    rewrite !bool_decide_eq_true_2 by (assumption || reflexivity). reflexivity.
  - destruct c; simpl; try (case_bool_decide; reflexivity).
    case_bool_decide; [|reflexivity].
    rewrite bool_decide_eq_false_2 by congruence. reflexivity.
Qed.

Lemma sig_mark_single_step insA outsA li script l c :
  blanked (take (length insA) outsA) (length insA - 1) l
    (sig_mark insA outsA li script SIGHASH_ALL l c) =
  sig_mark insA outsA li script SIGHASH_SINGLE l c.
Proof.
  unfold blanked, marked. rewrite take_take.
  replace (Nat.min (length insA - 1) (length insA)) with (length insA - 1)%nat by lia.
  destruct c; simpl; repeat case_bool_decide; reflexivity.
Qed.

(** Up to the assignment of the substitute script: the copy is allocated
    and every input script is cleared. *)
Lemma signatureForm_clear (h : heap) (tx : loc) (t : TXREF) (insA outsA : list loc)
    (i : nat) (script : jsstring) (hashcode : Z) :
  wf_tx h tx t insA outsA ->
  exists h2,
    signatureForm tx i script hashcode h =
      (set_ins_script (length h) i script ;;
       sighash_branch (length h) i hashcode ;;
       mret (length h)) h2 /\
    pointwise (cleared insA (length insA)) (h ++ [CTx t]) h2 /\
    wf_tx h2 (length h) t insA outsA.
Proof.
  intros Hwf.
  pose proof (wf_tx_copy _ _ _ _ _ Hwf) as Hwf1.
  set (N := length h) in *. set (h1 := h ++ [CTx t]) in *.
  assert (E0 : Object_assign tx h = (Ok N, h1)).
  { unfold Object_assign, mbind, M_bind, reading, alloc.
    rewrite (readTx_ok _ _ _ (wf_cell _ _ _ _ _ Hwf)). reflexivity. }
  destruct (clear_loop h1 N t insA outsA Hwf1) as (h2 & E2 & P2).
  exists h2. split; [|split; [exact P2|]].
  - unfold signatureForm. fold (sighash_branch N i hashcode).
    rewrite (bind_ok _ _ _ _ _ E0).
    rewrite (bind_ok _ _ _ _ _
               (ins_length_ok h1 N t (wf_cell _ _ _ _ _ Hwf1) insA (wf_ins_arr _ _ _ _ _ Hwf1))).
    rewrite (bind_ok _ _ _ _ _ E2). reflexivity.
  - apply (pointwise_wf _ h1 h2 (cleared_kind _ _) P2 _ _ _ _ Hwf1).
Qed.

(** An index beyond the inputs: the assignment to [newTx.ins[i].script]
    throws. *)
Lemma signatureForm_index_throw (h : heap) (tx : loc) (t : TXREF) (insA outsA : list loc)
    (i : nat) (script : jsstring) (hashcode : Z) :
  wf_tx h tx t insA outsA -> insA !! i = None ->
  exists h', signatureForm tx i script hashcode h = (Throw TypeError, h').
Proof.
  intros Hwf Hi.
  destruct (signatureForm_clear h tx t insA outsA i script hashcode Hwf)
    as (h2 & E & _ & Hwf2).
  exists h2. rewrite E. apply bind_throw.
  apply (set_ins_script_throw h2 _ t (wf_cell _ _ _ _ _ Hwf2) insA i script
           (wf_ins_arr _ _ _ _ _ Hwf2) Hi).
Qed.

(** Up to the tests on [hashcode]: the substitute script is in place. *)
Lemma signatureForm_head (h : heap) (tx : loc) (t : TXREF) (insA outsA : list loc)
    (i : nat) (li : loc) (script : jsstring) (hashcode : Z) :
  wf_tx h tx t insA outsA -> insA !! i = Some li ->
  exists h3,
    signatureForm tx i script hashcode h =
      (sighash_branch (length h) i hashcode ;; mret (length h)) h3 /\
    pointwise (sig_mark insA outsA li script SIGHASH_ALL) (h ++ [CTx t]) h3 /\
    wf_tx h3 (length h) t insA outsA.
Proof.
  intros Hwf Hi.
  pose proof (wf_tx_copy _ _ _ _ _ Hwf) as Hwf1.
  destruct (signatureForm_clear h tx t insA outsA i script hashcode Hwf)
    as (h2 & E & P2 & Hwf2).
  destruct (Forall_lookup_1 _ _ _ _ (wf_ins _ _ _ _ _ Hwf2) Hi) as [x Hx].
  pose proof (set_ins_script_ok h2 _ t (wf_cell _ _ _ _ _ Hwf2) insA i li x script
                (wf_ins_arr _ _ _ _ _ Hwf2) Hi Hx) as E3.
  assert (P3 : pointwise (sig_mark insA outsA li script SIGHASH_ALL) (h ++ [CTx t])
                 (alter (cell_set_script script) li h2)).
  { apply (pointwise_alter _ _ h2 P2). intros l c _.
    apply sig_mark_all_step. eapply list_elem_of_lookup_2, Hi. }
  exists (alter (cell_set_script script) li h2).
  split; [|split; [exact P3|]].
  - rewrite E. rewrite (bind_ok _ _ _ _ _ E3). reflexivity.
  - apply (pointwise_wf _ _ _ (sig_mark_kind _ _ _ _ _) P3 _ _ _ _ Hwf1).
Qed.

Section Extend.

(** The store after a new array has been allocated and the object at [N]
    been made to refer to it. *)
Variables (g : heap) (N : loc) (c0 c1 : cell).
Hypothesis HN : (N < length g)%nat.

Lemma extend_lookup_old (l : loc) (c : cell) :
  l <> N -> g !! l = Some c -> (<[N := c1]> (g ++ [c0])) !! l = Some c.
Proof.
  intros Hne Hl. rewrite list_lookup_insert_ne by congruence.
  apply lookup_app_l_Some, Hl.
Qed.

Lemma extend_lookup_lt (l : loc) :
  l <> N -> (l < length g)%nat -> (<[N := c1]> (g ++ [c0])) !! l = g !! l.
Proof.
  intros Hne Hl. rewrite list_lookup_insert_ne by congruence.
  apply lookup_app_l, Hl.
Qed.

Lemma extend_lookup_obj : (<[N := c1]> (g ++ [c0])) !! N = Some c1.
Proof. apply list_lookup_insert_eq. rewrite length_app. simpl. lia. Qed.

Lemma extend_lookup_new : (<[N := c1]> (g ++ [c0])) !! length g = Some c0.
Proof.
  rewrite list_lookup_insert_ne by lia. apply list_lookup_middle. reflexivity.
Qed.

Lemma extend_length : length (<[N := c1]> (g ++ [c0])) = S (length g).
Proof. rewrite length_insert, length_app. simpl. lia. Qed.

End Extend.

Lemma set_outs_ok (h : heap) (tx : loc) (t : TXREF) (a : loc) :
  h !! tx = Some (CTx t) ->
  set_outs tx a h =
  (Ok tt, <[tx := CTx (mkTXREF (ref_locktime t) (ref_version t) (ref_ins t) a)]> h).
Proof.
  intros E. unfold set_outs, mbind, M_bind, reading, store.
  rewrite (readTx_ok _ _ _ E). reflexivity.
Qed.

Lemma set_ins_ok (h : heap) (tx : loc) (t : TXREF) (a : loc) :
  h !! tx = Some (CTx t) ->
  set_ins tx a h =
  (Ok tt, <[tx := CTx (mkTXREF (ref_locktime t) (ref_version t) a (ref_outs t))]> h).
Proof.
  intros E. unfold set_ins, mbind, M_bind, reading, store.
  rewrite (readTx_ok _ _ _ E). reflexivity.
Qed.

Lemma wf_tx_neq (h : heap) (tx : loc) (t : TXREF) (insA outsA : list loc) :
  wf_tx h tx t insA outsA ->
  ref_ins t <> tx /\ ref_outs t <> tx /\
  Forall (fun l => l <> tx) insA /\ Forall (fun l => l <> tx) outsA.
Proof.
  intros [H1 H2 H3 H4 H5]. repeat split.
  - intros E. rewrite E in H2. congruence.
  - intros E. rewrite E in H3. congruence.
  - eapply Forall_impl; [exact H4|]. intros l [x Hx] ->. congruence.
  - eapply Forall_impl; [exact H5|]. intros l [o Ho] ->. congruence.
Qed.

(** The object at [N] is redirected to a fresh array holding [outsA']. *)
Lemma wf_tx_redirect_outs (g : heap) (N : loc) (t : TXREF) (insA outsA outsA' : list loc) :
  wf_tx g N t insA outsA ->
  Forall (fun l => l ∈ outsA) outsA' ->
  wf_tx (<[N := CTx (mkTXREF (ref_locktime t) (ref_version t) (ref_ins t) (length g))]>
           (g ++ [CArr outsA']))
        N (mkTXREF (ref_locktime t) (ref_version t) (ref_ins t) (length g)) insA outsA'.
Proof.
  intros Hwf Hsub.
  destruct (wf_tx_lt _ _ _ _ _ Hwf) as (HN & _ & _).
  destruct (wf_tx_neq _ _ _ _ _ Hwf) as (N1 & N2 & N3 & N4).
  destruct Hwf as [H1 H2 H3 H4 H5].
  constructor; cbn [ref_ins ref_outs].
  - apply extend_lookup_obj, HN.
  - apply extend_lookup_old; assumption.
  - apply extend_lookup_new, HN.
  - apply Forall_forall. intros l Hl.
    destruct (proj1 (Forall_forall _ _) H4 l Hl) as [x Hx]. exists x.
    apply extend_lookup_old; [|exact Hx].
    apply (proj1 (Forall_forall _ _) N3 l Hl).
  - apply Forall_forall. intros l Hl.
    pose proof (proj1 (Forall_forall _ _) Hsub l Hl) as Hl'.
    destruct (proj1 (Forall_forall _ _) H5 l Hl') as [o Ho]. exists o.
    apply extend_lookup_old; [|exact Ho].
    apply (proj1 (Forall_forall _ _) N4 l Hl').
Qed.

Lemma take_subset (n : nat) (a : list loc) : Forall (fun l => l ∈ a) (take n a).
Proof.
  apply Forall_forall. intros l Hl. apply elem_of_take in Hl as (j & Hj & _).
  eapply list_elem_of_lookup_2, Hj.
Qed.

Lemma sighash_branch_ok (h3 : heap) (N : loc) (t : TXREF) (insA outsA : list loc)
    (i : nat) (li : loc) (hashcode : Z) :
  wf_tx h3 N t insA outsA -> insA !! i = Some li ->
  (hashcode = SIGHASH_SINGLE -> (length insA - 1 <= length outsA)%nat) ->
  exists h',
    sighash_branch N i hashcode h3 = (Ok tt, h') /\
    branch_post h3 N t insA outsA li hashcode h'.
Proof.
  intros Hwf Hi Hsingle.
  destruct (wf_tx_lt _ _ _ _ _ Hwf) as (HN & HI & HO).
  destruct (wf_tx_neq _ _ _ _ _ Hwf) as (N1 & N2 & N3 & N4).
  pose proof Hwf as [H1 H2 H3 H4 H5].
  unfold sighash_branch, branch_post, sig_ins, sig_outs.
  destruct (Z.eqb_spec hashcode SIGHASH_NONE) as [->|Hnone].
  { (* NONE *)
    eexists. split.
    - unfold alloc at 1. unfold mbind at 1, M_bind at 1.
      apply set_outs_ok. apply lookup_app_l_Some, H1.
    - change (SIGHASH_NONE =? SIGHASH_SINGLE) with false. cbv iota.
      split; [rewrite extend_length; lia|]. split.
      + intros l Hl Hne. rewrite extend_lookup_lt by assumption.
        destruct (h3 !! l); reflexivity.
      + eexists. split; [apply extend_lookup_obj, HN|].
        cbn [ref_locktime ref_version ref_ins ref_outs].
        split; [reflexivity|]. split; [reflexivity|]. split.
        * apply extend_lookup_old; assumption.
        * apply extend_lookup_new, HN. }
  destruct (Z.eqb_spec hashcode SIGHASH_SINGLE) as [->|Hns].
  { (* SINGLE *)
    specialize (Hsingle eq_refl).
    pose proof (wf_tx_redirect_outs h3 N t insA outsA (take (length insA) outsA) Hwf
                  (take_subset _ _)) as Hwf5.
    set (t' := mkTXREF (ref_locktime t) (ref_version t) (ref_ins t) (length h3)) in *.
    set (h5 := <[N := CTx t']> (h3 ++ [CArr (take (length insA) outsA)])) in *.
    destruct (blank_loop h5 N t' insA (take (length insA) outsA) Hwf5 (length insA - 1))
      as (h6 & E6 & P6).
    { rewrite length_take. lia. }
    exists h6. split.
    - unfold mbind at 1, M_bind at 1, reading at 1. rewrite (readTx_ok _ _ _ H1).
      unfold mbind at 1, M_bind at 1, reading at 1. rewrite (readArr_ok _ _ _ H3).
      rewrite (bind_ok _ _ _ _ _ (ins_length_ok h3 N t H1 insA H2)).
      unfold alloc at 1. unfold mbind at 1, M_bind at 1.
      rewrite (bind_ok _ _ _ _ _
                 (set_outs_ok _ N t (length h3) (lookup_app_l_Some _ _ _ _ H1))).
      exact E6.
    - destruct P6 as [L6 P6].
      split; [rewrite L6; unfold h5; rewrite extend_length; lia|]. split.
      + intros l Hl Hne. rewrite P6. unfold h5.
        rewrite extend_lookup_lt by assumption. reflexivity.
      + pose proof (pointwise_wf _ h5 h6 (blanked_kind _ _) (conj L6 P6) _ _ _ _ Hwf5)
          as [G1 G2 G3 _ _].
        exists t'. split; [exact G1|].
        split; [reflexivity|]. split; [reflexivity|]. split; [exact G2 | exact G3]. }
  change (hashcode =? SIGHASH_SINGLE) with (Z.eqb hashcode SIGHASH_SINGLE).
  destruct (Z.eqb_spec hashcode SIGHASH_ANYONECANPAY) as [->|Hna].
  { (* ANYONECANPAY *)
    eexists. split.
    - rewrite (bind_ok _ _ _ _ _ (ins_at_ok h3 N t H1 insA i li H2 Hi)).
      unfold alloc at 1. unfold mbind at 1, M_bind at 1.
      apply set_ins_ok. apply lookup_app_l_Some, H1.
    - split; [rewrite extend_length; lia|]. split.
      + intros l Hl Hne. rewrite extend_lookup_lt by assumption.
        destruct (h3 !! l); reflexivity.
      + eexists. split; [apply extend_lookup_obj, HN|].
        cbn [ref_locktime ref_version ref_ins ref_outs].
        split; [reflexivity|]. split; [reflexivity|]. split.
        * apply extend_lookup_new, HN.
        * apply extend_lookup_old; assumption. }
  (* any other code, SIGHASH_ALL among them *)
  exists h3. split; [reflexivity|].
  split; [lia|]. split.
  - intros l Hl Hne. destruct (h3 !! l); reflexivity.
  - exists t. repeat split; assumption.
Qed.

(** On a well-formed transaction, with an existing input index (and, in
    SINGLE mode, enough outputs for the blanking loop), [signatureForm]
    returns the new object and leaves the store described by [sig_post]. *)
Lemma signatureForm_ok (h : heap) (tx : loc) (t : TXREF) (insA outsA : list loc)
    (i : nat) (li : loc) (script : jsstring) (hashcode : Z) :
  wf_tx h tx t insA outsA -> insA !! i = Some li ->
  (hashcode = SIGHASH_SINGLE -> (length insA - 1 <= length outsA)%nat) ->
  exists h',
    signatureForm tx i script hashcode h = (Ok (length h), h') /\
    sig_post h t insA outsA li script hashcode h'.
Proof.
  intros Hwf Hi Hsingle.
  destruct (signatureForm_head h tx t insA outsA i li script hashcode Hwf Hi)
    as (h3 & E & [L3 P3] & Hwf3).
  destruct (sighash_branch_ok h3 (length h) t insA outsA i li hashcode Hwf3 Hi Hsingle)
    as (h' & Eb & Hlen & Hold & Hnew).
  exists h'. split.
  - rewrite E. rewrite (bind_ok _ _ _ _ _ Eb). reflexivity.
  - rewrite length_app in L3. simpl in L3.
    split; [lia|]. split; [|exact Hnew].
    intros l Hl. rewrite Hold, P3 by lia.
    rewrite lookup_app_l by exact Hl.
    destruct (h !! l) as [c|]; [|reflexivity]. simpl. f_equal.
    destruct (Z.eqb_spec hashcode SIGHASH_SINGLE) as [->|Hne].
    + apply sig_mark_single_step.
    + symmetry. apply sig_mark_not_single, Hne.
Qed.

(** In SINGLE mode with fewer than [ins.length - 1] outputs the blanking
    loop runs off the end of the truncated array. *)
Lemma signatureForm_single_throw (h : heap) (tx : loc) (t : TXREF) (insA outsA : list loc)
    (i : nat) (li : loc) (script : jsstring) :
  wf_tx h tx t insA outsA -> insA !! i = Some li ->
  (length outsA < length insA - 1)%nat ->
  exists h', signatureForm tx i script SIGHASH_SINGLE h = (Throw TypeError, h').
Proof.
  intros Hwf Hi Hlt.
  destruct (signatureForm_head h tx t insA outsA i li script SIGHASH_SINGLE Hwf Hi)
    as (h3 & E & _ & Hwf3).
  pose proof Hwf3 as [H1 H2 H3 _ _].
  pose proof (wf_tx_redirect_outs h3 (length h) t insA outsA (take (length insA) outsA) Hwf3
                (take_subset _ _)) as Hwf5.
  destruct (blank_loop_throw _ _ _ _ _ Hwf5 (length insA - 1)) as (h' & E').
  { rewrite length_take. lia. }
  exists h'. rewrite E. apply bind_throw.
  unfold sighash_branch.
  change (SIGHASH_SINGLE =? SIGHASH_NONE) with false.
  change (SIGHASH_SINGLE =? SIGHASH_SINGLE) with true. cbv iota.
  unfold mbind at 1, M_bind at 1, reading at 1. rewrite (readTx_ok _ _ _ H1).
  unfold mbind at 1, M_bind at 1, reading at 1. rewrite (readArr_ok _ _ _ H3).
  rewrite (bind_ok _ _ _ _ _ (ins_length_ok h3 _ t H1 insA H2)).
  unfold alloc at 1. unfold mbind at 1, M_bind at 1.
  rewrite (bind_ok _ _ _ _ _
             (set_outs_ok _ _ t (length h3) (lookup_app_l_Some _ _ _ _ H1))).
  exact E'.
Qed.

(** Conversely, a call that returns was in that situation. *)
Lemma signatureForm_returns (h h' : heap) (tx : loc) (t : TXREF) (insA outsA : list loc)
    (i : nat) (script : jsstring) (hashcode : Z) (newTx : loc) :
  wf_tx h tx t insA outsA ->
  signatureForm tx i script hashcode h = (Ok newTx, h') ->
  exists li,
    insA !! i = Some li /\ newTx = length h /\
    (hashcode = SIGHASH_SINGLE -> (length insA - 1 <= length outsA)%nat) /\
    sig_post h t insA outsA li script hashcode h'.
Proof.
  intros Hwf E.
  destruct (insA !! i) as [li|] eqn:Hi.
  2:{ destruct (signatureForm_index_throw h tx t insA outsA i script hashcode Hwf Hi)
        as (h0 & E0). congruence. }
  assert (Hsingle : hashcode = SIGHASH_SINGLE -> (length insA - 1 <= length outsA)%nat).
  { intros ->. destruct (decide (length insA - 1 <= length outsA)%nat) as [|Hn]; [assumption|].
    destruct (signatureForm_single_throw h tx t insA outsA i li script Hwf Hi ltac:(lia))
      as (h0 & E0). congruence. }
  destruct (signatureForm_ok h tx t insA outsA i li script hashcode Hwf Hi Hsingle)
    as (h0 & E0 & Hpost).
  exists li. split; [reflexivity|].
  assert (newTx = length h /\ h0 = h') as [-> ->] by (split; congruence).
  split; [reflexivity|]. split; [exact Hsingle | exact Hpost].
Qed.

(** ** Reading a transaction out of the store *)

Lemma rmap_ok {A B : Type} (f : A -> result B) (l : list A) (ys : list B) :
  Forall2 (fun x y => f x = Ok y) l ys -> rmap f l = Ok ys.
Proof.
  induction 1 as [|x y l ys Hxy _ IH]; [reflexivity|].
  cbn [rmap]. rewrite Hxy. cbn [rbind]. rewrite IH. reflexivity.
Qed.

Lemma readTXOBJ_ok (g : heap) (tx : loc) (t : TXREF) (ia oa : list loc)
    (xs : list TXIN) (os : list TXOUT) :
  g !! tx = Some (CTx t) ->
  g !! ref_ins t = Some (CArr ia) ->
  g !! ref_outs t = Some (CArr oa) ->
  Forall2 (fun l x => g !! l = Some (CIn x)) ia xs ->
  Forall2 (fun l o => g !! l = Some (COut o)) oa os ->
  readTXOBJ g tx = Ok (mkTXOBJ (ref_locktime t) (ref_version t) xs os).
Proof.
  intros H1 H2 H3 H4 H5. unfold readTXOBJ.
  rewrite (readTx_ok _ _ _ H1). cbn [rbind].
  rewrite (readArr_ok _ _ _ H2). cbn [rbind].
  rewrite (rmap_ok (readIn g) ia xs).
  2:{ eapply Forall2_impl; [exact H4|]. intros l x. apply readIn_ok. }
  cbn [rbind]. rewrite (readArr_ok _ _ _ H3). cbn [rbind].
  rewrite (rmap_ok (readOut g) oa os).
  2:{ eapply Forall2_impl; [exact H5|]. intros l o. apply readOut_ok. }
  reflexivity.
Qed.

Lemma rmap_inv {A B : Type} (f : A -> result B) (l : list A) (ys : list B) :
  rmap f l = Ok ys -> Forall2 (fun x y => f x = Ok y) l ys.
Proof.
  revert ys. induction l as [|x l IH]; intros ys E; cbn [rmap] in E.
  - injection E as <-. constructor.
  - destruct (f x) as [y|] eqn:Ex; [|discriminate]. cbn [rbind] in E.
    destruct (rmap f l) as [ys'|]; [|discriminate]. cbn [rbind] in E.
    injection E as <-. constructor; [exact Ex | apply IH; reflexivity].
Qed.

Lemma rmap_ext {A B : Type} (f f' : A -> result B) (l : list A) :
  (forall x, x ∈ l -> f x = f' x) -> rmap f l = rmap f' l.
Proof.
  induction l as [|x l IH]; intros H; [reflexivity|].
  cbn [rmap]. rewrite (H x) by apply list_elem_of_here.
  rewrite IH; [reflexivity|]. intros y Hy. apply H, list_elem_of_further, Hy.
Qed.

Lemma readTx_inv (g : heap) (l : loc) (t : TXREF) : readTx g l = Ok t -> g !! l = Some (CTx t).
Proof. unfold readTx. destruct (g !! l) as [[]|]; congruence. Qed.

Lemma readArr_inv (g : heap) (l : loc) (a : list loc) :
  readArr g l = Ok a -> g !! l = Some (CArr a).
Proof. unfold readArr. destruct (g !! l) as [[]|]; congruence. Qed.

Lemma readIn_inv (g : heap) (l : loc) (x : TXIN) : readIn g l = Ok x -> g !! l = Some (CIn x).
Proof. unfold readIn. destruct (g !! l) as [[]|]; congruence. Qed.

Lemma readOut_inv (g : heap) (l : loc) (o : TXOUT) :
  readOut g l = Ok o -> g !! l = Some (COut o).
Proof. unfold readOut. destruct (g !! l) as [[]|]; congruence. Qed.

Lemma readTXOBJ_inv (g : heap) (tx : loc) (v : TXOBJ) :
  readTXOBJ g tx = Ok v ->
  exists t ia oa,
    g !! tx = Some (CTx t) /\
    g !! ref_ins t = Some (CArr ia) /\
    g !! ref_outs t = Some (CArr oa) /\
    locktime v = ref_locktime t /\ version v = ref_version t /\
    Forall2 (fun l x => g !! l = Some (CIn x)) ia (ins v) /\
    Forall2 (fun l o => g !! l = Some (COut o)) oa (outs v).
Proof.
  unfold readTXOBJ. intros E.
  destruct (readTx g tx) as [t|] eqn:E1; [|discriminate]. cbn [rbind] in E.
  destruct (readArr g (ref_ins t)) as [ia|] eqn:E2; [|discriminate]. cbn [rbind] in E.
  destruct (rmap (readIn g) ia) as [xs|] eqn:E3; [|discriminate]. cbn [rbind] in E.
  destruct (readArr g (ref_outs t)) as [oa|] eqn:E4; [|discriminate]. cbn [rbind] in E.
  destruct (rmap (readOut g) oa) as [os|] eqn:E5; [|discriminate]. cbn [rbind] in E.
  injection E as <-. exists t, ia, oa. cbn [locktime version ins outs].
  split; [apply readTx_inv, E1|]. split; [apply readArr_inv, E2|].
  split; [apply readArr_inv, E4|]. split; [reflexivity|]. split; [reflexivity|]. split.
  - eapply Forall2_impl; [apply rmap_inv, E3|]. intros l x. apply readIn_inv.
  - eapply Forall2_impl; [apply rmap_inv, E5|]. intros l o. apply readOut_inv.
Qed.

Lemma Forall_exists_list {A B : Type} (P : A -> B -> Prop) (l : list A) :
  Forall (fun x => exists y, P x y) l -> exists ys, Forall2 P l ys.
Proof.
  induction 1 as [|x l [y Hy] _ [ys IH]].
  - exists []. constructor.
  - exists (y :: ys). constructor; assumption.
Qed.

(** A well-formed transaction can be read. *)
Lemma wf_tx_read (g : heap) (tx : loc) (t : TXREF) (ia oa : list loc) :
  wf_tx g tx t ia oa ->
  exists xs os,
    readTXOBJ g tx = Ok (mkTXOBJ (ref_locktime t) (ref_version t) xs os) /\
    Forall2 (fun l x => g !! l = Some (CIn x)) ia xs /\
    Forall2 (fun l o => g !! l = Some (COut o)) oa os.
Proof.
  intros [H1 H2 H3 H4 H5].
  destruct (Forall_exists_list _ _ H4) as [xs Hxs].
  destruct (Forall_exists_list _ _ H5) as [os Hos].
  exists xs, os. split; [|split; assumption].
  apply (readTXOBJ_ok g tx t ia oa); assumption.
Qed.

(** Two reads agree when the objects, the arrays and the elements do. *)
Lemma readTXOBJ_agree (g g' : heap) (tx tx' : loc) (t t' : TXREF) (ia oa : list loc) :
  g !! tx = Some (CTx t) -> g' !! tx' = Some (CTx t') ->
  ref_locktime t' = ref_locktime t -> ref_version t' = ref_version t ->
  g !! ref_ins t = Some (CArr ia) -> g' !! ref_ins t' = Some (CArr ia) ->
  g !! ref_outs t = Some (CArr oa) -> g' !! ref_outs t' = Some (CArr oa) ->
  (forall l, l ∈ ia -> g' !! l = g !! l) ->
  (forall l, l ∈ oa -> g' !! l = g !! l) ->
  readTXOBJ g' tx' = readTXOBJ g tx.
Proof.
  intros H1 H1' Hlt Hv H2 H2' H3 H3' Hi Ho. unfold readTXOBJ.
  rewrite (readTx_ok _ _ _ H1), (readTx_ok _ _ _ H1'). cbn [rbind].
  rewrite (readArr_ok _ _ _ H2), (readArr_ok _ _ _ H2'). cbn [rbind].
  rewrite (rmap_ext (readIn g') (readIn g) ia)
    by (intros l Hl; unfold readIn; rewrite (Hi l Hl); reflexivity).
  destruct (rmap (readIn g) ia) as [xs|]; [|reflexivity]. cbn [rbind].
  rewrite (readArr_ok _ _ _ H3), (readArr_ok _ _ _ H3'). cbn [rbind].
  rewrite (rmap_ext (readOut g') (readOut g) oa)
    by (intros l Hl; unfold readOut; rewrite (Ho l Hl); reflexivity).
  destruct (rmap (readOut g) oa) as [os|]; [|reflexivity]. cbn [rbind].
  rewrite Hlt, Hv. reflexivity.
Qed.

(** ** Consequences of [sig_post] *)

Section SigPost.

Variables (h h' : heap) (tx : loc) (t : TXREF) (insA outsA : list loc).
Variables (li : loc) (script : jsstring) (hashcode : Z).
Hypothesis Hwf : wf_tx h tx t insA outsA.
Hypothesis Hpost : sig_post h t insA outsA li script hashcode h'.

Lemma sig_post_lookup (l : loc) (c : cell) :
  h !! l = Some c -> h' !! l = Some (sig_mark insA outsA li script hashcode l c).
Proof.
  intros E. destruct Hpost as (_ & Hold & _).
  rewrite Hold by (eapply lookup_lt_Some, E). rewrite E. reflexivity.
Qed.

Lemma sig_post_wf : wf_tx h' tx t insA outsA.
Proof.
  destruct Hwf as [H1 H2 H3 H4 H5]. constructor.
  - apply (sig_post_lookup _ _ H1).
  - apply (sig_post_lookup _ _ H2).
  - apply (sig_post_lookup _ _ H3).
  - eapply Forall_impl; [exact H4|]. intros l [x Hx].
    rewrite (sig_post_lookup _ _ Hx). simpl. case_bool_decide; eauto.
  - eapply Forall_impl; [exact H5|]. intros l [o Ho].
    rewrite (sig_post_lookup _ _ Ho). simpl. destruct (_ && _); eauto.
Qed.

Lemma sig_ins_subset : li ∈ insA -> Forall (fun l => l ∈ insA) (sig_ins insA li hashcode).
Proof.
  intros Hli. unfold sig_ins.
  assert (Hall : Forall (fun l => l ∈ insA) insA) by (apply Forall_forall; auto).
  repeat (destruct (_ =? _); [exact Hall|]); try exact Hall.
  destruct (_ =? _); [|exact Hall]. repeat constructor. exact Hli.
Qed.

Lemma sig_outs_subset : Forall (fun l => l ∈ outsA) (sig_outs insA outsA hashcode).
Proof.
  unfold sig_outs.
  destruct (_ =? _); [constructor|].
  destruct (_ =? _); [apply take_subset|]. apply Forall_forall; auto.
Qed.

Lemma sig_post_new_wf :
  li ∈ insA ->
  exists t',
    ref_locktime t' = ref_locktime t /\ ref_version t' = ref_version t /\
    wf_tx h' (length h) t' (sig_ins insA li hashcode) (sig_outs insA outsA hashcode).
Proof.
  intros Hli. pose proof sig_post_wf as [_ _ _ G4 G5].
  destruct Hpost as (_ & _ & t' & N1 & N2 & N3 & N4 & N5).
  exists t'. split; [exact N2|]. split; [exact N3|].
  constructor; try assumption.
  - eapply Forall_impl; [apply (sig_ins_subset Hli)|].
    intros l Hl. apply (proj1 (Forall_forall _ _) G4 l Hl).
  - eapply Forall_impl; [apply sig_outs_subset|].
    intros l Hl. apply (proj1 (Forall_forall _ _) G5 l Hl).
Qed.

End SigPost.

(** The caller's transaction after a call that returns: every input
    script is gone, except that the signed input holds the substitute. *)
Lemma signatureForm_caller_inputs (h h' : heap) (tx : loc) (t : TXREF)
    (insA outsA : list loc) (i : nat) (script : jsstring) (hashcode : Z)
    (newTx : loc) (after : TXOBJ) :
  wf_tx h tx t insA outsA -> NoDup insA ->
  signatureForm tx i script hashcode h = (Ok newTx, h') ->
  readTXOBJ h' tx = Ok after ->
  forall j x, ins after !! j = Some x ->
    in_script x = if decide (j = i) then script else [].
Proof.
  intros Hwf Hnd E Hread j x Hx.
  destruct (signatureForm_returns _ _ _ _ _ _ _ _ _ _ Hwf E) as (li & Hi & _ & _ & Hpost).
  destruct (readTXOBJ_inv _ _ _ Hread) as (t0 & ia & oa & R1 & R2 & _ & _ & _ & Rin & _).
  pose proof (sig_post_wf h h' tx t insA outsA li script hashcode Hwf Hpost) as [H1 H2 _ _ _].
  assert (t0 = t) as -> by congruence.
  assert (ia = insA) as -> by congruence.
  destruct (Forall2_lookup_r _ _ _ _ _ Rin Hx) as (l & Hl & Hcell).
  destruct (Forall_lookup_1 _ _ _ _ (wf_ins _ _ _ _ _ Hwf) Hl) as [x0 Hx0].
  rewrite (sig_post_lookup h h' t insA outsA li script _ Hpost _ _ Hx0) in Hcell.
  cbn [sig_mark] in Hcell.
  rewrite bool_decide_eq_true_2 in Hcell by (eapply list_elem_of_lookup_2, Hl).
  injection Hcell as <-. cbn [in_script with_script].
  destruct (decide (j = i)) as [->|Hne].
  - rewrite bool_decide_eq_true_2; [reflexivity | congruence].
  - rewrite bool_decide_eq_false_2; [reflexivity|].
    intros ->. apply Hne. apply (NoDup_lookup _ _ _ _ Hnd Hl Hi).
Qed.

(** C3, as the code has it.  In SINGLE mode, on a transaction with at least
    as many outputs as inputs (and distinct output objects), the preimage
    keeps as many outputs as the transaction has inputs, whatever the input
    index; every output before the last retained one has the placeholder
    amount [Math.pow(2, 64) - 1] and an empty script, and the last retained
    one is the original output at that position. *)
Theorem signatureForm_single_outputs (h : heap) (tx : loc) (t : TXREF)
    (insA outsA : list loc) (original : TXOBJ) (i : nat) (script : jsstring) :
  wf_tx h tx t insA outsA -> NoDup outsA ->
  readTXOBJ h tx = Ok original ->
  (i < length (ins original))%nat ->
  (length (ins original) <= length (outs original))%nat ->
  exists newTx h' preimage,
    signatureForm tx i script SIGHASH_SINGLE h = (Ok newTx, h') /\
    readTXOBJ h' newTx = Ok preimage /\
    length (outs preimage) = length (ins original) /\
    (forall j, (j < length (ins original) - 1)%nat ->
       outs preimage !! j = Some (mkTXOUT [] pow_2_64_minus_1)) /\
    outs preimage !! (length (ins original) - 1)%nat =
      outs original !! (length (ins original) - 1)%nat.
Proof.
  intros Hwf Hnd Hread Hi Hlen.
  destruct (readTXOBJ_inv _ _ _ Hread) as (t0 & ia & oa & R1 & R2 & R3 & _ & _ & Rin & Rout).
  pose proof Hwf as [H1 H2 H3 H4 H5].
  assert (t0 = t) as -> by congruence.
  assert (ia = insA) as -> by congruence.
  assert (oa = outsA) as -> by congruence.
  rewrite <- (Forall2_length _ _ _ Rin) in *.
  rewrite <- (Forall2_length _ _ _ Rout) in Hlen.
  set (n := length insA) in *.
  destruct (lookup_lt_is_Some_2 insA i Hi) as [li Hli].
  destruct (signatureForm_ok h tx t insA outsA i li script SIGHASH_SINGLE Hwf Hli)
    as (h' & E & Hpost); [fold n; lia|].
  destruct (sig_post_new_wf h h' tx t insA outsA li script SIGHASH_SINGLE Hwf Hpost)
    as (t' & _ & _ & Hwf'); [eapply list_elem_of_lookup_2, Hli|].
  change (sig_outs insA outsA SIGHASH_SINGLE) with (take n outsA) in Hwf'.
  destruct (wf_tx_read _ _ _ _ _ Hwf') as (xs & os & Hread' & _ & Hos).
  exists (length h), h', (mkTXOBJ (ref_locktime t') (ref_version t') xs os).
  split; [exact E|]. split; [exact Hread'|]. cbn [outs].
  assert (Hstep : forall j l, (j < n)%nat -> outsA !! j = Some l ->
            exists o0, h !! l = Some (COut o0) /\
              os !! j = Some (if bool_decide (l ∈ take (n - 1) outsA) then blank_out else o0)).
  { intros j l Hj Hl.
    destruct (Forall_lookup_1 _ _ _ _ H5 Hl) as [o0 Ho0]. exists o0. split; [exact Ho0|].
    destruct (Forall2_lookup_l _ _ _ j l Hos) as (o & Ho & Hcell).
    { rewrite lookup_take_lt by exact Hj. exact Hl. }
    rewrite (sig_post_lookup h h' t insA outsA li script SIGHASH_SINGLE Hpost _ _ Ho0) in Hcell.
    cbn [sig_mark] in Hcell. fold n in Hcell.
    change (SIGHASH_SINGLE =? SIGHASH_SINGLE) with true in Hcell. cbn [andb] in Hcell.
    rewrite Ho. f_equal. destruct (bool_decide _); congruence. }
  split; [|split].
  - rewrite <- (Forall2_length _ _ _ Hos), length_take. lia.
  - intros j Hj.
    destruct (lookup_lt_is_Some_2 outsA j ltac:(lia)) as [l Hl].
    destruct (Hstep j l ltac:(lia) Hl) as (o0 & _ & ->).
    rewrite bool_decide_eq_true_2; [reflexivity|].
    apply elem_of_take. exists j. split; [exact Hl | lia].
  - destruct (lookup_lt_is_Some_2 outsA (n - 1) ltac:(lia)) as [l Hl].
    destruct (Hstep (n - 1)%nat l ltac:(lia) Hl) as (o0 & Ho0 & ->).
    destruct (Forall2_lookup_l _ _ _ _ _ Rout Hl) as (o' & -> & Ho').
    rewrite bool_decide_eq_false_2; [congruence|].
    intros (j & Hj & Hlt)%elem_of_take.
    pose proof (NoDup_lookup _ _ _ _ Hnd Hj Hl). lia.
Qed.

(** ** Signing *)

Lemma lift_bind_ok {A B : Type} (r : result A) (k : A -> M B) (h : heap) (a : A) :
  r = Ok a -> (lift r ≫= k) h = k a h.
Proof. intros ->. reflexivity. Qed.

Lemma lift_bind_inv {A B : Type} (r : result A) (k : A -> M B) (h h' : heap) (b : B) :
  (lift r ≫= k) h = (Ok b, h') -> exists a, r = Ok a /\ k a h = (Ok b, h').
Proof.
  unfold mbind, M_bind, lift. destruct r as [a|e]; [eauto | discriminate].
Qed.

Lemma reading_bind_inv {A B : Type} (f : heap -> result A) (k : A -> M B)
    (h h' : heap) (b : B) :
  (reading f ≫= k) h = (Ok b, h') -> exists a, f h = Ok a /\ k a h = (Ok b, h').
Proof.
  unfold mbind, M_bind, reading. destruct (f h) as [a|e]; [eauto | discriminate].
Qed.

Lemma assigned_kind (li : loc) (s : jsstring) : kind_preserving (assigned li s).
Proof.
  intros l c. unfold assigned.
  destruct (decide (li = l)); [apply cell_set_script_kind | apply same_kind_refl].
Qed.

Lemma pointwise_assigned (g : heap) (li : loc) (s : jsstring) :
  pointwise (assigned li s) g (alter (cell_set_script s) li g).
Proof.
  apply (pointwise_alter (fun _ c => c) g g (pointwise_id g)).
  intros l c _. reflexivity.
Qed.

(** What the final assignment of [signTx] does on a well-formed store. *)
Lemma final_assignment (g : heap) (tx : loc) (t : TXREF) (insA outsA : list loc)
    (i : nat) (li : loc) (s : jsstring) :
  wf_tx g tx t insA outsA -> insA !! i = Some li ->
  set_ins_script tx i s g = (Ok tt, alter (cell_set_script s) li g) /\
  wf_tx (alter (cell_set_script s) li g) tx t insA outsA.
Proof.
  intros Hwf Hi. pose proof Hwf as [H1 H2 _ H4 _].
  destruct (Forall_lookup_1 _ _ _ _ H4 Hi) as [x Hx]. split.
  - apply (set_ins_script_ok g tx t H1 insA i li x s H2 Hi Hx).
  - apply (pointwise_wf _ g _ (assigned_kind li s) (pointwise_assigned g li s) _ _ _ _ Hwf).
Qed.

(** Marking, assigning and marking again is marking once. *)
Lemma sig_mark_absorb insA outsA li script hashcode s l c :
  li ∈ insA ->
  sig_mark insA outsA li script hashcode l
    (assigned li s l (sig_mark insA outsA li script hashcode l c)) =
  sig_mark insA outsA li script hashcode l c.
Proof.
  intros Hli. unfold assigned.
  destruct c as [t0|a|x|o]; cbn [sig_mark].
  - destruct (decide (li = l)); reflexivity.
  - destruct (decide (li = l)); reflexivity.
  - destruct (decide (li = l)) as [<-|Hne].
    + rewrite !bool_decide_eq_true_2 by (assumption || reflexivity).
      cbn [cell_set_script sig_mark].
      rewrite !bool_decide_eq_true_2 by (assumption || reflexivity). reflexivity.
    + case_bool_decide; cbn [sig_mark]; [|case_bool_decide; [contradiction|reflexivity]].
      rewrite bool_decide_eq_true_2 by assumption. reflexivity.
  - destruct (_ && _) eqn:Eb.
    + destruct (decide (li = l)); cbn [cell_set_script sig_mark]; rewrite Eb; reflexivity.
    + destruct (decide (li = l)); cbn [cell_set_script sig_mark]; rewrite Eb; reflexivity.
Qed.

(** Signing again: the second preimage is the first one, and the second
    assignment restores the store as the first one left it. *)
Lemma signatureForm_again (h ha h1 : heap) (tx : loc) (t : TXREF) (insA outsA : list loc)
    (i : nat) (script u : jsstring) (hashcode : Z) (newTx : loc) :
  wf_tx h tx t insA outsA ->
  signatureForm tx i script hashcode h = (Ok newTx, ha) ->
  set_ins_script tx i u ha = (Ok tt, h1) ->
  wf_tx h1 tx t insA outsA /\
  exists hb h2,
    signatureForm tx i script hashcode h1 = (Ok (length h1), hb) /\
    readTXOBJ hb (length h1) = readTXOBJ ha newTx /\
    set_ins_script tx i u hb = (Ok tt, h2) /\
    readTXOBJ h2 tx = readTXOBJ h1 tx.
Proof.
  intros Hwf Esf Eset.
  destruct (signatureForm_returns _ _ _ _ _ _ _ _ _ _ Hwf Esf)
    as (li & Hi & -> & Hsingle & Hpost).
  assert (Hli : li ∈ insA) by (eapply list_elem_of_lookup_2, Hi).
  pose proof (sig_post_wf h ha tx t insA outsA li script hashcode Hwf Hpost) as Hwfa.
  destruct (final_assignment ha tx t insA outsA i li u Hwfa Hi) as [Ea1 Hwf1].
  assert (h1 = alter (cell_set_script u) li ha) as -> by congruence.
  set (h1 := alter (cell_set_script u) li ha) in *.
  split; [exact Hwf1|].
  destruct (signatureForm_ok h1 tx t insA outsA i li script hashcode Hwf1 Hi Hsingle)
    as (hb & Eb & Hpostb).
  pose proof (sig_post_wf h1 hb tx t insA outsA li script hashcode Hwf1 Hpostb) as Hwfb.
  destruct (final_assignment hb tx t insA outsA i li u Hwfb Hi) as [Eb1 Hwf2].
  exists hb, (alter (cell_set_script u) li hb).
  split; [exact Eb|].
  assert (Hlen1 : length h1 = length ha) by apply length_alter.
  assert (Hlena : (length h < length ha)%nat) by apply Hpost.
  assert (Hsame : forall l, (l < length h)%nat -> hb !! l = ha !! l).
  { intros l Hl.
    destruct Hpost as (_ & Hold & _). destruct Hpostb as (_ & Holdb & _).
    rewrite Holdb by lia. unfold h1.
    rewrite (proj2 (pointwise_assigned ha li u) l), (Hold l Hl).
    destruct (h !! l) as [c|]; [|reflexivity]. cbn [fmap option_fmap option_map].
    f_equal. apply sig_mark_absorb, Hli. }
  assert (Hins : forall l, l ∈ insA -> (l < length h)%nat).
  { intros l Hl. destruct (proj1 (Forall_forall _ _) (wf_ins _ _ _ _ _ Hwf) l Hl) as [x Hx].
    eapply lookup_lt_Some, Hx. }
  assert (Houts : forall l, l ∈ outsA -> (l < length h)%nat).
  { intros l Hl. destruct (proj1 (Forall_forall _ _) (wf_outs _ _ _ _ _ Hwf) l Hl) as [x Hx].
    eapply lookup_lt_Some, Hx. }
  split; [|split; [exact Eb1|]].
  - destruct Hpost as (_ & _ & ta & A1 & A2 & A3 & A4 & A5).
    destruct Hpostb as (_ & _ & tb & B1 & B2 & B3 & B4 & B5).
    apply (readTXOBJ_agree ha hb (length h) (length h1) ta tb
             (sig_ins insA li hashcode) (sig_outs insA outsA hashcode));
      try assumption; try congruence.
    + intros l Hl. apply Hsame, Hins.
      apply (proj1 (Forall_forall _ _) (sig_ins_subset insA li hashcode Hli) l Hl).
    + intros l Hl. apply Hsame, Houts.
      apply (proj1 (Forall_forall _ _) (sig_outs_subset insA outsA hashcode) l Hl).
  - assert (Hsame2 : forall l, (l < length h)%nat ->
              alter (cell_set_script u) li hb !! l = h1 !! l).
    { intros l Hl. unfold h1.
      rewrite (proj2 (pointwise_assigned hb li u) l), (proj2 (pointwise_assigned ha li u) l).
      rewrite (Hsame l Hl). reflexivity. }
    apply (readTXOBJ_agree h1 _ tx tx t t insA outsA);
      try apply Hwf1; try apply Hwf2; try reflexivity.
    + intros l Hl. apply Hsame2, Hins, Hl.
    + intros l Hl. apply Hsame2, Houts, Hl.
Qed.

Section SignerProperties.

Variable bs58check_decode : jsstring -> result (list Z).
Variable privKeyToPubKey : jsstring -> result jsstring.
Variable pubKeyToAddr : jsstring -> result jsstring.
Variable sha256x2 : list Z -> jsstring.
Variable secp256k1_sign : list Z -> list Z -> result (list Z).

Local Abbreviation signTx' :=
  (signTx bs58check_decode privKeyToPubKey pubKeyToAddr sha256x2 secp256k1_sign).
Local Abbreviation signing_script' :=
  (signing_script bs58check_decode privKeyToPubKey pubKeyToAddr).
Local Abbreviation unlocking_script' := (unlocking_script sha256x2 secp256k1_sign).

(** [signTx] as a pipeline: pure preparation, preimage, pure signing, one
    assignment. *)
Lemma signTx_steps (tx : loc) (i : nat) (privKey : jsstring) (hashcode : option Z) (h : heap) :
  signTx' tx i privKey hashcode h =
  (_buf16 ← lift (Buffer.writeUInt16LE (Buffer.alloc 4) (sighash_code hashcode) 0);
   ps ← lift (signing_script' privKey);
   signingTx ← signatureForm tx i (snd ps) (sighash_code hashcode);
   signingTxObj ← reading (fun h => readTXOBJ h signingTx);
   u ← lift (unlocking_script' privKey (sighash_code hashcode) _buf16 (fst ps) signingTxObj);
   set_ins_script tx i u ;;
   mret tx) h.
Proof.
  unfold signTx, signing_script, unlocking_script.
  unfold mbind, M_bind, lift, reading, mret, M_ret. cbv beta.
  destruct (Buffer.writeUInt16LE _ _ _) as [_buf16|e]; [|reflexivity].
  destruct (privKeyToPubKey privKey) as [pubKey|e]; [|reflexivity]. cbn [rbind].
  destruct (pubKeyToAddr pubKey) as [address|e]; [|reflexivity]. cbn [rbind].
  destruct (mkPubkeyHashReplayScript bs58check_decode address) as [script|e]; [|reflexivity].
  cbn [rbind fst snd].
  destruct (signatureForm tx i script (sighash_code hashcode) h) as [[newTx|e] ha];
    [|reflexivity].
  destruct (readTXOBJ ha newTx) as [v|e]; [|reflexivity].
  destruct (serializeTx v) as [hex|e]; [|reflexivity]. cbn [rbind].
  destruct (secp256k1_sign _ _) as [sg|e]; reflexivity.
Qed.

(** A call of [signTx] that returns went through these steps. *)
Lemma signTx_inv (tx : loc) (i : nat) (privKey : jsstring) (hashcode : option Z)
    (h h1 : heap) (r : loc) :
  signTx' tx i privKey hashcode h = (Ok r, h1) ->
  exists _buf16 pubKey script newTx ha v u,
    Buffer.writeUInt16LE (Buffer.alloc 4) (sighash_code hashcode) 0 = Ok _buf16 /\
    signing_script' privKey = Ok (pubKey, script) /\
    signatureForm tx i script (sighash_code hashcode) h = (Ok newTx, ha) /\
    readTXOBJ ha newTx = Ok v /\
    unlocking_script' privKey (sighash_code hashcode) _buf16 pubKey v = Ok u /\
    set_ins_script tx i u ha = (Ok tt, h1) /\
    r = tx.
Proof.
  rewrite signTx_steps. intros E.
  apply lift_bind_inv in E as (_buf16 & E1 & E).
  apply lift_bind_inv in E as ([pubKey script] & E2 & E).
  apply bind_inv in E as (newTx & ha & E3 & E).
  apply reading_bind_inv in E as (v & E4 & E).
  apply lift_bind_inv in E as (u & E5 & E).
  apply bind_inv in E as ([] & h1' & E6 & E).
  unfold mret, M_ret in E. injection E as <- <-.
  exists _buf16, pubKey, script, newTx, ha, v, u. repeat split; assumption.
Qed.

Lemma signTx_intro (tx : loc) (i : nat) (privKey : jsstring) (hashcode : option Z)
    (h ha h1 : heap) (_buf16 : list Z) (pubKey script u : jsstring) (newTx : loc) (v : TXOBJ) :
  Buffer.writeUInt16LE (Buffer.alloc 4) (sighash_code hashcode) 0 = Ok _buf16 ->
  signing_script' privKey = Ok (pubKey, script) ->
  signatureForm tx i script (sighash_code hashcode) h = (Ok newTx, ha) ->
  readTXOBJ ha newTx = Ok v ->
  unlocking_script' privKey (sighash_code hashcode) _buf16 pubKey v = Ok u ->
  set_ins_script tx i u ha = (Ok tt, h1) ->
  signTx' tx i privKey hashcode h = (Ok tx, h1).
Proof.
  intros E1 E2 E3 E4 E5 E6. rewrite signTx_steps.
  rewrite (lift_bind_ok _ _ _ _ E1), (lift_bind_ok _ _ _ _ E2).
  cbn [fst snd]. rewrite (bind_ok _ _ _ _ _ E3).
  unfold mbind at 1, M_bind at 1, reading at 1. rewrite E4.
  rewrite (lift_bind_ok _ _ _ _ E5), (bind_ok _ _ _ _ _ E6). reflexivity.
Qed.

(** C9. Signing the same input of the same transaction twice, with the
    same key and mode and collaborators that are functions of their
    arguments: if the first call returns, so does the second, and it
    leaves the same unlocking script in the signed input (indeed the same
    transaction), although the first call has rewritten the store. *)
Theorem signTx_deterministic (h h1 : heap) (tx : loc) (t : TXREF) (insA outsA : list loc)
    (i : nat) (privKey : jsstring) (hashcode : option Z) (r : loc) :
  wf_tx h tx t insA outsA ->
  signTx' tx i privKey hashcode h = (Ok r, h1) ->
  exists h2 signed1 signed2 x1 x2,
    signTx' tx i privKey hashcode h1 = (Ok r, h2) /\
    readTXOBJ h1 tx = Ok signed1 /\
    readTXOBJ h2 tx = Ok signed2 /\
    ins signed1 !! i = Some x1 /\
    ins signed2 !! i = Some x2 /\
    in_script x2 = in_script x1 /\
    signed2 = signed1.
Proof.
  intros Hwf E.
  destruct (signTx_inv _ _ _ _ _ _ _ E)
    as (_buf16 & pubKey & script & newTx & ha & v & u & E1 & E2 & E3 & E4 & E5 & E6 & ->).
  destruct (signatureForm_again h ha h1 tx t insA outsA i script u (sighash_code hashcode)
              newTx Hwf E3 E6) as (Hwf1 & hb & h2 & F3 & F4 & F6 & Hread).
  destruct (wf_tx_read _ _ _ _ _ Hwf1) as (xs & os & R1 & Rin & _).
  destruct (signatureForm_returns _ _ _ _ _ _ _ _ _ _ Hwf E3) as (li & Hi & _).
  destruct (Forall2_lookup_l _ _ _ _ _ Rin Hi) as (x & Hx & _).
  exists h2, (mkTXOBJ (ref_locktime t) (ref_version t) xs os),
         (mkTXOBJ (ref_locktime t) (ref_version t) xs os), x, x.
  split.
  { apply (signTx_intro tx i privKey hashcode h1 hb h2 _buf16 pubKey script u (length h1) v);
      try assumption. rewrite F4. exact E4. }
  split; [exact R1|]. split; [rewrite Hread; exact R1|].
  repeat split; assumption.
Qed.

(** C4, what the code does instead.  A call of [signTx] that returns
    leaves every input other than the signed one (inputs being distinct
    objects) with an empty unlocking script, whatever it held before: the
    preimage builder cleared it in the caller's transaction. *)
Theorem signTx_erases_other_scripts (h h1 : heap) (tx : loc) (t : TXREF)
    (insA outsA : list loc) (i : nat) (privKey : jsstring) (hashcode : option Z)
    (r : loc) (signed : TXOBJ) :
  wf_tx h tx t insA outsA -> NoDup insA ->
  signTx' tx i privKey hashcode h = (Ok r, h1) ->
  readTXOBJ h1 tx = Ok signed ->
  forall j x, j <> i -> ins signed !! j = Some x -> in_script x = [].
Proof.
  intros Hwf Hnd E Hread j x Hji Hx.
  destruct (signTx_inv _ _ _ _ _ _ _ E)
    as (_buf16 & pubKey & script & newTx & ha & v & u & _ & _ & E3 & _ & _ & E6 & ->).
  destruct (signatureForm_returns _ _ _ _ _ _ _ _ _ _ Hwf E3) as (li & Hi & -> & _ & Hpost).
  pose proof (sig_post_wf h ha tx t insA outsA li script _ Hwf Hpost) as Hwfa.
  destruct (final_assignment ha tx t insA outsA i li u Hwfa Hi) as [Ea1 Hwf1].
  assert (h1 = alter (cell_set_script u) li ha) as -> by congruence.
  destruct (readTXOBJ_inv _ _ _ Hread) as (t0 & ia & oa & R1 & R2 & _ & _ & _ & Rin & _).
  pose proof Hwf1 as [H1 H2 _ _ _].
  assert (t0 = t) as -> by congruence.
  assert (ia = insA) as -> by congruence.
  destruct (Forall2_lookup_r _ _ _ _ _ Rin Hx) as (l & Hl & Hcell).
  assert (Hne : li <> l).
  { intros <-. apply Hji. apply (NoDup_lookup _ _ _ _ Hnd Hl Hi). }
  rewrite list_lookup_alter_ne in Hcell by exact Hne.
  destruct (Forall_lookup_1 _ _ _ _ (wf_ins _ _ _ _ _ Hwf) Hl) as [x0 Hx0].
  rewrite (sig_post_lookup h ha t insA outsA li script _ Hpost _ _ Hx0) in Hcell.
  cbn [sig_mark] in Hcell.
  rewrite bool_decide_eq_true_2 in Hcell by (eapply list_elem_of_lookup_2, Hl).
  rewrite bool_decide_eq_false_2 in Hcell by congruence.
  injection Hcell as <-. reflexivity.
Qed.

End SignerProperties.

(** ** The examples *)

Ltac wf_example :=
  constructor;
  [ reflexivity | reflexivity | reflexivity
  | repeat (apply Forall_cons; split; [eexists; reflexivity|]); apply Forall_nil; exact I
  | repeat (apply Forall_cons; split; [eexists; reflexivity|]); apply Forall_nil; exact I ].

(** C1 at a transaction with a two-byte output script: the code writes the
    number of hexadecimal digits of the script (04) where the wire format
    has its length in bytes (02).  And a lock time or an amount that needs
    more than 16, respectively 32, bits makes the serialiser throw. *)
Theorem serializeTx_script_length_mismatch :
  serializeTx tx_one =
    Ok (str "01000000" ++ str "01" ++
        Buffer.toString_hex (replicate 32 170) ++ str "00000000" ++
        str "00" ++ str "ffffffff" ++
        str "01" ++ str "f0b9f50500000000" ++ str "04" ++ str "76a9" ++
        str "00000000") /\
  spec_serialize tx_one =
    str "01000000" ++ str "01" ++
    Buffer.toString_hex (replicate 32 170) ++ str "00000000" ++
    str "00" ++ str "ffffffff" ++
    str "01" ++ str "f0b9f50500000000" ++ str "02" ++ str "76a9" ++
    str "00000000" /\
  serializeTx tx_one <> Ok (spec_serialize tx_one) /\
  serializeTx tx_locked = Throw RangeError /\
  serializeTx tx_large = Throw RangeError.
Proof.
  split; [vm_compute; reflexivity|].
  split; [vm_compute; reflexivity|].
  split; [vm_compute; discriminate|].
  split; vm_compute; reflexivity.
Qed.

(** C2 at a transaction whose two inputs carry scripts: after building the
    preimage for input 0 the caller's own transaction has lost both
    scripts (input 0 now holds the substitute), and in SINGLE mode its
    first output has been blanked as well. *)
Theorem signatureForm_rewrites_caller_transaction :
  (exists original,
     readTXOBJ heap_two 0 = Ok original /\
     input_scripts original = [str "51ab"; str "52cd"] /\
     output_fields original = [(5000, str "76a9"); (7000, str "a914")]) /\
  (exists h' after,
     signatureForm 0 0 (str "76a9") SIGHASH_ALL heap_two = (Ok 7%nat, h') /\
     readTXOBJ h' 0 = Ok after /\
     input_scripts after = [str "76a9"; []]) /\
  (exists h' after,
     signatureForm 0 0 (str "76a9") SIGHASH_SINGLE heap_two = (Ok 7%nat, h') /\
     readTXOBJ h' 0 = Ok after /\
     input_scripts after = [str "76a9"; []] /\
     output_fields after = [(pow_2_64_minus_1, []); (7000, str "a914")]).
Proof.
  split; [|split].
  - eexists. split; [vm_compute; reflexivity|]. split; reflexivity.
  - eexists _, _. split; [vm_compute; reflexivity|].
    split; [vm_compute; reflexivity|]. reflexivity.
  - eexists _, _. split; [vm_compute; reflexivity|].
    split; [vm_compute; reflexivity|]. split; reflexivity.
Qed.

(** C3 as stated fails: two inputs, two outputs, input 0; the preimage
    keeps two outputs, not [0 + 1]. *)
Lemma signatureForm_single_counterexample :
  exists h' preimage,
    signatureForm 0 0 (str "76a9") SIGHASH_SINGLE heap_two = (Ok 7%nat, h') /\
    readTXOBJ h' 7 = Ok preimage /\
    length (outs preimage) = 2%nat /\
    length (outs preimage) <> (0 + 1)%nat.
Proof.
  eexists _, _. split; [vm_compute; reflexivity|].
  split; [vm_compute; reflexivity|]. split; [reflexivity|]. cbn. lia.
Qed.

Lemma signatureForm_single_outputs_witness :
  exists newTx h' preimage,
    signatureForm 0 1 (str "76a9") SIGHASH_SINGLE heap_two = (Ok newTx, h') /\
    readTXOBJ h' newTx = Ok preimage /\
    length (outs preimage) = 2%nat /\
    (forall j, (j < 2 - 1)%nat ->
       outs preimage !! j = Some (mkTXOUT [] pow_2_64_minus_1)) /\
    outs preimage !! (2 - 1)%nat = Some (mkTXOUT (str "a914") 7000).
Proof.
  apply (signatureForm_single_outputs heap_two 0 (mkTXREF 0 1 1 2) [3; 4]%nat [5; 6]%nat
           (mkTXOBJ 0 1
              [mkTXIN (Buffer.toString_hex (replicate 32 170)) 0 (str "51ab") (str "ffffffff");
               mkTXIN (Buffer.toString_hex (replicate 32 187)) 1 (str "52cd") (str "ffffffff")]
              [mkTXOUT (str "76a9") 5000; mkTXOUT (str "a914") 7000])
           1 (str "76a9")).
  - wf_example.
  - apply (bool_decide_unpack (NoDup [5; 6]%nat)). exact I.
  - reflexivity.
  - cbn. lia.
  - cbn. lia.
Defined.

(** C8, as the code has it.  In SINGLE mode, on a well-formed transaction
    and an existing input index, [signatureForm] throws (a TypeError, from
    assigning to an output that is not there) when the transaction has
    fewer than [ins.length - 1] outputs, and returns normally otherwise,
    whatever the input index. *)
Theorem signatureForm_single_failure (h : heap) (tx : loc) (t : TXREF)
    (insA outsA : list loc) (i : nat) (script : jsstring) :
  wf_tx h tx t insA outsA -> (i < length insA)%nat ->
  ((length outsA < length insA - 1)%nat ->
     exists h', signatureForm tx i script SIGHASH_SINGLE h = (Throw TypeError, h')) /\
  ((length insA - 1 <= length outsA)%nat ->
     exists newTx h', signatureForm tx i script SIGHASH_SINGLE h = (Ok newTx, h')).
Proof.
  intros Hwf Hi. destruct (lookup_lt_is_Some_2 insA i Hi) as [li Hli]. split.
  - intros Hlt. apply (signatureForm_single_throw h tx t insA outsA i li script Hwf Hli Hlt).
  - intros Hle.
    destruct (signatureForm_ok h tx t insA outsA i li script SIGHASH_SINGLE Hwf Hli)
      as (h' & E & _); [intros _; exact Hle|].
    exists (length h), h'. exact E.
Qed.

Lemma signatureForm_single_failure_witness :
  (exists h', signatureForm 0 0 (str "76a9") SIGHASH_SINGLE heap_shorter =
              (Throw TypeError, h')) /\
  (exists newTx h', signatureForm 0 1 (str "76a9") SIGHASH_SINGLE heap_short =
                    (Ok newTx, h')).
Proof.
  split.
  - apply (signatureForm_single_failure heap_shorter 0 (mkTXREF 0 1 1 2)
             [3; 4; 5]%nat [6]%nat 0 (str "76a9")); [wf_example | cbn; lia | cbn; lia].
  - apply (signatureForm_single_failure heap_short 0 (mkTXREF 0 1 1 2)
             [3; 4]%nat [5]%nat 1 (str "76a9")); [wf_example | cbn; lia | cbn; lia].
Defined.

(** C8 as stated fails: two inputs, one output, input 1 in SINGLE mode;
    there are fewer outputs than [1 + 1], and a preimage is returned. *)
Lemma signatureForm_single_no_error_counterexample :
  exists original h' preimage,
    readTXOBJ heap_short 0 = Ok original /\
    (length (outs original) < 1 + 1)%nat /\
    signatureForm 0 1 (str "76a9") SIGHASH_SINGLE heap_short = (Ok 6%nat, h') /\
    readTXOBJ h' 6 = Ok preimage /\
    output_fields preimage = [(pow_2_64_minus_1, [])].
Proof.
  eexists _, _, _. split; [vm_compute; reflexivity|].
  split; [cbn; lia|]. split; [vm_compute; reflexivity|].
  split; [vm_compute; reflexivity|]. reflexivity.
Qed.

Lemma signTx_deterministic_witness :
  exists h1 h2 signed x,
    signTx toy_decode toy_privKeyToPubKey toy_pubKeyToAddr toy_sha256x2 toy_sign
      0 0 toy_key (Some SIGHASH_SINGLE) heap_two = (Ok 0%nat, h1) /\
    signTx toy_decode toy_privKeyToPubKey toy_pubKeyToAddr toy_sha256x2 toy_sign
      0 0 toy_key (Some SIGHASH_SINGLE) h1 = (Ok 0%nat, h2) /\
    readTXOBJ h1 0 = Ok signed /\ readTXOBJ h2 0 = Ok signed /\
    ins signed !! 0%nat = Some x.
Proof.
  assert (E : exists h1,
            signTx toy_decode toy_privKeyToPubKey toy_pubKeyToAddr toy_sha256x2 toy_sign
              0 0 toy_key (Some SIGHASH_SINGLE) heap_two = (Ok 0%nat, h1)).
  { eexists. vm_compute. reflexivity. }
  destruct E as [h1 E].
  destruct (signTx_deterministic toy_decode toy_privKeyToPubKey toy_pubKeyToAddr
              toy_sha256x2 toy_sign heap_two h1 0 (mkTXREF 0 1 1 2) [3; 4]%nat [5; 6]%nat
              0 toy_key (Some SIGHASH_SINGLE) 0 ltac:(wf_example) E)
    as (h2 & s1 & s2 & x1 & x2 & E2 & R1 & R2 & X1 & X2 & _ & ->).
  exists h1, h2, s1, x1. repeat split; assumption.
Defined.

Lemma signTx_erases_other_scripts_witness :
  exists original h1 signed x,
    readTXOBJ heap_two 0 = Ok original /\
    input_scripts original = [str "51ab"; str "52cd"] /\
    signTx toy_decode toy_privKeyToPubKey toy_pubKeyToAddr toy_sha256x2 toy_sign
      0 0 toy_key (Some SIGHASH_ALL) heap_two = (Ok 0%nat, h1) /\
    readTXOBJ h1 0 = Ok signed /\
    ins signed !! 1%nat = Some x /\
    in_script x = [].
Proof.
  assert (E : exists h1 signed x,
            signTx toy_decode toy_privKeyToPubKey toy_pubKeyToAddr toy_sha256x2 toy_sign
              0 0 toy_key (Some SIGHASH_ALL) heap_two = (Ok 0%nat, h1) /\
            readTXOBJ h1 0 = Ok signed /\ ins signed !! 1%nat = Some x).
  { eexists _, _, _. split; [vm_compute; reflexivity|].
    split; [vm_compute; reflexivity|]. reflexivity. }
  destruct E as (h1 & signed & x & E & R & X).
  eexists _, h1, signed, x.
  split; [vm_compute; reflexivity|]. split; [reflexivity|].
  split; [exact E|]. split; [exact R|]. split; [exact X|].
  apply (signTx_erases_other_scripts toy_decode toy_privKeyToPubKey toy_pubKeyToAddr
           toy_sha256x2 toy_sign heap_two h1 0 (mkTXREF 0 1 1 2) [3; 4]%nat [5; 6]%nat
           0 toy_key (Some SIGHASH_ALL) 0 signed ltac:(wf_example)
           ltac:(apply (bool_decide_unpack (NoDup [3; 4]%nat)); exact I) E R 1%nat x); [lia | exact X].
Defined.

(** In SINGLE mode the caller's outputs are blanked as well. *)
Lemma signTx_single_blanks_caller_outputs :
  exists h1 signed,
    signTx toy_decode toy_privKeyToPubKey toy_pubKeyToAddr toy_sha256x2 toy_sign
      0 0 toy_key (Some SIGHASH_SINGLE) heap_two = (Ok 0%nat, h1) /\
    readTXOBJ h1 0 = Ok signed /\
    output_fields signed = [(pow_2_64_minus_1, []); (7000, str "a914")].
Proof.
  eexists _, _. split; [vm_compute; reflexivity|].
  split; [vm_compute; reflexivity|]. reflexivity.
Qed.

(** * Further properties *)

(** ** Length prefixes and varints *)

(** X1. The length prefix is one byte: for the hexadecimal rendering of a
    byte sequence it is the length modulo 256, so sequences whose lengths
    differ by 256 get the same prefix. *)
Theorem getStringBufferLength_wraps (bs bs' : list Z) :
  Forall Buffer.is_byte bs -> Forall Buffer.is_byte bs' ->
  getStringBufferLength (Buffer.toString_hex bs) =
    Buffer.toString_hex [Z.of_nat (length bs) mod 256] /\
  length (getStringBufferLength (Buffer.toString_hex bs)) = 2%nat /\
  (length bs' = (length bs + 256)%nat ->
   getStringBufferLength (Buffer.toString_hex bs') =
   getStringBufferLength (Buffer.toString_hex bs)).
Proof.
  intros Hb Hb'.
  assert (E : forall l, Forall Buffer.is_byte l ->
            getStringBufferLength (Buffer.toString_hex l) =
            Buffer.toString_hex [Z.of_nat (length l) mod 256]).
  { intros l Hl. unfold getStringBufferLength.
    rewrite (from_hex_toString_hex _ Hl). reflexivity. }
  split; [apply E, Hb|]. split; [rewrite (E _ Hb); reflexivity|].
  intros Hlen. rewrite (E _ Hb), (E _ Hb'), Hlen.
  do 2 f_equal. rewrite Nat2Z.inj_add.
  change (Z.of_nat 256) with (1 * 256). apply Z.mod_add. lia.
Qed.

Lemma getStringBufferLength_wraps_witness :
  getStringBufferLength (Buffer.toString_hex (replicate 258 7)) =
  getStringBufferLength (Buffer.toString_hex [7; 7]).
Proof.
  apply (getStringBufferLength_wraps [7; 7] (replicate 258 7)).
  - repeat constructor; lia.
  - apply Forall_replicate. unfold Buffer.is_byte. lia.
  - reflexivity.
Defined.

Lemma numToVarInt_bytes (n : Z) :
  0 <= n < 2 ^ 64 ->
  Forall Buffer.is_byte (numToVarInt_array n) /\
  Buffer.from_hex (numToVarInt n) = numToVarInt_array n.
Proof.
  intros Hn.
  assert (Hall : Forall Buffer.is_byte (numToVarInt_array n)).
  { unfold numToVarInt_array.
    destruct (Z.ltb_spec n 253); [repeat constructor; lia|].
    destruct (Z.ltb_spec n 65536).
    { constructor; [unfold Buffer.is_byte; lia|].
      apply (numToBytes_little_endian 2). change (256 ^ Z.of_nat 2) with 65536. lia. }
    destruct (Z.ltb_spec n 4294967296).
    { constructor; [unfold Buffer.is_byte; lia|].
      apply (numToBytes_little_endian 4). change (256 ^ Z.of_nat 4) with 4294967296. lia. }
    constructor; [unfold Buffer.is_byte; lia|].
    apply (numToBytes_little_endian 8). change (256 ^ Z.of_nat 8) with (2 ^ 64). lia. }
  split; [exact Hall|].
  unfold numToVarInt. rewrite (from_array_bytes _ Hall).
  apply from_hex_toString_hex, Hall.
Qed.

Lemma numToBytes_length (k : nat) : forall n, length (numToBytes n k) = k.
Proof. induction k as [|k IH]; intros n; [reflexivity|]. simpl. rewrite IH. reflexivity. Qed.

Lemma numToBytes_inj (k : nat) (a b : Z) :
  0 <= a < 256 ^ Z.of_nat k -> 0 <= b < 256 ^ Z.of_nat k ->
  numToBytes a k = numToBytes b k -> a = b.
Proof.
  intros Ha Hb E.
  destruct (numToBytes_little_endian k a Ha) as (_ & _ & <-).
  destruct (numToBytes_little_endian k b Hb) as (_ & _ & <-).
  rewrite E. reflexivity.
Qed.

(** X2. Below 2^64 no two numbers share a varint: the encoding is
    injective (the two classes that share the marker 253 differ in
    length). *)
Theorem numToVarInt_injective (a b : Z) :
  0 <= a < 2 ^ 64 -> 0 <= b < 2 ^ 64 ->
  numToVarInt a = numToVarInt b -> a = b.
Proof.
  intros Ha Hb E.
  destruct (numToVarInt_bytes a Ha) as [_ Ea].
  destruct (numToVarInt_bytes b Hb) as [_ Eb].
  rewrite E, Eb in Ea. clear E Eb.
  assert (Hlen := f_equal length Ea).
  unfold numToVarInt_array in Ea, Hlen.
  destruct (Z.ltb_spec a 253) as [A1|A1], (Z.ltb_spec b 253) as [B1|B1].
  1: congruence.
  all: destruct (Z.ltb_spec a 65536) as [A2|A2]; try lia.
  all: destruct (Z.ltb_spec b 65536) as [B2|B2]; try lia.
  all: destruct (Z.ltb_spec a 4294967296) as [A3|A3]; try lia.
  all: destruct (Z.ltb_spec b 4294967296) as [B3|B3]; try lia.
  all: rewrite ?length_app, ?numToBytes_length in Hlen; try discriminate Hlen.
  all: apply app_inv_head in Ea; symmetry.
  - apply (numToBytes_inj 2); [change (256 ^ Z.of_nat 2) with 65536; lia.. | exact Ea].
  - apply (numToBytes_inj 4); [change (256 ^ Z.of_nat 4) with 4294967296; lia.. | exact Ea].
  - apply (numToBytes_inj 8); [change (256 ^ Z.of_nat 8) with (2 ^ 64); lia.. | exact Ea].
Qed.

Lemma numToVarInt_injective_witness : 300 = 300.
Proof.
  apply (numToVarInt_injective 300 300); [lia | lia | reflexivity].
Defined.

(** X3. [numToBytes(num, bytes)] keeps the [bytes] low-order bytes of a
    non-negative number and drops the rest: the result is the
    little-endian encoding of [num mod 256^bytes]. *)
Theorem numToBytes_truncates (k : nat) (n : Z) :
  0 <= n -> little_endian k (n mod 256 ^ Z.of_nat k) (numToBytes n k).
Proof.
  revert n. induction k as [|k IH]; intros n Hn.
  - change (256 ^ Z.of_nat 0) with 1. rewrite Z.mod_1_r.
    repeat split; constructor.
  - assert (Hq : 0 <= n / 256) by (apply Z.div_pos; lia).
    destruct (IH _ Hq) as (Hlen & Hall & Hval).
    cbn [numToBytes app]. rewrite Z.rem_mod_nonneg by lia.
    pose proof (Z.mod_pos_bound n 256 ltac:(lia)).
    repeat split.
    + simpl. congruence.
    + constructor; [exact H | exact Hall].
    + cbn [le_value]. rewrite Hval.
      rewrite Nat2Z.inj_succ, Z.pow_succ_r by lia.
      symmetry. apply Z.rem_mul_r; lia.
Qed.

Lemma numToBytes_truncates_witness : little_endian 2 (70000 mod 256 ^ Z.of_nat 2) (numToBytes 70000 2).
Proof. apply (numToBytes_truncates 2 70000). lia. Defined.

(** ** Scripts *)

Lemma substring_tail (s : jsstring) (n : nat) : substring s n (length s) = drop n s.
Proof.
  unfold substring. rewrite Nat.min_id.
  replace (Nat.max (Nat.min n (length s)) (length s)) with (length s) by lia.
  replace (Nat.min (Nat.min n (length s)) (length s)) with (Nat.min n (length s)) by lia.
  destruct (decide (n <= length s)%nat) as [Hle|Hgt].
  - replace (Nat.min n (length s)) with n by lia.
    apply take_ge. rewrite length_drop. lia.
  - replace (Nat.min n (length s)) with (length s) by lia.
    rewrite Nat.sub_diag, take_0. symmetry. apply drop_ge. lia.
Qed.

Lemma drop_hex (d : list Z) (k : nat) :
  drop (2 * k) (Buffer.toString_hex d) = Buffer.toString_hex (drop k d).
Proof.
  revert d. induction k as [|k IH]; intros d; [reflexivity|].
  destruct d as [|b d]; [reflexivity|].
  replace (2 * S k)%nat with (S (S (2 * k))) by lia.
  rewrite toString_hex_cons. cbn [drop]. apply IH.
Qed.

Lemma payload_hex (d : list Z) :
  substring (Buffer.toString_hex d) 4 (length (Buffer.toString_hex d)) =
  Buffer.toString_hex (drop 2 d).
Proof. rewrite substring_tail. apply (drop_hex d 2). Qed.

Lemma from_hex_cons (b : Z) (bs : list Z) :
  Buffer.is_byte b ->
  Buffer.from_hex (Buffer.toString_hex (b :: bs)) =
  b :: Buffer.from_hex (Buffer.toString_hex bs).
Proof.
  intros Hb. rewrite toString_hex_cons.
  destruct (byte_nibbles b Hb) as (Hq & Hr & E).
  cbn [Buffer.from_hex].
  rewrite (hexval_hexdigit _ Hq), (hexval_hexdigit _ Hr), E. reflexivity.
Qed.

Lemma mkPubkeyHashReplayScript_hex
    (decode : jsstring -> result (list Z)) (address : jsstring) (d : list Z) :
  decode address = Ok d -> Forall Buffer.is_byte d -> (length d < 258)%nat ->
  mkPubkeyHashReplayScript decode address =
  Ok (Buffer.toString_hex
        ([0x76; 0xa9] ++ [Z.of_nat (length d - 2)] ++ drop 2 d ++ [0x88; 0xac] ++
         [32] ++ rev pinned_hash ++ [3] ++ pinned_height ++ [0xb4])).
Proof.
  intros Hd Hb Hlen. rewrite mkPubkeyHashReplayScript_shape, Hd. cbn [rbind]. cbv zeta.
  rewrite payload_hex.
  rewrite (getStringBufferLength_hex (drop 2 d))
    by (try apply Forall_drop, Hb; rewrite length_drop; lia).
  rewrite length_drop. f_equal.
  rewrite !toString_hex_app. rewrite <- !app_assoc. reflexivity.
Qed.

(** X4. For an address that decodes to the bytes [d] (two version bytes,
    then the hash), the replay-protected script is, byte for byte:
    OP_DUP, OP_HASH160, a push of [d] without its first two bytes,
    OP_EQUALVERIFY, OP_CHECKSIG, a push of the reversed block hash, a push
    of the three height bytes, OP_CHECKBLOCKATHEIGHT. *)
Theorem mkPubkeyHashReplayScript_bytes
    (decode : jsstring -> result (list Z)) (address : jsstring) (d : list Z) :
  decode address = Ok d -> Forall Buffer.is_byte d -> (length d < 258)%nat ->
  mkPubkeyHashReplayScript decode address =
  Ok (Buffer.toString_hex
        ([0x76; 0xa9] ++ [Z.of_nat (length d - 2)] ++ drop 2 d ++ [0x88; 0xac] ++
         [32] ++ rev pinned_hash ++ [3] ++ pinned_height ++ [0xb4])).
Proof. apply mkPubkeyHashReplayScript_hex. Qed.

Lemma mkPubkeyHashReplayScript_bytes_witness :
  mkPubkeyHashReplayScript toy_decode (str "znToyAddress") =
  Ok (Buffer.toString_hex
        ([0x76; 0xa9] ++ [20] ++ replicate 20 17 ++ [0x88; 0xac] ++
         [32] ++ rev pinned_hash ++ [3] ++ pinned_height ++ [0xb4])).
Proof.
  apply (mkPubkeyHashReplayScript_bytes toy_decode (str "znToyAddress")
           (32 :: 137 :: replicate 20 17)).
  - reflexivity.
  - repeat constructor; lia.
  - cbn. lia.
Defined.

Lemma mkScriptHashScript_hex
    (decode : jsstring -> result (list Z)) (address : jsstring) (d : list Z) :
  decode address = Ok d -> Forall Buffer.is_byte d ->
  exists script,
    mkScriptHashScript decode address = Ok script /\
    Buffer.from_hex script = [0xa9; 0x14] ++ drop 2 d ++ [0x87] /\
    (length (Buffer.from_hex script) = 23%nat <-> (length d = 22)%nat).
Proof.
  intros Hd Hb. unfold mkScriptHashScript. rewrite Hd. cbn [rbind]. cbv zeta.
  rewrite payload_hex. eexists. split; [reflexivity|].
  assert (E : OP_HASH160 ++ str "14" ++ Buffer.toString_hex (drop 2 d) ++ OP_EQUAL =
              Buffer.toString_hex ([0xa9; 0x14] ++ drop 2 d ++ [0x87])).
  { rewrite !toString_hex_app. reflexivity. }
  rewrite E, from_hex_toString_hex.
  - split; [reflexivity|]. rewrite !length_app, length_drop. simpl. lia.
  - apply Forall_app; split; [repeat constructor; lia|].
    apply Forall_app; split; [apply Forall_drop, Hb | repeat constructor; lia].
Qed.

(** X5. The script-hash script is OP_HASH160, the byte 0x14, the decoded
    bytes without their first two, OP_EQUAL: the push length 0x14 is
    written whatever the length of the payload, so the script is the
    23-byte standard form exactly when the address decodes to 22 bytes. *)
Theorem mkScriptHashScript_bytes
    (decode : jsstring -> result (list Z)) (address : jsstring) (d : list Z) :
  decode address = Ok d -> Forall Buffer.is_byte d ->
  exists script,
    mkScriptHashScript decode address = Ok script /\
    Buffer.from_hex script = [0xa9; 0x14] ++ drop 2 d ++ [0x87] /\
    (length (Buffer.from_hex script) = 23%nat <-> (length d = 22)%nat).
Proof. apply mkScriptHashScript_hex. Qed.

Lemma mkScriptHashScript_bytes_witness :
  exists script,
    mkScriptHashScript toy_decode (str "3ToyAddress") = Ok script /\
    Buffer.from_hex script = [0xa9; 0x14] ++ replicate 20 17 ++ [0x87] /\
    (length (Buffer.from_hex script) = 23%nat <-> (22 = 22)%nat).
Proof.
  apply (mkScriptHashScript_bytes toy_decode (str "3ToyAddress")
           (32 :: 137 :: replicate 20 17)).
  - reflexivity.
  - repeat constructor; lia.
Defined.

(** X6. Dispatch on the first character of the address: '3' or '2' gives a
    script that starts with OP_HASH160 and the byte 0x14; anything else,
    the empty address included, gives one that starts with OP_DUP,
    OP_HASH160. *)
Theorem addressToScript_dispatch
    (decode : jsstring -> result (list Z)) (address : jsstring) (d : list Z) :
  decode address = Ok d -> Forall Buffer.is_byte d -> (length d < 258)%nat ->
  exists script,
    addressToScript decode address = Ok script /\
    ((exists rest, address = "3"%char :: rest \/ address = "2"%char :: rest) ->
       take 2 (Buffer.from_hex script) = [0xa9; 0x14]) /\
    ((address = [] \/
      exists c rest, address = c :: rest /\ c <> "3"%char /\ c <> "2"%char) ->
       take 2 (Buffer.from_hex script) = [0x76; 0xa9]).
Proof.
  intros Hd Hb Hlen.
  destruct (mkScriptHashScript_hex decode address d Hd Hb) as (s1 & E1 & B1 & _).
  pose proof (mkPubkeyHashReplayScript_hex decode address d Hd Hb Hlen) as E2.
  assert (B2 : take 2 (Buffer.from_hex (Buffer.toString_hex
                 ([0x76; 0xa9] ++ [Z.of_nat (length d - 2)] ++ drop 2 d ++ [0x88; 0xac] ++
                  [32] ++ rev pinned_hash ++ [3] ++ pinned_height ++ [0xb4]))) = [0x76; 0xa9]).
  { cbn [app]. rewrite !from_hex_cons by (unfold Buffer.is_byte; lia). reflexivity. }
  unfold addressToScript.
  destruct address as [|c rest].
  - cbn [first_char_in]. rewrite E2. eexists. split; [reflexivity|]. split.
    + intros (r & [H|H]); discriminate.
    + intros _. exact B2.
  - cbn [first_char_in str list_ascii_of_string existsb].
    destruct (Ascii.eqb_spec c "3") as [->|N3].
    { cbn [orb]. rewrite E1. exists s1. split; [reflexivity|]. split.
      - intros _. rewrite B1. reflexivity.
      - intros [H|(c' & r' & H & H3 & _)]; [discriminate|]. congruence. }
    destruct (Ascii.eqb_spec c "2") as [->|N2].
    { cbn [orb]. rewrite E1. exists s1. split; [reflexivity|]. split.
      - intros _. rewrite B1. reflexivity.
      - intros [H|(c' & r' & H & _ & H2)]; [discriminate|]. congruence. }
    cbn [orb]. rewrite E2. eexists. split; [reflexivity|]. split.
    + intros (r & [H|H]); congruence.
    + intros _. exact B2.
Qed.

Lemma addressToScript_dispatch_witness :
  exists script,
    addressToScript toy_decode (str "3ToyAddress") = Ok script /\
    take 2 (Buffer.from_hex script) = [0xa9; 0x14].
Proof.
  destruct (addressToScript_dispatch toy_decode (str "3ToyAddress")
              (32 :: 137 :: replicate 20 17)) as (s & E & H & _).
  - reflexivity.
  - repeat constructor; lia.
  - cbn. lia.
  - exists s. split; [exact E|]. apply H. exists (str "ToyAddress"). left. reflexivity.
Defined.

(** ** When the serialiser throws *)

Lemma writeUInt16LE_cases (buf : list Z) (v : Z) (offset : nat) :
  (fits16 v /\ exists b, Buffer.writeUInt16LE buf v offset = Ok b) \/
  (~ fits16 v /\ Buffer.writeUInt16LE buf v offset = Throw RangeError).
Proof.
  unfold Buffer.writeUInt16LE, fits16.
  destruct (Z.leb_spec 0 v), (Z.ltb_spec v 65536); cbn [andb];
    [left; split; [lia | eauto] | right; split; [lia | reflexivity] ..].
Qed.

Lemma writeUInt32LE_cases (buf : list Z) (v : Z) (offset : nat) :
  (0 <= v < 4294967296 /\ exists b, Buffer.writeUInt32LE buf v offset = Ok b) \/
  (~ 0 <= v < 4294967296 /\ Buffer.writeUInt32LE buf v offset = Throw RangeError).
Proof.
  unfold Buffer.writeUInt32LE.
  destruct (Z.leb_spec 0 v), (Z.ltb_spec v 4294967296); cbn [andb];
    [left; split; [lia | eauto] | right; split; [lia | reflexivity] ..].
Qed.

Lemma Array_each_cases {A S : Type} (f : S -> A -> result S) (P : A -> Prop) (l : list A) :
  (forall s x, (P x /\ exists s', f s x = Ok s') \/ (~ P x /\ f s x = Throw RangeError)) ->
  forall s,
    (Forall P l /\ exists s', Array_each f s l = Ok s') \/
    (~ Forall P l /\ Array_each f s l = Throw RangeError).
Proof.
  intros Hf. induction l as [|x l IH]; intros s.
  - left. split; [constructor | eexists; reflexivity].
  - cbn [Array_each]. destruct (Hf s x) as [(Hx & s1 & E)|(Hx & E)]; rewrite E; cbn [rbind].
    + destruct (IH s1) as [(Hl & s2 & E2)|(Hl & E2)].
      * left. split; [constructor; assumption | eauto].
      * right. split; [|exact E2]. intros H. apply Hl. apply Forall_cons in H. tauto.
    + right. split; [|reflexivity]. intros H. apply Hx. apply Forall_cons in H. tauto.
Qed.

Lemma serializeTx_in_cases (st : list Z * jsstring) (i : TXIN) :
  (fits16 (in_vout i) /\ exists st', serializeTx_in st i = Ok st') \/
  (~ fits16 (in_vout i) /\ serializeTx_in st i = Throw RangeError).
Proof.
  destruct st as [buf acc]. unfold serializeTx_in.
  destruct (writeUInt16LE_cases buf (in_vout i) 0) as [(H & b & E)|(H & E)]; rewrite E.
  - left. split; [exact H | eexists; reflexivity].
  - right. split; [exact H | reflexivity].
Qed.

Lemma serializeTx_out_cases (acc : jsstring) (o : TXOUT) :
  (fits_amount (out_satoshis o) /\ exists acc', serializeTx_out acc o = Ok acc') \/
  (~ fits_amount (out_satoshis o) /\ serializeTx_out acc o = Throw RangeError).
Proof.
  unfold serializeTx_out, fits_amount.
  destruct (Z.eqb_spec (out_satoshis o) pow_2_64_minus_1) as [E|N].
  - left. split; [left; exact E | eexists; reflexivity].
  - destruct (writeUInt32LE_cases (Buffer.alloc 8) (out_satoshis o) 0)
      as [(H & b & E)|(H & E)]; rewrite E.
    + left. split; [right; exact H | eexists; reflexivity].
    + right. split; [tauto | reflexivity].
Qed.

Lemma serializeTx_rejects (tx : TXOBJ) :
  ~ serializable tx -> serializeTx tx = Throw RangeError.
Proof.
  intros Hn. unfold serializable in Hn. unfold serializeTx.
  destruct (writeUInt16LE_cases (Buffer.alloc 4) (version tx) 0) as [(Hv & b & E)|(Hv & E)];
    rewrite E; cbn [rbind]; [|reflexivity].
  match goal with |- context [Array_each serializeTx_in ?st _] =>
    destruct (Array_each_cases serializeTx_in (fun i => fits16 (in_vout i)) (ins tx)
                serializeTx_in_cases st) as [(Hi & [b1 acc1] & Ei)|(Hi & Ei)] end;
    rewrite Ei; cbn [rbind]; [|reflexivity].
  match goal with |- context [Array_each serializeTx_out ?st _] =>
    destruct (Array_each_cases serializeTx_out (fun o => fits_amount (out_satoshis o))
                (outs tx) serializeTx_out_cases st) as [(Ho & acc2 & Eo)|(Ho & Eo)] end;
    rewrite Eo; cbn [rbind]; [|reflexivity].
  destruct (writeUInt16LE_cases b1 (locktime tx) 0) as [(Hl & b2 & El)|(Hl & El)];
    rewrite El; cbn [rbind]; [|reflexivity].
  exfalso. apply Hn. split; [exact Hv|]. split; [exact Hl|]. split; [exact Hi | exact Ho].
Qed.

(** X7. [serializeTx] returns exactly on the transactions whose version,
    lock time and output indexes fit 16 bits and whose amounts fit 32 bits
    (or are the placeholder); on every other transaction it throws, and
    what it throws is the range error of the Buffer write. *)
Theorem serializeTx_domain (tx : TXOBJ) :
  (serializable tx -> serializeTx tx = Ok (layout (@length ascii) tx)) /\
  (~ serializable tx -> serializeTx tx = Throw RangeError).
Proof.
  split; [apply serializeTx_layout | apply serializeTx_rejects].
Qed.

Lemma serializable_dec (tx : TXOBJ) : Decision (serializable tx).
Proof. unfold serializable, fits16, fits_amount. apply _. Defined.

Lemma serializeTx_returns (tx : TXOBJ) (s : jsstring) :
  serializeTx tx = Ok s -> serializable tx /\ s = layout (@length ascii) tx.
Proof.
  intros E. destruct (serializable_dec tx) as [Hs|Hn].
  - split; [exact Hs|]. rewrite (serializeTx_layout tx Hs) in E. congruence.
  - rewrite (serializeTx_rejects tx Hn) in E. discriminate.
Qed.

(** C7. An output whose amount is the SIGHASH_SINGLE placeholder
    [Math.pow(2, 64) - 1] never makes [serializeTx] throw, and whenever
    [serializeTx] returns, what it returns has, at the place of that
    output's amount (after the version, the inputs, the output count and
    the outputs before it), eight bytes 0xFF, followed by the output's
    script length and script, the remaining outputs and the lock time. *)
Theorem serializeTx_placeholder (tx : TXOBJ) (j : nat) (o : TXOUT) :
  outs tx !! j = Some o -> out_satoshis o = pow_2_64_minus_1 ->
  (fits16 (version tx) -> fits16 (locktime tx) ->
   Forall (fun x => fits16 (in_vout x)) (ins tx) ->
   Forall (fun o' => fits_amount (out_satoshis o'))
     (take j (outs tx) ++ drop (S j) (outs tx)) ->
   exists s, serializeTx tx = Ok s) /\
  (forall s, serializeTx tx = Ok s ->
   s = (Buffer.toString_hex (le_bytes 4 (version tx)) ++
        numToVarInt (Z.of_nat (length (ins tx))) ++
        flat_map (layout_in (@length ascii)) (ins tx) ++
        numToVarInt (Z.of_nat (length (outs tx))) ++
        flat_map (layout_out (@length ascii)) (take j (outs tx))) ++
       str "ffffffffffffffff" ++
       numToVarInt (Z.of_nat (length (out_script o))) ++ out_script o ++
       flat_map (layout_out (@length ascii)) (drop (S j) (outs tx)) ++
       Buffer.toString_hex (le_bytes 4 (locktime tx))).
Proof.
  intros Hj Ho.
  assert (Esplit : outs tx = take j (outs tx) ++ o :: drop (S j) (outs tx)).
  { symmetry. apply take_drop_middle. exact Hj. }
  split.
  - intros Hv Hl Hins Houts. eexists. apply serializeTx_layout.
    split; [exact Hv|]. split; [exact Hl|]. split; [exact Hins|].
    rewrite Esplit. apply Forall_app in Houts. destruct Houts as [H1 H2].
    apply Forall_app; split; [exact H1|].
    apply Forall_cons; split; [left; exact Ho | exact H2].
  - intros s E. destruct (serializeTx_returns tx s E) as [_ ->].
    unfold layout. rewrite Esplit at 2.
    rewrite flat_map_app. cbn [flat_map]. unfold layout_out at 2, layout_amount.
    rewrite Ho, Z.eqb_refl. rewrite <- !app_assoc. reflexivity.
Qed.

Lemma serializeTx_placeholder_witness :
  exists s,
    serializeTx tx_blank = Ok s /\
    s = str "01000000" ++ str "01" ++
        Buffer.toString_hex (replicate 32 170) ++ str "00000000" ++ str "00" ++
        str "ffffffff" ++
        str "02" ++
        str "ffffffffffffffff" ++ str "00" ++
        str "8813000000000000" ++ str "04" ++ str "76a9" ++
        str "00000000".
Proof.
  destruct (serializeTx_placeholder tx_blank 0 blank_out eq_refl eq_refl) as [Hret Hform].
  destruct Hret as [s E].
  - cbn. unfold fits16. lia.
  - cbn. unfold fits16. lia.
  - apply Forall_cons; split; [cbn; unfold fits16; lia|]. apply Forall_nil. exact I.
  - apply Forall_cons; split; [right; cbn; lia|]. apply Forall_nil. exact I.
  - exists s. split; [exact E|]. rewrite (Hform s E). vm_compute. reflexivity.
Defined.

(** ** The preimage, mode by mode *)

Lemma Forall2_same_source {A B : Type} (R R' : A -> B -> Prop) (a : list A) (xs ys : list B) :
  Forall2 R a xs -> Forall2 R' a ys ->
  (forall l x y, l ∈ a -> R l x -> R' l y -> x = y) -> xs = ys.
Proof.
  intros H. revert ys. induction H as [|l x a xs Hx _ IH]; intros ys H' Hf.
  - inversion H'. reflexivity.
  - inversion H' as [|l' y a' ys' Hy Hys]; subst. f_equal.
    + apply (Hf l); [apply list_elem_of_here | assumption..].
    + apply IH; [assumption|]. intros l0 x0 y0 Hl0. apply Hf, list_elem_of_further, Hl0.
Qed.

(** The original and the preimage, cell by cell. *)
Lemma signatureForm_preimage (h : heap) (tx : loc) (t : TXREF) (insA outsA : list loc)
    (original : TXOBJ) (i : nat) (li : loc) (script : jsstring) (hashcode : Z) :
  wf_tx h tx t insA outsA -> readTXOBJ h tx = Ok original -> insA !! i = Some li ->
  (hashcode = SIGHASH_SINGLE -> (length insA - 1 <= length outsA)%nat) ->
  exists h' preimage,
    signatureForm tx i script hashcode h = (Ok (length h), h') /\
    sig_post h t insA outsA li script hashcode h' /\
    readTXOBJ h' (length h) = Ok preimage /\
    locktime preimage = locktime original /\ version preimage = version original /\
    Forall2 (fun l x0 => h !! l = Some (CIn x0)) insA (ins original) /\
    Forall2 (fun l o => h !! l = Some (COut o)) outsA (outs original) /\
    Forall2 (fun l x => h' !! l = Some (CIn x)) (sig_ins insA li hashcode) (ins preimage) /\
    Forall2 (fun l o => h' !! l = Some (COut o)) (sig_outs insA outsA hashcode)
      (outs preimage).
Proof.
  intros Hwf Hread Hi Hsingle.
  destruct (readTXOBJ_inv _ _ _ Hread) as (t0 & ia & oa & R1 & R2 & R3 & Rl & Rv & Rin & Rout).
  pose proof Hwf as [H1 H2 H3 _ _].
  assert (t0 = t) as -> by congruence.
  assert (ia = insA) as -> by congruence.
  assert (oa = outsA) as -> by congruence.
  destruct (signatureForm_ok h tx t insA outsA i li script hashcode Hwf Hi Hsingle)
    as (h' & E & Hpost).
  destruct (sig_post_new_wf h h' tx t insA outsA li script hashcode Hwf Hpost)
    as (t' & Tl & Tv & Hwf'); [eapply list_elem_of_lookup_2, Hi|].
  destruct (wf_tx_read _ _ _ _ _ Hwf') as (xs & os & Hread' & Hxs & Hos).
  exists h', (mkTXOBJ (ref_locktime t') (ref_version t') xs os).
  cbn [locktime version ins outs].
  split; [exact E|]. split; [exact Hpost|]. split; [exact Hread'|].
  split; [congruence|]. split; [congruence|]. repeat split; assumption.
Qed.

Section Preimage.

Variables (h h' : heap) (tx : loc) (t : TXREF) (insA outsA : list loc).
Variables (original preimage : TXOBJ) (i : nat) (li : loc) (script : jsstring) (hashcode : Z).
Hypothesis Hwf : wf_tx h tx t insA outsA.
Hypothesis Hi : insA !! i = Some li.
Hypothesis Hpost : sig_post h t insA outsA li script hashcode h'.
Hypothesis Hin : Forall2 (fun l x0 => h !! l = Some (CIn x0)) insA (ins original).
Hypothesis Hout : Forall2 (fun l o => h !! l = Some (COut o)) outsA (outs original).
Hypothesis Hin' :
  Forall2 (fun l x => h' !! l = Some (CIn x)) (sig_ins insA li hashcode) (ins preimage).
Hypothesis Hout' :
  Forall2 (fun l o => h' !! l = Some (COut o)) (sig_outs insA outsA hashcode) (outs preimage).

(** Every input is kept, without its script; the entries that are the
    signed object hold the substitute. *)
Lemma preimage_inputs :
  sig_ins insA li hashcode = insA ->
  forall j, ins preimage !! j =
            with_script (if decide (insA !! j = insA !! i) then script else [])
              <$> ins original !! j.
Proof.
  intros Hsame j. rewrite Hsame in Hin'.
  destruct (insA !! j) as [l|] eqn:Hj.
  - destruct (Forall2_lookup_l _ _ _ _ _ Hin Hj) as (x0 & -> & Hx0).
    destruct (Forall2_lookup_l _ _ _ _ _ Hin' Hj) as (x & -> & Hx).
    rewrite (sig_post_lookup h h' t insA outsA li script hashcode Hpost _ _ Hx0) in Hx.
    cbn [sig_mark] in Hx.
    rewrite bool_decide_eq_true_2 in Hx by (eapply list_elem_of_lookup_2, Hj).
    injection Hx as <-. cbn [fmap option_fmap option_map]. do 2 f_equal.
    rewrite Hi. destruct (decide (Some l = Some li)) as [Heq|Hne].
    + rewrite bool_decide_eq_true_2; [reflexivity | congruence].
    + rewrite bool_decide_eq_false_2; [reflexivity | congruence].
  - apply lookup_ge_None in Hj.
    rewrite (proj2 (lookup_ge_None (ins preimage) j))
      by (rewrite <- (Forall2_length _ _ _ Hin'); exact Hj).
    rewrite (proj2 (lookup_ge_None (ins original) j))
      by (rewrite <- (Forall2_length _ _ _ Hin); exact Hj).
    reflexivity.
Qed.

(** With pairwise distinct input objects, the signed one alone holds the
    substitute. *)
Lemma preimage_all_inputs :
  NoDup insA -> sig_ins insA li hashcode = insA ->
  forall j, ins preimage !! j =
            with_script (if decide (j = i) then script else []) <$> ins original !! j.
Proof.
  intros Hnd Hsame j. rewrite (preimage_inputs Hsame j).
  destruct (decide (j = i)) as [->|Hne].
  - rewrite decide_True by reflexivity. reflexivity.
  - destruct (decide (insA !! j = insA !! i)) as [Heq|_]; [|reflexivity].
    rewrite Hi in Heq. exfalso. apply Hne. apply (NoDup_lookup _ _ _ _ Hnd Heq Hi).
Qed.

(** Only the signed input is kept. *)
Lemma preimage_one_input :
  sig_ins insA li hashcode = [li] ->
  exists x0, ins original !! i = Some x0 /\ ins preimage = [with_script script x0].
Proof.
  intros Hone. rewrite Hone in Hin'.
  destruct (Forall2_lookup_l _ _ _ _ _ Hin Hi) as (x0 & E0 & Hx0).
  exists x0. split; [exact E0|].
  inversion Hin' as [|l x a xs Hx Hnil]; subst. inversion Hnil; subst. f_equal.
  rewrite (sig_post_lookup h h' t insA outsA li script hashcode Hpost _ _ Hx0) in Hx.
  cbn [sig_mark] in Hx.
  rewrite !bool_decide_eq_true_2 in Hx
    by (reflexivity || eapply list_elem_of_lookup_2, Hi).
  congruence.
Qed.

(** The outputs are kept as they are. *)
Lemma preimage_all_outputs :
  hashcode <> SIGHASH_SINGLE -> sig_outs insA outsA hashcode = outsA ->
  outs preimage = outs original.
Proof.
  intros Hns Hsame. rewrite Hsame in Hout'.
  apply (Forall2_same_source _ _ outsA _ _ Hout' Hout).
  intros l o' o _ Ho' Ho.
  rewrite (sig_post_lookup h h' t insA outsA li script hashcode Hpost _ _ Ho) in Ho'.
  cbn [sig_mark] in Ho'.
  destruct (Z.eqb_spec hashcode SIGHASH_SINGLE); [contradiction|].
  cbn [andb] in Ho'. congruence.
Qed.

End Preimage.

(** X8. In NONE mode the preimage has no output at all, and every input of
    the transaction without its script, except that the signed input, and
    any entry of the inputs array that is the same object, holds the
    substitute script; when the input objects are pairwise distinct, the
    signed input is the only one. *)
Theorem signatureForm_none (h : heap) (tx : loc) (t : TXREF) (insA outsA : list loc)
    (original : TXOBJ) (i : nat) (script : jsstring) :
  wf_tx h tx t insA outsA ->
  readTXOBJ h tx = Ok original -> (i < length (ins original))%nat ->
  exists newTx h' preimage,
    signatureForm tx i script SIGHASH_NONE h = (Ok newTx, h') /\
    readTXOBJ h' newTx = Ok preimage /\
    outs preimage = [] /\
    version preimage = version original /\ locktime preimage = locktime original /\
    (forall j, ins preimage !! j =
               with_script (if decide (insA !! j = insA !! i) then script else [])
                 <$> ins original !! j) /\
    (NoDup insA ->
     forall j, ins preimage !! j =
               with_script (if decide (j = i) then script else []) <$> ins original !! j).
Proof.
  intros Hwf Hread Hi.
  destruct (readTXOBJ_inv _ _ _ Hread) as (t0 & ia & oa & R1 & R2 & _ & _ & _ & Rin & _).
  pose proof Hwf as [H1 H2 _ _ _].
  assert (t0 = t) as -> by congruence. assert (ia = insA) as -> by congruence.
  rewrite <- (Forall2_length _ _ _ Rin) in Hi.
  destruct (lookup_lt_is_Some_2 insA i Hi) as [li Hli].
  destruct (signatureForm_preimage h tx t insA outsA original i li script SIGHASH_NONE
              Hwf Hread Hli) as (h' & pre & E & Hpost & Hr & El & Ev & I0 & O0 & I1 & O1);
    [discriminate|].
  exists (length h), h', pre. split; [exact E|]. split; [exact Hr|].
  split; [inversion O1; reflexivity|]. split; [exact Ev|]. split; [exact El|].
  split.
  - apply (preimage_inputs h h' t insA outsA original pre i li script SIGHASH_NONE
             Hli Hpost I0 I1). reflexivity.
  - intros Hnd.
    apply (preimage_all_inputs h h' t insA outsA original pre i li script SIGHASH_NONE
             Hli Hpost I0 I1 Hnd). reflexivity.
Qed.

(** X9. In ANYONECANPAY mode the preimage has one input, the signed one
    with the substitute script, and the outputs of the transaction as they
    are. *)
Theorem signatureForm_anyonecanpay (h : heap) (tx : loc) (t : TXREF)
    (insA outsA : list loc) (original : TXOBJ) (i : nat) (script : jsstring) :
  wf_tx h tx t insA outsA ->
  readTXOBJ h tx = Ok original -> (i < length (ins original))%nat ->
  exists newTx h' preimage x0,
    signatureForm tx i script SIGHASH_ANYONECANPAY h = (Ok newTx, h') /\
    readTXOBJ h' newTx = Ok preimage /\
    ins original !! i = Some x0 /\
    ins preimage = [with_script script x0] /\
    outs preimage = outs original /\
    version preimage = version original /\ locktime preimage = locktime original.
Proof.
  intros Hwf Hread Hi.
  destruct (readTXOBJ_inv _ _ _ Hread) as (t0 & ia & oa & R1 & R2 & _ & _ & _ & Rin & _).
  pose proof Hwf as [H1 H2 _ _ _].
  assert (t0 = t) as -> by congruence. assert (ia = insA) as -> by congruence.
  rewrite <- (Forall2_length _ _ _ Rin) in Hi.
  destruct (lookup_lt_is_Some_2 insA i Hi) as [li Hli].
  destruct (signatureForm_preimage h tx t insA outsA original i li script
              SIGHASH_ANYONECANPAY Hwf Hread Hli)
    as (h' & pre & E & Hpost & Hr & El & Ev & I0 & O0 & I1 & O1); [discriminate|].
  destruct (preimage_one_input h h' t insA outsA original pre i li script
              SIGHASH_ANYONECANPAY Hli Hpost I0 I1 eq_refl) as (x0 & Ex0 & Eins).
  exists (length h), h', pre, x0.
  split; [exact E|]. split; [exact Hr|]. split; [exact Ex0|]. split; [exact Eins|].
  split; [|split; assumption].
  apply (preimage_all_outputs h h' t insA outsA original pre li script
           SIGHASH_ANYONECANPAY Hpost O0 O1); [discriminate | reflexivity].
Qed.

(** X10. Every code other than NONE (2), SINGLE (3) and ANYONECANPAY (128)
    is treated as ALL: the preimage keeps all outputs as they are and all
    inputs without their scripts, except that the signed input, and any
    entry of the inputs array that is the same object, holds the
    substitute script; when the input objects are pairwise distinct, the
    signed input is the only one.  This includes the combined codes such
    as ALL|ANYONECANPAY (0x81), for which the other inputs stay in the
    preimage. *)
Theorem signatureForm_default (h : heap) (tx : loc) (t : TXREF) (insA outsA : list loc)
    (original : TXOBJ) (i : nat) (script : jsstring) (hashcode : Z) :
  wf_tx h tx t insA outsA ->
  readTXOBJ h tx = Ok original -> (i < length (ins original))%nat ->
  hashcode <> SIGHASH_NONE -> hashcode <> SIGHASH_SINGLE ->
  hashcode <> SIGHASH_ANYONECANPAY ->
  exists newTx h' preimage,
    signatureForm tx i script hashcode h = (Ok newTx, h') /\
    readTXOBJ h' newTx = Ok preimage /\
    outs preimage = outs original /\
    version preimage = version original /\ locktime preimage = locktime original /\
    (forall j, ins preimage !! j =
               with_script (if decide (insA !! j = insA !! i) then script else [])
                 <$> ins original !! j) /\
    (NoDup insA ->
     forall j, ins preimage !! j =
               with_script (if decide (j = i) then script else []) <$> ins original !! j).
Proof.
  intros Hwf Hread Hi N1 N2 N3.
  destruct (readTXOBJ_inv _ _ _ Hread) as (t0 & ia & oa & R1 & R2 & _ & _ & _ & Rin & _).
  pose proof Hwf as [H1 H2 _ _ _].
  assert (t0 = t) as -> by congruence. assert (ia = insA) as -> by congruence.
  rewrite <- (Forall2_length _ _ _ Rin) in Hi.
  destruct (lookup_lt_is_Some_2 insA i Hi) as [li Hli].
  destruct (signatureForm_preimage h tx t insA outsA original i li script hashcode
              Hwf Hread Hli) as (h' & pre & E & Hpost & Hr & El & Ev & I0 & O0 & I1 & O1);
    [contradiction|].
  assert (Sins : sig_ins insA li hashcode = insA).
  { unfold sig_ins.
    destruct (Z.eqb_spec hashcode SIGHASH_NONE); [contradiction|].
    destruct (Z.eqb_spec hashcode SIGHASH_SINGLE); [contradiction|].
    destruct (Z.eqb_spec hashcode SIGHASH_ANYONECANPAY); [contradiction|]. reflexivity. }
  assert (Souts : sig_outs insA outsA hashcode = outsA).
  { unfold sig_outs.
    destruct (Z.eqb_spec hashcode SIGHASH_NONE); [contradiction|].
    destruct (Z.eqb_spec hashcode SIGHASH_SINGLE); [contradiction|]. reflexivity. }
  exists (length h), h', pre. split; [exact E|]. split; [exact Hr|].
  split; [|split; [exact Ev|split; [exact El|split]]].
  - apply (preimage_all_outputs h h' t insA outsA original pre li script hashcode
             Hpost O0 O1 N2 Souts).
  - apply (preimage_inputs h h' t insA outsA original pre i li script hashcode
             Hli Hpost I0 I1 Sins).
  - intros Hnd.
    apply (preimage_all_inputs h h' t insA outsA original pre i li script hashcode
             Hli Hpost I0 I1 Hnd Sins).
Qed.

(** X11. An input index beyond the inputs makes [signatureForm] throw a
    TypeError, but only after the loop has run: the caller's transaction
    is left with every input script empty (and everything else as it
    was). *)
Theorem signatureForm_bad_index (h : heap) (tx : loc) (t : TXREF) (insA outsA : list loc)
    (original : TXOBJ) (i : nat) (script : jsstring) (hashcode : Z) :
  wf_tx h tx t insA outsA ->
  readTXOBJ h tx = Ok original -> (length (ins original) <= i)%nat ->
  exists h' after,
    signatureForm tx i script hashcode h = (Throw TypeError, h') /\
    readTXOBJ h' tx = Ok after /\
    ins after = map (with_script []) (ins original) /\
    outs after = outs original /\
    version after = version original /\ locktime after = locktime original.
Proof.
  intros Hwf Hread Hi.
  destruct (readTXOBJ_inv _ _ _ Hread) as (t0 & ia & oa & R1 & R2 & R3 & Rl & Rv & Rin & Rout).
  pose proof Hwf as [H1 H2 H3 _ _].
  assert (t0 = t) as -> by congruence. assert (ia = insA) as -> by congruence.
  assert (oa = outsA) as -> by congruence.
  rewrite <- (Forall2_length _ _ _ Rin) in Hi.
  destruct (signatureForm_clear h tx t insA outsA i script hashcode Hwf)
    as (h2 & E & P2 & Hwf2).
  pose proof (pointwise_wf _ _ h2 (cleared_kind _ _) P2 _ _ _ _
                (wf_tx_snoc h tx t insA outsA (CTx t) Hwf)) as Hwfc.
  destruct (wf_tx_read _ _ _ _ _ Hwfc) as (xs & os & Hread2 & Hxs & Hos).
  assert (Hcell : forall l c, h !! l = Some c ->
            h2 !! l = Some (cleared insA (length insA) l c)).
  { intros l c Hc. rewrite (proj2 P2 l), (lookup_app_l_Some _ _ _ _ Hc). reflexivity. }
  exists h2, (mkTXOBJ (ref_locktime t) (ref_version t) xs os).
  split.
  { rewrite E. apply bind_throw.
    apply (set_ins_script_throw h2 _ t (wf_cell _ _ _ _ _ Hwf2) insA i script
             (wf_ins_arr _ _ _ _ _ Hwf2)).
    apply lookup_ge_None. exact Hi. }
  split; [exact Hread2|]. cbn [ins outs version locktime].
  split; [|split; [|split; congruence]].
  - apply (Forall2_same_source _
             (fun l y => exists x0, h !! l = Some (CIn x0) /\ y = with_script [] x0)
             insA _ _ Hxs).
    + apply Forall2_fmap_r. eapply Forall2_impl; [exact Rin|].
      intros l x0 Hx0. exists x0. split; [exact Hx0 | reflexivity].
    + intros l x y Hl Hx (x0 & Hx0 & ->). rewrite (Hcell _ _ Hx0) in Hx.
      unfold cleared, marked in Hx. rewrite take_ge in Hx by lia.
      rewrite bool_decide_eq_true_2 in Hx by exact Hl. cbn in Hx. congruence.
  - apply (Forall2_same_source _ _ outsA _ _ Hos Rout).
    intros l o' o _ Ho' Ho. rewrite (Hcell _ _ Ho) in Ho'.
    unfold cleared, marked in Ho'. destruct (bool_decide _); cbn in Ho'; congruence.
Qed.

Lemma sig_mark_assigned insA outsA li script hashcode l u l0 c :
  l ∈ insA ->
  sig_mark insA outsA li script hashcode l0 (assigned l u l0 c) =
  sig_mark insA outsA li script hashcode l0 c.
Proof.
  intros Hl. unfold assigned.
  destruct (decide (l = l0)) as [<-|Hne]; [|reflexivity].
  destruct c; try reflexivity. cbn [cell_set_script sig_mark].
  rewrite bool_decide_eq_true_2 by exact Hl. reflexivity.
Qed.

(** X12. The preimage does not depend on the script that an input holds
    when [signatureForm] is called: with any script written into any
    input beforehand, the call returns the same preimage. *)
Theorem signatureForm_ignores_scripts (h h' : heap) (tx : loc) (t : TXREF)
    (insA outsA : list loc) (i k : nat) (l : loc) (script u : jsstring) (hashcode : Z)
    (newTx : loc) (preimage : TXOBJ) :
  wf_tx h tx t insA outsA -> insA !! k = Some l ->
  signatureForm tx i script hashcode h = (Ok newTx, h') ->
  readTXOBJ h' newTx = Ok preimage ->
  exists h0 h1',
    set_ins_script tx k u h = (Ok tt, h0) /\
    signatureForm tx i script hashcode h0 = (Ok newTx, h1') /\
    readTXOBJ h1' newTx = Ok preimage.
Proof.
  intros Hwf Hk E Hread.
  destruct (signatureForm_returns _ _ _ _ _ _ _ _ _ _ Hwf E)
    as (li & Hi & -> & Hsingle & Hpost).
  destruct (final_assignment h tx t insA outsA k l u Hwf Hk) as [E0 Hwf0].
  set (h0 := alter (cell_set_script u) l h) in *.
  assert (Hlen : length h0 = length h) by apply length_alter.
  destruct (signatureForm_ok h0 tx t insA outsA i li script hashcode Hwf0 Hi Hsingle)
    as (h1' & E1 & Hpost1).
  rewrite Hlen in E1.
  exists h0, h1'. split; [exact E0|]. split; [exact E1|].
  assert (Hl : l ∈ insA) by (eapply list_elem_of_lookup_2, Hk).
  assert (Hli : li ∈ insA) by (eapply list_elem_of_lookup_2, Hi).
  assert (Hsame : forall l0, (l0 < length h)%nat -> h1' !! l0 = h' !! l0).
  { intros l0 Hl0.
    destruct Hpost as (_ & Hold & _). destruct Hpost1 as (_ & Hold1 & _).
    rewrite Hold1 by lia. rewrite (Hold l0 Hl0). unfold h0.
    rewrite (proj2 (pointwise_assigned h l u) l0).
    destruct (h !! l0) as [c|]; [|reflexivity]. cbn [fmap option_fmap option_map].
    f_equal. apply sig_mark_assigned, Hl. }
  rewrite <- Hread.
  destruct Hpost as (_ & _ & ta & A1 & A2 & A3 & A4 & A5).
  destruct Hpost1 as (_ & _ & tb & B1 & B2 & B3 & B4 & B5).
  rewrite Hlen in B1.
  apply (readTXOBJ_agree h' h1' (length h) (length h) ta tb
           (sig_ins insA li hashcode) (sig_outs insA outsA hashcode));
    try assumption; try congruence.
  - intros l0 Hl0. apply Hsame.
    pose proof (proj1 (Forall_forall _ _) (sig_ins_subset insA li hashcode Hli) l0 Hl0) as Hin.
    destruct (proj1 (Forall_forall _ _) (wf_ins _ _ _ _ _ Hwf) l0 Hin) as [x Hx].
    eapply lookup_lt_Some, Hx.
  - intros l0 Hl0. apply Hsame.
    pose proof (proj1 (Forall_forall _ _) (sig_outs_subset insA outsA hashcode) l0 Hl0) as Hin.
    destruct (proj1 (Forall_forall _ _) (wf_outs _ _ _ _ _ Hwf) l0 Hin) as [x Hx].
    eapply lookup_lt_Some, Hx.
Qed.

(** ** More on signing *)

Lemma Forall2_through {A B C : Type} (R : A -> B -> Prop) (R' : A -> C -> Prop)
    (Q : B -> C -> Prop) (a : list A) (xs : list B) (ys : list C) :
  Forall2 R a xs -> Forall2 R' a ys ->
  (forall l x y, l ∈ a -> R l x -> R' l y -> Q x y) -> Forall2 Q xs ys.
Proof.
  intros H. revert ys. induction H as [|l x a xs Hx _ IH]; intros ys H' Hf.
  - inversion H'. constructor.
  - inversion H' as [|l' y a' ys' Hy Hys]; subst. constructor.
    + apply (Hf l); [apply list_elem_of_here | assumption..].
    + apply IH; [assumption|]. intros l0 x0 y0 Hl0. apply Hf, list_elem_of_further, Hl0.
Qed.

(** The caller's transaction after a call that returns, when entries of
    the inputs array may be the same object: the entries that are the
    signed object hold the substitute, every other script is gone. *)
Lemma signatureForm_caller_entries (h h' : heap) (tx : loc) (t : TXREF)
    (insA outsA : list loc) (i : nat) (script : jsstring) (hashcode : Z)
    (newTx : loc) (after : TXOBJ) :
  wf_tx h tx t insA outsA ->
  signatureForm tx i script hashcode h = (Ok newTx, h') ->
  readTXOBJ h' tx = Ok after ->
  forall j x, ins after !! j = Some x ->
    in_script x = if decide (insA !! j = insA !! i) then script else [].
Proof.
  intros Hwf E Hread j x Hx.
  destruct (signatureForm_returns _ _ _ _ _ _ _ _ _ _ Hwf E) as (li & Hi & _ & _ & Hpost).
  destruct (readTXOBJ_inv _ _ _ Hread) as (t0 & ia & oa & R1 & R2 & _ & _ & _ & Rin & _).
  pose proof (sig_post_wf h h' tx t insA outsA li script hashcode Hwf Hpost) as [H1 H2 _ _ _].
  assert (t0 = t) as -> by congruence.
  assert (ia = insA) as -> by congruence.
  destruct (Forall2_lookup_r _ _ _ _ _ Rin Hx) as (l & Hl & Hcell).
  destruct (Forall_lookup_1 _ _ _ _ (wf_ins _ _ _ _ _ Hwf) Hl) as [x0 Hx0].
  rewrite (sig_post_lookup h h' t insA outsA li script _ Hpost _ _ Hx0) in Hcell.
  cbn [sig_mark] in Hcell.
  rewrite bool_decide_eq_true_2 in Hcell by (eapply list_elem_of_lookup_2, Hl).
  injection Hcell as <-. cbn [in_script with_script].
  rewrite Hl, Hi. destruct (decide (Some l = Some li)) as [Heq|Hne].
  - rewrite bool_decide_eq_true_2; [reflexivity | congruence].
  - rewrite bool_decide_eq_false_2; [reflexivity | congruence].
Qed.

Section SignerMore.

Variable bs58check_decode : jsstring -> result (list Z).
Variable privKeyToPubKey : jsstring -> result jsstring.
Variable pubKeyToAddr : jsstring -> result jsstring.
Variable sha256x2 : list Z -> jsstring.
Variable secp256k1_sign : list Z -> list Z -> result (list Z).

Local Abbreviation signTx' :=
  (signTx bs58check_decode privKeyToPubKey pubKeyToAddr sha256x2 secp256k1_sign).
Local Abbreviation signing_script' :=
  (signing_script bs58check_decode privKeyToPubKey pubKeyToAddr).
Local Abbreviation unlocking_script' := (unlocking_script sha256x2 secp256k1_sign).

(** X13. [signTx] fails before it touches the transaction when the sighash
    code does not fit 16 bits (a range error) or when the public key, the
    address or its decoding cannot be obtained (the collaborator's error):
    the store is then exactly as it was. *)
Theorem signTx_fails_early (tx : loc) (i : nat) (privKey : jsstring) (hashcode : option Z)
    (h : heap) :
  (~ fits16 (sighash_code hashcode) ->
     signTx' tx i privKey hashcode h = (Throw RangeError, h)) /\
  (fits16 (sighash_code hashcode) ->
   forall e,
     (privKeyToPubKey privKey = Throw e \/
      (exists pubKey, privKeyToPubKey privKey = Ok pubKey /\
         (pubKeyToAddr pubKey = Throw e \/
          exists address, pubKeyToAddr pubKey = Ok address /\
            bs58check_decode address = Throw e))) ->
     signTx' tx i privKey hashcode h = (Throw e, h)).
Proof.
  split.
  - intros Hc. rewrite signTx_steps.
    destruct (writeUInt16LE_cases (Buffer.alloc 4) (sighash_code hashcode) 0)
      as [(H & _)|(_ & E)]; [contradiction|].
    apply bind_throw. unfold lift. rewrite E. reflexivity.
  - intros Hc e He. rewrite signTx_steps.
    destruct (writeUInt16LE_cases (Buffer.alloc 4) (sighash_code hashcode) 0)
      as [(_ & b & E)|(H & _)]; [|contradiction].
    rewrite (lift_bind_ok _ _ _ _ E). apply bind_throw. unfold lift. f_equal.
    unfold signing_script.
    destruct He as [Hp|(pubKey & Hp & [Ha|(address & Ha & Hd)])];
      rewrite Hp; cbn [rbind]; [reflexivity | |]; rewrite Ha; cbn [rbind]; [reflexivity|].
    unfold mkPubkeyHashReplayScript. rewrite Hd. reflexivity.
Qed.

(** X14. When [signTx] fails later (the serialiser or the signer throws),
    the transaction has already been rewritten: every input script is
    empty, except that the input to sign, and any entry of the inputs
    array that is the same object, holds the replay-protected script of
    the signer's address, not a signature; when the input objects are
    pairwise distinct, the input to sign is the only one. *)
Theorem signTx_fails_late (h h1 : heap) (tx : loc) (t : TXREF) (insA outsA : list loc)
    (i : nat) (privKey pubKey address script : jsstring) (hashcode : option Z) (e : error) :
  wf_tx h tx t insA outsA -> (i < length insA)%nat ->
  (sighash_code hashcode = SIGHASH_SINGLE -> (length insA - 1 <= length outsA)%nat) ->
  fits16 (sighash_code hashcode) ->
  privKeyToPubKey privKey = Ok pubKey -> pubKeyToAddr pubKey = Ok address ->
  mkPubkeyHashReplayScript bs58check_decode address = Ok script ->
  signTx' tx i privKey hashcode h = (Throw e, h1) ->
  exists after,
    readTXOBJ h1 tx = Ok after /\
    (forall j x, ins after !! j = Some x ->
       in_script x = if decide (insA !! j = insA !! i) then script else []) /\
    (NoDup insA ->
     forall j x, ins after !! j = Some x ->
       in_script x = if decide (j = i) then script else []).
Proof.
  intros Hwf Hi Hsingle Hc Hpk Haddr Hscript E.
  destruct (lookup_lt_is_Some_2 insA i Hi) as [li Hli].
  rewrite signTx_steps in E.
  destruct (writeUInt16LE_cases (Buffer.alloc 4) (sighash_code hashcode) 0)
    as [(_ & b & Eb)|(H & _)]; [|contradiction].
  rewrite (lift_bind_ok _ _ _ _ Eb) in E.
  assert (Es : signing_script' privKey = Ok (pubKey, script)).
  { unfold signing_script. rewrite Hpk. cbn [rbind]. rewrite Haddr. cbn [rbind].
    rewrite Hscript. reflexivity. }
  rewrite (lift_bind_ok _ _ _ _ Es) in E. cbn [fst snd] in E.
  destruct (signatureForm_ok h tx t insA outsA i li script (sighash_code hashcode)
              Hwf Hli Hsingle) as (ha & Ea & Hpost).
  rewrite (bind_ok _ _ _ _ _ Ea) in E.
  pose proof (sig_post_wf h ha tx t insA outsA li script _ Hwf Hpost) as Hwfa.
  assert (h1 = ha) as ->.
  { unfold mbind at 1, M_bind at 1, reading at 1 in E.
    destruct (readTXOBJ ha (length h)) as [v|e0]; [|congruence].
    unfold mbind at 1, M_bind at 1, lift at 1 in E.
    destruct (unlocking_script' _ _ _ _ _) as [u|e0]; [|congruence].
    destruct (final_assignment ha tx t insA outsA i li u Hwfa Hli) as [Eu _].
    rewrite (bind_ok _ _ _ _ _ Eu) in E. discriminate E. }
  destruct (wf_tx_read _ _ _ _ _ Hwfa) as (xs & os & Hread & _ & _).
  eexists. split; [exact Hread|]. split.
  - apply (signatureForm_caller_entries h ha tx t insA outsA i script
             (sighash_code hashcode) (length h) _ Hwf Ea Hread).
  - intros Hnd.
    apply (signatureForm_caller_inputs h ha tx t insA outsA i script (sighash_code hashcode)
             (length h) _ Hwf Hnd Ea Hread).
Qed.


(** C6. The signature that [signTx] encodes.  After a call that returns,
    with a signer that delivers 64 bytes [r ++ s] and a sighash code that
    is one byte, the script stored in the signed input is a length byte,
    the encoded signature, a length byte and the public key, where the
    encoded signature is: tag 0x30, a length byte, tag 0x02, a length byte,
    the bytes of [r], tag 0x02, a length byte, the bytes of [s], and one
    trailing byte holding the sighash code; [r] and [s] carry a leading
    zero byte exactly when the top bit of their first byte is set; reading
    the structure back and dropping the padding gives [r] and [s] again;
    and the DER structure is [6 + len r' + len s'] bytes long. *)
Theorem signTx_signature_der (h h1 : heap) (tx : loc) (t : TXREF) (insA outsA : list loc)
    (i : nat) (privKey : jsstring) (hashcode : option Z) (ret : loc) :
  wf_tx h tx t insA outsA ->
  0 <= sighash_code hashcode < 256 ->
  (forall msg key sg, secp256k1_sign msg key = Ok sg ->
     length sg = 64%nat /\ Forall Buffer.is_byte sg) ->
  signTx' tx i privKey hashcode h = (Ok ret, h1) ->
  exists signed x pubKey msg r s,
    readTXOBJ h1 tx = Ok signed /\ ins signed !! i = Some x /\
    privKeyToPubKey privKey = Ok pubKey /\
    secp256k1_sign msg (Buffer.from_hex privKey) = Ok (r ++ s) /\
    length r = 32%nat /\ length s = 32%nat /\
    let r' := der_pad r in
    let s' := der_pad s in
    let sigAndHashcode :=
      Buffer.toString_hex
        ([0x30; 4 + Z.of_nat (length r') + Z.of_nat (length s')] ++
         [0x02; Z.of_nat (length r')] ++ r' ++
         [0x02; Z.of_nat (length s')] ++ s' ++
         [sighash_code hashcode]) in
    in_script x =
      getStringBufferLength sigAndHashcode ++ sigAndHashcode ++
      getStringBufferLength pubKey ++ pubKey /\
    (forall b y, r = b :: y -> r' = if Z.testbit b 7 then 0 :: r else r) /\
    (forall b y, s = b :: y -> s' = if Z.testbit b 7 then 0 :: s else s) /\
    der_decode (Buffer.from_hex sigAndHashcode) = Some (r', s', [sighash_code hashcode]) /\
    strip_pad r' = r /\ strip_pad s' = s /\
    be_value r' = be_value r /\ be_value s' = be_value s /\
    length (Buffer.from_hex sigAndHashcode) = (6 + length r' + length s' + 1)%nat /\
    length (der_sequence r' s') = (6 + length r' + length s')%nat.
Proof.
  intros Hwf Hc Hsig E.
  destruct (signTx_inv _ _ _ _ _ _ _ _ _ _ _ _ E)
    as (_buf16 & pubKey & script & newTx & ha & v & u & _ & E2 & E3 & _ & E5 & E6 & ->).
  assert (Hpk : privKeyToPubKey privKey = Ok pubKey).
  { unfold signing_script in E2.
    destruct (privKeyToPubKey privKey) as [pk|]; [|discriminate]. cbn [rbind] in E2.
    destruct (pubKeyToAddr _); [|discriminate]. cbn [rbind] in E2.
    destruct (mkPubkeyHashReplayScript _ _); [|discriminate]. cbn [rbind] in E2.
    congruence. }
  unfold unlocking_script in E5.
  destruct (serializeTx v) as [hex|]; [|discriminate]. cbn [rbind] in E5.
  destruct (secp256k1_sign _ _) as [sg|] eqn:Esg; [|discriminate]. cbn [rbind] in E5.
  destruct (Hsig _ _ _ Esg) as [Lsg Bsg].
  set (rr := take 32 sg). set (ss := drop 32 sg).
  assert (Esplit : sg = rr ++ ss) by (symmetry; apply take_drop).
  assert (Lr : length rr = 32%nat) by (unfold rr; rewrite length_take; lia).
  assert (Ls : length ss = 32%nat) by (unfold ss; rewrite length_drop; lia).
  assert (Br : Forall Buffer.is_byte rr) by (apply Forall_take, Bsg).
  assert (Bs : Forall Buffer.is_byte ss) by (apply Forall_drop, Bsg).
  rewrite Esplit in E5, Esg.
  destruct (encodeSignature_der_form rr ss (sighash_code hashcode) Lr Ls Br Bs Hc)
    as (Eform & Pr & Ps & Hdec & Sr & Ss & Vr & Vs & Llen & Lder).
  rewrite Eform in E5, Hdec, Llen.
  apply (f_equal (fun o => match o with Ok s => s | Throw _ => [] end)) in E5.
  cbv beta iota in E5.
  destruct (signatureForm_returns _ _ _ _ _ _ _ _ _ _ Hwf E3) as (li & Hli & -> & _ & Hpost).
  pose proof (sig_post_wf h ha tx t insA outsA li script _ Hwf Hpost) as Hwfa.
  destruct (final_assignment ha tx t insA outsA i li u Hwfa Hli) as [Eu Hwf1].
  assert (h1 = alter (cell_set_script u) li ha) as -> by congruence.
  destruct (wf_tx_read _ _ _ _ _ Hwf1) as (xs & os & Hread & Hxs & _).
  destruct (Forall2_lookup_l _ _ _ _ _ Hxs Hli) as (x & Hx & Hcell).
  rewrite list_lookup_alter_eq in Hcell.
  destruct (Forall_lookup_1 _ _ _ _ (wf_ins _ _ _ _ _ Hwfa) Hli) as [xa Hxa].
  rewrite Hxa in Hcell. cbn in Hcell. injection Hcell as <-.
  eexists _, _, pubKey, _, rr, ss. split; [exact Hread|]. split; [exact Hx|].
  split; [exact Hpk|]. split; [exact Esg|]. split; [exact Lr|]. split; [exact Ls|].
  cbv zeta. cbn [in_script with_script].
  split; [symmetry; exact E5|].
  split; [exact Pr|]. split; [exact Ps|]. split; [exact Hdec|].
  split; [exact Sr|]. split; [exact Ss|]. split; [exact Vr|]. split; [exact Vs|].
  split; [exact Llen | exact Lder].
Qed.

(** X16. What a returning [signTx] keeps of the caller's transaction:
    version, lock time, and of every input all but the script; the number
    of outputs; and, unless the mode is SINGLE, every output. *)
Theorem signTx_preserves (h h1 : heap) (tx : loc) (t : TXREF) (insA outsA : list loc)
    (original : TXOBJ) (i : nat) (privKey : jsstring) (hashcode : option Z) (r : loc) :
  wf_tx h tx t insA outsA -> readTXOBJ h tx = Ok original ->
  signTx' tx i privKey hashcode h = (Ok r, h1) ->
  exists signed,
    readTXOBJ h1 tx = Ok signed /\
    version signed = version original /\ locktime signed = locktime original /\
    Forall2 (fun x0 x => x = with_script (in_script x) x0) (ins original) (ins signed) /\
    length (outs signed) = length (outs original) /\
    (sighash_code hashcode <> SIGHASH_SINGLE -> outs signed = outs original).
Proof.
  intros Hwf Hread E.
  destruct (readTXOBJ_inv _ _ _ Hread) as (t0 & ia & oa & R1 & R2 & R3 & Rl & Rv & Rin & Rout).
  pose proof Hwf as [H1 H2 H3 _ _].
  assert (t0 = t) as -> by congruence. assert (ia = insA) as -> by congruence.
  assert (oa = outsA) as -> by congruence.
  destruct (signTx_inv _ _ _ _ _ _ _ _ _ _ _ _ E)
    as (_buf16 & pubKey & script & newTx & ha & v & u & _ & _ & E3 & _ & _ & E6 & ->).
  destruct (signatureForm_returns _ _ _ _ _ _ _ _ _ _ Hwf E3) as (li & Hli & -> & _ & Hpost).
  pose proof (sig_post_wf h ha tx t insA outsA li script _ Hwf Hpost) as Hwfa.
  destruct (final_assignment ha tx t insA outsA i li u Hwfa Hli) as [Eu Hwf1].
  assert (h1 = alter (cell_set_script u) li ha) as -> by congruence.
  destruct (wf_tx_read _ _ _ _ _ Hwf1) as (xs & os & Hread1 & Hxs & Hos).
  assert (Hcell : forall l c, h !! l = Some c ->
            alter (cell_set_script u) li ha !! l =
            Some (assigned li u l (sig_mark insA outsA li script (sighash_code hashcode) l c))).
  { intros l c Hc. rewrite (proj2 (pointwise_assigned ha li u) l).
    rewrite (sig_post_lookup h ha t insA outsA li script _ Hpost _ _ Hc). reflexivity. }
  exists (mkTXOBJ (ref_locktime t) (ref_version t) xs os).
  split; [exact Hread1|]. cbn [version locktime ins outs].
  split; [congruence|]. split; [congruence|]. split; [|split].
  - apply (Forall2_through _ _ _ insA _ _ Rin Hxs).
    intros l x0 x _ Hx0 Hx. rewrite (Hcell _ _ Hx0) in Hx.
    unfold assigned in Hx. cbn [sig_mark] in Hx.
    destruct (decide (li = l)), (bool_decide (l ∈ insA));
      cbn [cell_set_script] in Hx; injection Hx as <-; destruct x0; reflexivity.
  - rewrite <- (Forall2_length _ _ _ Hos), <- (Forall2_length _ _ _ Rout). reflexivity.
  - intros Hns. apply (Forall2_same_source _ _ outsA _ _ Hos Rout).
    intros l o' o _ Ho' Ho. rewrite (Hcell _ _ Ho) in Ho'.
    unfold assigned in Ho'. cbn [sig_mark] in Ho'.
    destruct (Z.eqb_spec (sighash_code hashcode) SIGHASH_SINGLE); [contradiction|].
    cbn [andb] in Ho'. destruct (decide (li = l)); cbn [cell_set_script] in Ho'; congruence.
Qed.

End SignerMore.
(** ** Building a transaction *)

Lemma addressToScript_throws (decode : jsstring -> result (list Z)) (a : jsstring) (e : error) :
  addressToScript decode a = Throw e <-> decode a = Throw e.
Proof.
  unfold addressToScript, mkScriptHashScript, mkPubkeyHashReplayScript.
  destruct (first_char_in (str "32") a), (decode a) as [d|e']; cbn; split; congruence.
Qed.

Lemma addressToScript_returns (decode : jsstring -> result (list Z)) (a : jsstring) (d : list Z) :
  decode a = Ok d -> exists script, addressToScript decode a = Ok script.
Proof.
  intros E. destruct (addressToScript decode a) as [s|e] eqn:Es; [eauto|].
  apply addressToScript_throws in Es. congruence.
Qed.

Lemma Array_map_alloc {A : Type} (c : A -> cell) (l : list A) (h : heap) :
  Array_map (fun x => alloc (c x)) l h = (Ok (seq (length h) (length l)), h ++ map c l).
Proof.
  revert h. induction l as [|x l IH]; intros h.
  - cbn. rewrite app_nil_r. reflexivity.
  - cbn [Array_map].
    rewrite (bind_ok _ _ h (h ++ [c x]) (length h) eq_refl).
    rewrite (bind_ok _ _ _ _ _ (IH (h ++ [c x]))).
    rewrite length_app, <- app_assoc. cbn [length app map].
    replace (length h + 1)%nat with (S (length h)) by lia. reflexivity.
Qed.

Local Abbreviation output_callback decode := (fun o : RECIPIENTS =>
  script ← lift (addressToScript decode (r_address o));
  alloc (COut (mkTXOUT script (r_satoshis o)))).

Lemma Array_map_outputs (decode : jsstring -> result (list Z)) (rs : list RECIPIENTS)
    (os : list TXOUT) (h : heap) :
  outputs_of decode rs = Ok os ->
  Array_map (output_callback decode) rs h =
  (Ok (seq (length h) (length os)), h ++ map COut os).
Proof.
  revert os h. induction rs as [|o rs IH]; intros os h E.
  - cbn in E. injection E as <-. cbn. rewrite app_nil_r. reflexivity.
  - unfold outputs_of in E. cbn [rmap] in E. unfold output_of at 1 in E.
    destruct (addressToScript decode (r_address o)) as [script|e] eqn:Es; [|discriminate].
    cbn [rbind] in E.
    destruct (rmap (output_of decode) rs) as [os'|e] eqn:Er; [|discriminate].
    cbn [rbind] in E. injection E as <-.
    cbn [Array_map].
    rewrite (bind_ok _ _ h (h ++ [COut (mkTXOUT script (r_satoshis o))]) (length h)).
    2:{ unfold mbind, M_bind, lift. rewrite Es. reflexivity. }
    rewrite (bind_ok _ _ _ _ _ (IH os' _ Er)).
    rewrite length_app, <- app_assoc. cbn [length app map].
    replace (length h + 1)%nat with (S (length h)) by lia. reflexivity.
Qed.

Lemma Array_map_outputs_throw (decode : jsstring -> result (list Z)) (rs : list RECIPIENTS)
    (e : error) (h : heap) :
  outputs_of decode rs = Throw e ->
  exists done, Array_map (output_callback decode) rs h = (Throw e, h ++ done).
Proof.
  revert h. induction rs as [|o rs IH]; intros h E; [discriminate|].
  unfold outputs_of in E. cbn [rmap] in E. unfold output_of at 1 in E.
  cbn [Array_map].
  destruct (addressToScript decode (r_address o)) as [script|e'] eqn:Es.
  - cbn [rbind] in E.
    destruct (rmap (output_of decode) rs) as [os'|e'] eqn:Er; [discriminate|].
    cbn [rbind] in E. injection E as ->.
    rewrite (bind_ok _ _ h (h ++ [COut (mkTXOUT script (r_satoshis o))]) (length h)).
    2:{ reflexivity. }
    destruct (IH (h ++ [COut (mkTXOUT script (r_satoshis o))]) Er) as (done & Ed).
    rewrite (bind_throw _ _ _ _ _ Ed). rewrite <- app_assoc. eauto.
  - cbn [rbind] in E. injection E as ->.
    exists []. rewrite app_nil_r. apply bind_throw.
    reflexivity.
Qed.

Lemma outputs_of_total (decode : jsstring -> result (list Z)) (rs : list RECIPIENTS) :
  Forall (fun o => exists d, decode (r_address o) = Ok d) rs ->
  exists os,
    outputs_of decode rs = Ok os /\
    Forall2 (fun o out =>
      addressToScript decode (r_address o) = Ok (out_script out) /\
      out_satoshis out = r_satoshis o) rs os.
Proof.
  induction 1 as [|o rs (d & Ed) _ (os & E & F)].
  - exists []. split; [reflexivity | constructor].
  - destruct (addressToScript_returns decode _ _ Ed) as (script & Es).
    exists (mkTXOUT script (r_satoshis o) :: os). split.
    + unfold outputs_of in *. cbn [rmap]. unfold output_of at 1. rewrite Es. cbn [rbind].
      rewrite E. reflexivity.
    + constructor; [split; [exact Es | reflexivity] | exact F].
Qed.

Lemma outputs_of_fails (decode : jsstring -> result (list Z)) (rs : list RECIPIENTS)
    (k : nat) (o : RECIPIENTS) (e : error) :
  rs !! k = Some o ->
  decode (r_address o) = Throw e ->
  (forall j o', (j < k)%nat -> rs !! j = Some o' -> exists d, decode (r_address o') = Ok d) ->
  outputs_of decode rs = Throw e.
Proof.
  revert k. induction rs as [|o0 rs IH]; intros k Hk He Hbefore; [discriminate|].
  unfold outputs_of. cbn [rmap]. unfold output_of at 1. destruct k as [|k].
  - injection Hk as ->. apply addressToScript_throws in He. rewrite He. reflexivity.
  - destruct (Hbefore 0%nat o0 ltac:(lia) eq_refl) as (d & Ed).
    destruct (addressToScript_returns decode _ _ Ed) as (script & Es). rewrite Es.
    cbn [rbind]. fold (outputs_of decode rs).
    rewrite (IH k Hk He); [reflexivity|].
    intros j o' Hj Ho'. apply (Hbefore (S j) o'); [lia | exact Ho'].
Qed.

Lemma lookup_third (h rest : heap) (a b c : cell) :
  (h ++ a :: b :: c :: rest) !! (length h + 2)%nat = Some c.
Proof. rewrite lookup_app_r by lia. replace (length h + 2 - length h)%nat with 2%nat by lia. reflexivity. Qed.

Lemma insert_third (h rest : heap) (a b c c' : cell) :
  <[(length h + 2)%nat := c']> (h ++ a :: b :: c :: rest) = h ++ a :: b :: c' :: rest.
Proof. rewrite insert_app_r. reflexivity. Qed.

Lemma createRawTx_run (decode : jsstring -> result (list Z)) (history : list HISTORY)
    (rs : list RECIPIENTS) (os : list TXOUT) (h : heap) :
  outputs_of decode rs = Ok os ->
  createRawTx decode history rs h =
  (Ok (length h + 2)%nat, h ++ created (length h) (map input_of history) os).
Proof.
  intros E. unfold createRawTx.
  rewrite (bind_ok _ _ h (h ++ [CArr []]) (length h) eq_refl).
  rewrite (bind_ok _ _ _ (h ++ [CArr []; CArr []]) (length h + 1)%nat).
  2:{ unfold alloc. rewrite length_app, <- app_assoc. reflexivity. }
  rewrite (bind_ok _ _ _ (h ++ [CArr []; CArr []; CTx (mkTXREF 0 1 (length h) (length h + 1))])
             (length h + 2)%nat).
  2:{ unfold alloc. rewrite length_app, <- app_assoc. reflexivity. }
  set (g3 := h ++ [CArr []; CArr []; CTx (mkTXREF 0 1 (length h) (length h + 1))]).
  assert (L3 : length g3 = (length h + 3)%nat) by (unfold g3; rewrite length_app; reflexivity).
  rewrite (bind_ok _ _ _ _ _ (Array_map_alloc (fun e => CIn (input_of e)) history g3)).
  rewrite L3, <- (map_map input_of CIn).
  set (xs := map input_of history).
  replace (length history) with (length xs) by apply length_map.
  set (insA := seq (length h + 3) (length xs)).
  rewrite (bind_ok _ _ _
             (h ++ CArr [] :: CArr [] :: CTx (mkTXREF 0 1 (length h) (length h + 1)) ::
                (map CIn xs ++ [CArr insA]))
             (length h + 3 + length xs)%nat).
  2:{ unfold alloc, g3. rewrite !length_app, length_map, <- !app_assoc. reflexivity. }
  rewrite (bind_ok _ _ _ _ _ (set_ins_ok _ _ _ (length h + 3 + length xs)%nat
                                (lookup_third h _ _ _ _))).
  rewrite insert_third. cbn [ref_locktime ref_version ref_outs].
  rewrite (bind_ok _ _ _ _ _ (Array_map_outputs decode rs os _ E)).
  match goal with |- context [seq (length ?g) _] =>
    replace (length g) with (length h + 3 + length xs + 1)%nat
      by (rewrite !length_app; cbn [length]; rewrite length_app, length_map;
          cbn [length]; lia) end.
  set (outsA := seq (length h + 3 + length xs + 1) (length os)).
  rewrite <- app_assoc. cbn [app]. rewrite <- app_assoc.
  rewrite (bind_ok _ _ _
             (h ++ CArr [] :: CArr [] ::
                CTx (mkTXREF 0 1 (length h + 3 + length xs) (length h + 1)) ::
                (map CIn xs ++ [CArr insA] ++ map COut os ++ [CArr outsA]))
             (length h + 3 + length xs + 1 + length os)%nat).
  2:{ unfold alloc. f_equal.
      - f_equal. rewrite !length_app. cbn [length].
        rewrite !length_app, !length_map. cbn [length]. lia.
      - rewrite <- !app_assoc. cbn [app]. rewrite <- !app_assoc. reflexivity. }
  rewrite (bind_ok _ _ _ _ _ (set_outs_ok _ _ _ (length h + 3 + length xs + 1 + length os)%nat
                                (lookup_third h _ _ _ _))).
  rewrite insert_third. cbn [ref_locktime ref_version ref_ins].
  unfold mret, M_ret, created. rewrite <- !app_assoc. reflexivity.
Qed.

Lemma lookup_skip3 (a b c : cell) (rest : heap) (k : nat) :
  (a :: b :: c :: rest) !! S (S (S k)) = rest !! k.
Proof. reflexivity. Qed.

Section Created.

Variables (h : heap) (xs : list TXIN) (os : list TXOUT).

Local Abbreviation g := (h ++ created (length h) xs os).

Lemma created_tx :
  g !! (length h + 2)%nat =
  Some (CTx (mkTXREF 0 1 (length h + 3 + length xs)%nat
               (length h + 3 + length xs + 1 + length os)%nat)).
Proof. unfold created. cbn [app]. apply lookup_third. Qed.

Lemma created_in (k : nat) (x : TXIN) :
  xs !! k = Some x -> g !! (length h + 3 + k)%nat = Some (CIn x).
Proof.
  intros Hk. unfold created. rewrite lookup_app_r by lia.
  replace (length h + 3 + k - length h)%nat with (S (S (S k))) by lia.
  cbn [app]. rewrite lookup_skip3. rewrite <- app_assoc.
  rewrite lookup_app_l by (rewrite length_map; apply lookup_lt_Some in Hk; exact Hk).
  rewrite list_lookup_fmap, Hk. reflexivity.
Qed.

Lemma created_ins :
  g !! (length h + 3 + length xs)%nat = Some (CArr (seq (length h + 3) (length xs))).
Proof.
  unfold created. rewrite lookup_app_r by lia.
  replace (length h + 3 + length xs - length h)%nat with (S (S (S (length xs)))) by lia.
  cbn [app]. rewrite lookup_skip3. rewrite <- app_assoc.
  rewrite lookup_app_r by (rewrite length_map; lia).
  rewrite length_map, Nat.sub_diag. reflexivity.
Qed.

Lemma created_out (k : nat) (o : TXOUT) :
  os !! k = Some o -> g !! (length h + 3 + length xs + 1 + k)%nat = Some (COut o).
Proof.
  intros Hk. unfold created. rewrite lookup_app_r by lia.
  replace (length h + 3 + length xs + 1 + k - length h)%nat
    with (S (S (S (length xs + 1 + k)))) by lia.
  cbn [app]. rewrite lookup_skip3.
  rewrite lookup_app_r by (rewrite length_app, length_map; cbn [length]; lia).
  rewrite length_app, length_map. cbn [length].
  replace (length xs + 1 + k - (length xs + 1))%nat with k by lia.
  rewrite lookup_app_l by (rewrite length_map; apply lookup_lt_Some in Hk; exact Hk).
  rewrite list_lookup_fmap, Hk. reflexivity.
Qed.

Lemma created_outs :
  g !! (length h + 3 + length xs + 1 + length os)%nat =
  Some (CArr (seq (length h + 3 + length xs + 1) (length os))).
Proof.
  unfold created. rewrite lookup_app_r by lia.
  replace (length h + 3 + length xs + 1 + length os - length h)%nat
    with (S (S (S (length xs + 1 + length os)))) by lia.
  cbn [app]. rewrite lookup_skip3.
  rewrite lookup_app_r by (rewrite length_app, length_map; cbn [length]; lia).
  rewrite length_app, length_map. cbn [length].
  replace (length xs + 1 + length os - (length xs + 1))%nat with (length os) by lia.
  rewrite lookup_app_r by (rewrite length_map; lia).
  rewrite length_map, Nat.sub_diag. reflexivity.
Qed.

End Created.

Lemma Forall2_seq_lookup {A : Type} (g : heap) (f : A -> cell) (xs : list A) (p : nat) :
  (forall k x, xs !! k = Some x -> g !! (p + k)%nat = Some (f x)) ->
  Forall2 (fun l x => g !! l = Some (f x)) (seq p (length xs)) xs.
Proof.
  revert p. induction xs as [|x xs IH]; intros p H; [constructor|].
  cbn [length seq]. constructor.
  - rewrite <- (Nat.add_0_r p). apply H. reflexivity.
  - apply IH. intros k y Hk. replace (S p + k)%nat with (p + S k)%nat by lia.
    apply H. exact Hk.
Qed.

Lemma Forall2_Forall_exists {A B : Type} (P : A -> B -> Prop) (l : list A) (k : list B) :
  Forall2 P l k -> Forall (fun a => exists b, P a b) l.
Proof. induction 1; constructor; eauto. Qed.

Lemma created_reads (h : heap) (xs : list TXIN) (os : list TXOUT) :
  Forall2 (fun l x => (h ++ created (length h) xs os) !! l = Some (CIn x))
    (seq (length h + 3) (length xs)) xs /\
  Forall2 (fun l o => (h ++ created (length h) xs os) !! l = Some (COut o))
    (seq (length h + 3 + length xs + 1) (length os)) os.
Proof.
  split.
  - apply (Forall2_seq_lookup _ CIn). intros k x. apply created_in.
  - apply (Forall2_seq_lookup _ COut). intros k o. apply created_out.
Qed.

(** X17. When every recipient address decodes, [createRawTx] returns a
    transaction with version 1 and lock time 0, one input per history
    entry (that entry's txid and vout, an empty script, sequence
    ffffffff) and one output per recipient (the script that
    [addressToScript] gives for its address, and its amount), in the
    order given. *)
Theorem createRawTx_contents (decode : jsstring -> result (list Z))
    (history : list HISTORY) (recipients : list RECIPIENTS) (h : heap) :
  Forall (fun o => exists d, decode (r_address o) = Ok d) recipients ->
  exists tx h' os,
    createRawTx decode history recipients h = (Ok tx, h') /\
    readTXOBJ h' tx = Ok (mkTXOBJ 0 1 (map input_of history) os) /\
    Forall2 (fun o out =>
      addressToScript decode (r_address o) = Ok (out_script out) /\
      out_satoshis out = r_satoshis o) recipients os.
Proof.
  intros Hdec. destruct (outputs_of_total decode recipients Hdec) as (os & E & F).
  exists (length h + 2)%nat, (h ++ created (length h) (map input_of history) os), os.
  split; [apply createRawTx_run; exact E|]. split; [|exact F].
  destruct (created_reads h (map input_of history) os) as [Hi Ho].
  exact (readTXOBJ_ok _ _ _ _ _ _ _ (created_tx h _ os) (created_ins h _ os)
           (created_outs h _ os) Hi Ho).
Qed.

(** X18. The transaction that [createRawTx] returns is made of new
    objects only: the store it started from is unchanged, the transaction
    object, its two arrays and their elements all lie beyond it, the
    elements of each array are pairwise distinct, and the whole is a
    well-formed transaction. *)
Theorem createRawTx_fresh (decode : jsstring -> result (list Z))
    (history : list HISTORY) (recipients : list RECIPIENTS) (h : heap) :
  Forall (fun o => exists d, decode (r_address o) = Ok d) recipients ->
  exists tx h' t insA outsA,
    createRawTx decode history recipients h = (Ok tx, h') /\
    take (length h) h' = h /\
    wf_tx h' tx t insA outsA /\
    NoDup insA /\ NoDup outsA /\
    length insA = length history /\ length outsA = length recipients /\
    Forall (fun l => (length h <= l)%nat) (tx :: ref_ins t :: ref_outs t :: insA ++ outsA).
Proof.
  intros Hdec. destruct (outputs_of_total decode recipients Hdec) as (os & E & F).
  set (xs := map input_of history).
  exists (length h + 2)%nat, (h ++ created (length h) xs os),
    (mkTXREF 0 1 (length h + 3 + length xs)%nat (length h + 3 + length xs + 1 + length os)%nat),
    (seq (length h + 3) (length xs)), (seq (length h + 3 + length xs + 1) (length os)).
  destruct (created_reads h xs os) as [Hi Ho].
  split; [apply createRawTx_run; exact E|].
  split; [apply take_app_length|].
  split.
  { constructor.
    - apply created_tx.
    - apply created_ins.
    - apply created_outs.
    - exact (Forall2_Forall_exists _ _ _ Hi).
    - exact (Forall2_Forall_exists _ _ _ Ho). }
  split; [apply NoDup_seq|]. split; [apply NoDup_seq|].
  split; [rewrite length_seq; apply length_map|].
  split; [rewrite length_seq; symmetry; exact (Forall2_length _ _ _ F)|].
  cbn [ref_ins ref_outs].
  apply Forall_cons; split; [lia|]. apply Forall_cons; split; [lia|].
  apply Forall_cons; split; [lia|].
  apply Forall_app; split; apply Forall_forall; intros l Hl; apply elem_of_seq in Hl; lia.
Qed.

(** X19. If the address of some recipient does not decode while those of
    all the recipients before it do, [createRawTx] throws what the decoder
    threw and returns no transaction; the objects that were in the store
    are unchanged. *)
Theorem createRawTx_bad_address (decode : jsstring -> result (list Z))
    (history : list HISTORY) (recipients : list RECIPIENTS) (h : heap)
    (k : nat) (o : RECIPIENTS) (e : error) :
  recipients !! k = Some o ->
  decode (r_address o) = Throw e ->
  (forall j o', (j < k)%nat -> recipients !! j = Some o' ->
     exists d, decode (r_address o') = Ok d) ->
  exists h',
    createRawTx decode history recipients h = (Throw e, h') /\
    take (length h) h' = h.
Proof.
  intros Hk He Hbefore.
  pose proof (outputs_of_fails decode recipients k o e Hk He Hbefore) as E.
  unfold createRawTx.
  rewrite (bind_ok _ _ h (h ++ [CArr []]) (length h) eq_refl).
  rewrite (bind_ok _ _ _ (h ++ [CArr []; CArr []]) (length h + 1)%nat).
  2:{ unfold alloc. rewrite length_app, <- app_assoc. reflexivity. }
  rewrite (bind_ok _ _ _ (h ++ [CArr []; CArr []; CTx (mkTXREF 0 1 (length h) (length h + 1))])
             (length h + 2)%nat).
  2:{ unfold alloc. rewrite length_app, <- app_assoc. reflexivity. }
  set (g3 := h ++ [CArr []; CArr []; CTx (mkTXREF 0 1 (length h) (length h + 1))]).
  assert (L3 : length g3 = (length h + 3)%nat) by (unfold g3; rewrite length_app; reflexivity).
  rewrite (bind_ok _ _ _ _ _ (Array_map_alloc (fun e => CIn (input_of e)) history g3)).
  rewrite L3.
  set (insA := seq (length h + 3) (length history)).
  set (xs := map (fun e => CIn (input_of e)) history).
  rewrite (bind_ok _ _ _
             (h ++ CArr [] :: CArr [] :: CTx (mkTXREF 0 1 (length h) (length h + 1)) ::
                (xs ++ [CArr insA]))
             (length h + 3 + length history)%nat).
  2:{ unfold alloc, g3, xs. rewrite !length_app, length_map, <- !app_assoc. reflexivity. }
  rewrite (bind_ok _ _ _ _ _ (set_ins_ok _ _ _ (length h + 3 + length history)%nat
                                (lookup_third h _ _ _ _))).
  rewrite insert_third.
  match goal with |- context [(Array_map _ _ ≫= _) ?g] =>
    destruct (Array_map_outputs_throw decode recipients e g E) as (done & Ed) end.
  rewrite (bind_throw _ _ _ _ _ Ed). eexists. split; [reflexivity|].
  rewrite <- app_assoc. apply take_app_length.
Qed.

Lemma Forall2_transfer {A B : Type} (P : A -> Prop) (Q : B -> Prop) (R : A -> B -> Prop)
    (l : list A) (k : list B) :
  Forall2 R l k -> (forall a b, R a b -> (P a <-> Q b)) -> (Forall P l <-> Forall Q k).
Proof.
  intros F HR. induction F as [|a b l k Hab _ IH].
  - split; constructor.
  - rewrite !Forall_cons, IH, (HR a b Hab). reflexivity.
Qed.

Lemma layout_unsigned_inputs (history : list HISTORY) :
  flat_map (layout_in (@length ascii)) (map input_of history) = flat_map unsigned_input history.
Proof.
  induction history as [|e history IH]; [reflexivity|].
  cbn [map flat_map]. rewrite IH. reflexivity.
Qed.

(** X20. Serialising what [createRawTx] built: when every previous-output
    index fits 16 bits and every amount fits 32 bits (or is the
    placeholder), [serializeTx] gives 01000000, the number of inputs, for
    each history entry its txid, its index on four bytes, 00 for the empty
    script and ffffffff, then the number of outputs, the outputs, and
    00000000; otherwise it throws a range error. *)
Theorem createRawTx_serialized (decode : jsstring -> result (list Z))
    (history : list HISTORY) (recipients : list RECIPIENTS) (h : heap) :
  Forall (fun o => exists d, decode (r_address o) = Ok d) recipients ->
  exists tx h' unsigned,
    createRawTx decode history recipients h = (Ok tx, h') /\
    readTXOBJ h' tx = Ok unsigned /\
    (Forall (fun e => fits16 (h_vout e)) history /\
     Forall (fun o => fits_amount (r_satoshis o)) recipients ->
     serializeTx unsigned =
     Ok (str "01000000" ++
         numToVarInt (Z.of_nat (length history)) ++
         flat_map unsigned_input history ++
         numToVarInt (Z.of_nat (length recipients)) ++
         flat_map (layout_out (@length ascii)) (outs unsigned) ++
         str "00000000")) /\
    (~ (Forall (fun e => fits16 (h_vout e)) history /\
        Forall (fun o => fits_amount (r_satoshis o)) recipients) ->
     serializeTx unsigned = Throw RangeError).
Proof.
  intros Hdec. destruct (outputs_of_total decode recipients Hdec) as (os & E & F).
  exists (length h + 2)%nat, (h ++ created (length h) (map input_of history) os),
    (mkTXOBJ 0 1 (map input_of history) os).
  split; [apply createRawTx_run; exact E|].
  split.
  { destruct (created_reads h (map input_of history) os) as [Hi Ho].
    exact (readTXOBJ_ok _ _ _ _ _ _ _ (created_tx h _ os) (created_ins h _ os)
             (created_outs h _ os) Hi Ho). }
  assert (Hins : Forall (fun i => fits16 (in_vout i)) (map input_of history) <->
                 Forall (fun e => fits16 (h_vout e)) history).
  { induction history as [|e history IH]; [split; constructor|].
    cbn [map]. rewrite !Forall_cons, IH. reflexivity. }
  assert (Houts : Forall (fun o => fits_amount (r_satoshis o)) recipients <->
                  Forall (fun o => fits_amount (out_satoshis o)) os).
  { apply (Forall2_transfer _ _ _ _ _ F). intros a b [_ Hb]. rewrite Hb. reflexivity. }
  assert (Hser : serializable (mkTXOBJ 0 1 (map input_of history) os) <->
                 Forall (fun e => fits16 (h_vout e)) history /\
                 Forall (fun o => fits_amount (r_satoshis o)) recipients).
  { unfold serializable. cbn [version locktime ins outs]. rewrite Hins, Houts.
    unfold fits16. split; [tauto | intros []; repeat split; (lia || assumption)]. }
  split.
  - intros Hfit. apply Hser in Hfit. rewrite (serializeTx_layout _ Hfit).
    unfold layout. cbn [version locktime ins outs].
    rewrite layout_unsigned_inputs, length_map, (Forall2_length _ _ _ F). reflexivity.
  - intros Hn. apply serializeTx_rejects. rewrite Hser. exact Hn.
Qed.
(** ** The further properties on examples *)

Lemma NoDup_two : NoDup [3; 4]%nat.
Proof. apply (bool_decide_unpack (NoDup [3; 4]%nat)). exact I. Defined.

Lemma signatureForm_none_witness :
  exists newTx h' preimage,
    signatureForm 0 1 (str "76a9") SIGHASH_NONE heap_two = (Ok newTx, h') /\
    readTXOBJ h' newTx = Ok preimage /\
    outs preimage = [] /\
    ins preimage !! 0%nat = with_script [] <$> ins tx_two !! 0%nat.
Proof.
  destruct (signatureForm_none heap_two 0 (mkTXREF 0 1 1 2) [3; 4]%nat [5; 6]%nat
              tx_two 1 (str "76a9"))
    as (newTx & h' & preimage & E & R & Ho & _ & _ & _ & Hi);
    [wf_example | reflexivity | cbn; lia |].
  exists newTx, h', preimage.
  split; [exact E|]. split; [exact R|]. split; [exact Ho | exact (Hi NoDup_two 0%nat)].
Defined.

Lemma signatureForm_anyonecanpay_witness :
  exists newTx h' preimage,
    signatureForm 0 1 (str "76a9") SIGHASH_ANYONECANPAY heap_two = (Ok newTx, h') /\
    readTXOBJ h' newTx = Ok preimage /\
    length (ins preimage) = 1%nat /\
    outs preimage = outs tx_two.
Proof.
  destruct (signatureForm_anyonecanpay heap_two 0 (mkTXREF 0 1 1 2) [3; 4]%nat [5; 6]%nat
              tx_two 1 (str "76a9"))
    as (newTx & h' & preimage & x0 & E & R & _ & Hi & Ho & _);
    [wf_example | reflexivity | cbn; lia |].
  exists newTx, h', preimage.
  split; [exact E|]. split; [exact R|]. split; [rewrite Hi; reflexivity | exact Ho].
Defined.

Lemma signatureForm_default_witness :
  exists newTx h' preimage,
    signatureForm 0 1 (str "76a9") SIGHASH_ALL heap_two = (Ok newTx, h') /\
    readTXOBJ h' newTx = Ok preimage /\
    outs preimage = outs tx_two /\
    ins preimage !! 1%nat = with_script (str "76a9") <$> ins tx_two !! 1%nat.
Proof.
  destruct (signatureForm_default heap_two 0 (mkTXREF 0 1 1 2) [3; 4]%nat [5; 6]%nat
              tx_two 1 (str "76a9") SIGHASH_ALL)
    as (newTx & h' & preimage & E & R & Ho & _ & _ & _ & Hi);
    [wf_example | reflexivity | cbn; lia
    | discriminate | discriminate | discriminate |].
  exists newTx, h', preimage.
  split; [exact E|]. split; [exact R|]. split; [exact Ho | exact (Hi NoDup_two 1%nat)].
Defined.

Lemma signatureForm_bad_index_witness :
  exists h' after,
    signatureForm 0 2 (str "76a9") SIGHASH_ALL heap_two = (Throw TypeError, h') /\
    readTXOBJ h' 0 = Ok after /\
    ins after = map (with_script []) (ins tx_two) /\
    outs after = outs tx_two /\
    version after = version tx_two /\ locktime after = locktime tx_two.
Proof.
  apply (signatureForm_bad_index heap_two 0 (mkTXREF 0 1 1 2) [3; 4]%nat [5; 6]%nat
           tx_two 2 (str "76a9") SIGHASH_ALL); [wf_example | reflexivity | cbn; lia].
Defined.

Lemma signatureForm_ignores_scripts_witness :
  exists newTx h' preimage h0 h1',
    signatureForm 0 1 (str "76a9") SIGHASH_ALL heap_two = (Ok newTx, h') /\
    readTXOBJ h' newTx = Ok preimage /\
    set_ins_script 0 0 (str "00ff") heap_two = (Ok tt, h0) /\
    signatureForm 0 1 (str "76a9") SIGHASH_ALL h0 = (Ok newTx, h1') /\
    readTXOBJ h1' newTx = Ok preimage.
Proof.
  assert (E : exists newTx h' preimage,
            signatureForm 0 1 (str "76a9") SIGHASH_ALL heap_two = (Ok newTx, h') /\
            readTXOBJ h' newTx = Ok preimage).
  { eexists _, _, _. split; vm_compute; reflexivity. }
  destruct E as (newTx & h' & preimage & E & R).
  destruct (signatureForm_ignores_scripts heap_two h' 0 (mkTXREF 0 1 1 2) [3; 4]%nat
              [5; 6]%nat 1 0 3%nat (str "76a9") (str "00ff") SIGHASH_ALL newTx preimage)
    as (h0 & h1' & E0 & E1 & R1); [wf_example | reflexivity | exact E | exact R |].
  exists newTx, h', preimage, h0, h1'.
  split; [exact E|]. split; [exact R|]. split; [exact E0|]. split; [exact E1 | exact R1].
Defined.

Lemma signTx_fails_late_witness :
  exists h1 after x,
    signTx toy_decode toy_privKeyToPubKey toy_pubKeyToAddr toy_sha256x2 failing_sign
      0 0 toy_key (Some SIGHASH_ALL) heap_two = (Throw ExternalError, h1) /\
    readTXOBJ h1 0 = Ok after /\
    ins after !! 1%nat = Some x /\ in_script x = [].
Proof.
  assert (E : exists h1 after x,
            signTx toy_decode toy_privKeyToPubKey toy_pubKeyToAddr toy_sha256x2 failing_sign
              0 0 toy_key (Some SIGHASH_ALL) heap_two = (Throw ExternalError, h1) /\
            readTXOBJ h1 0 = Ok after /\ ins after !! 1%nat = Some x).
  { eexists _, _, _. split; [vm_compute; reflexivity|]. split; vm_compute; reflexivity. }
  destruct E as (h1 & after & x & E & R & Hx).
  assert (S : exists script, mkPubkeyHashReplayScript toy_decode (str "znToyAddress") = Ok script).
  { eexists. vm_compute. reflexivity. }
  destruct S as (script & S).
  destruct (signTx_fails_late toy_decode toy_privKeyToPubKey toy_pubKeyToAddr toy_sha256x2
              failing_sign heap_two h1 0 (mkTXREF 0 1 1 2) [3; 4]%nat [5; 6]%nat 0 toy_key
              (str "02" ++ Buffer.toString_hex (replicate 32 1)) (str "znToyAddress") script
              (Some SIGHASH_ALL) ExternalError)
    as (after' & R' & _ & H');
    [wf_example | cbn; lia | discriminate | unfold fits16; change (sighash_code (Some SIGHASH_ALL)) with 1; lia
    | reflexivity | reflexivity | exact S | exact E |].
  exists h1, after, x. split; [exact E|]. split; [exact R|]. split; [exact Hx|].
  assert (after' = after) as -> by congruence.
  exact (H' NoDup_two 1%nat x Hx).
Defined.


Lemma signTx_signature_der_witness :
  exists h1 signed x pubKey,
    signTx toy_decode toy_privKeyToPubKey toy_pubKeyToAddr toy_sha256x2 high_bit_sign
      0 0 toy_key (Some SIGHASH_ALL) heap_two = (Ok 0%nat, h1) /\
    readTXOBJ h1 0 = Ok signed /\ ins signed !! 0%nat = Some x /\
    toy_privKeyToPubKey toy_key = Ok pubKey /\
    in_script x =
      str "48" ++
      (str "30" ++ str "45" ++
       str "02" ++ str "21" ++ Buffer.toString_hex (0 :: 129 :: replicate 31 7) ++
       str "02" ++ str "20" ++ Buffer.toString_hex (replicate 32 5) ++
       str "01") ++
      str "21" ++ pubKey.
Proof.
  assert (E : exists h1,
            signTx toy_decode toy_privKeyToPubKey toy_pubKeyToAddr toy_sha256x2 high_bit_sign
              0 0 toy_key (Some SIGHASH_ALL) heap_two = (Ok 0%nat, h1)).
  { eexists. vm_compute. reflexivity. }
  destruct E as (h1 & E).
  destruct (signTx_signature_der toy_decode toy_privKeyToPubKey toy_pubKeyToAddr
              toy_sha256x2 high_bit_sign heap_two h1 0 (mkTXREF 0 1 1 2) [3; 4]%nat
              [5; 6]%nat 0 toy_key (Some SIGHASH_ALL) 0%nat)
    as (signed & x & pubKey & msg & r & s & R & Hx & Hpk & Hsg & Lr & Ls & Hs & _).
  - wf_example.
  - change (sighash_code (Some SIGHASH_ALL)) with 1. lia.
  - intros msg key sg Hsg. unfold high_bit_sign in Hsg.
    assert (sg = (129 :: replicate 31 7) ++ replicate 32 5) as -> by congruence.
    split; [reflexivity|]. apply Forall_app; split.
    + apply Forall_cons; split; [unfold Buffer.is_byte; lia|].
      apply Forall_replicate. unfold Buffer.is_byte. lia.
    + apply Forall_replicate. unfold Buffer.is_byte. lia.
  - exact E.
  - exists h1, signed, x, pubKey.
    split; [exact E|]. split; [exact R|]. split; [exact Hx|]. split; [exact Hpk|].
    unfold high_bit_sign in Hsg.
    assert (Ers : r ++ s = (129 :: replicate 31 7) ++ replicate 32 5) by congruence.
    destruct (app_inj_1 r (129 :: replicate 31 7) s (replicate 32 5) Lr Ers) as [-> ->].
    assert (pubKey = str "02" ++ Buffer.toString_hex (replicate 32 1)) as ->
      by (unfold toy_privKeyToPubKey in Hpk; congruence).
    rewrite Hs. vm_compute. reflexivity.
Defined.

Lemma signTx_preserves_witness :
  exists h1 signed,
    signTx toy_decode toy_privKeyToPubKey toy_pubKeyToAddr toy_sha256x2 toy_sign
      0 1 toy_key (Some SIGHASH_NONE) heap_two = (Ok 0%nat, h1) /\
    readTXOBJ h1 0 = Ok signed /\
    version signed = 1 /\ locktime signed = 0 /\
    outs signed = outs tx_two.
Proof.
  assert (E : exists h1,
            signTx toy_decode toy_privKeyToPubKey toy_pubKeyToAddr toy_sha256x2 toy_sign
              0 1 toy_key (Some SIGHASH_NONE) heap_two = (Ok 0%nat, h1)).
  { eexists. vm_compute. reflexivity. }
  destruct E as (h1 & E).
  destruct (signTx_preserves toy_decode toy_privKeyToPubKey toy_pubKeyToAddr
              toy_sha256x2 toy_sign heap_two h1 0 (mkTXREF 0 1 1 2) [3; 4]%nat
              [5; 6]%nat tx_two 1 toy_key (Some SIGHASH_NONE) 0%nat)
    as (signed & R & Hv & Hl & _ & _ & Ho); [wf_example | reflexivity | exact E |].
  exists h1, signed. split; [exact E|]. split; [exact R|].
  split; [exact Hv|]. split; [exact Hl|]. apply Ho. discriminate.
Defined.

Lemma createRawTx_contents_witness :
  exists tx h' os,
    createRawTx toy_decode history_one recipients_two heap_two = (Ok tx, h') /\
    readTXOBJ h' tx = Ok (mkTXOBJ 0 1 (map input_of history_one) os) /\
    Forall2 (fun o out =>
      addressToScript toy_decode (r_address o) = Ok (out_script out) /\
      out_satoshis out = r_satoshis o) recipients_two os.
Proof.
  apply (createRawTx_contents toy_decode history_one recipients_two heap_two).
  repeat (apply Forall_cons; split; [eexists; reflexivity|]). apply Forall_nil. exact I.
Defined.

Lemma createRawTx_fresh_witness :
  exists tx h' t insA outsA,
    createRawTx toy_decode history_one recipients_two heap_two = (Ok tx, h') /\
    take 7 h' = heap_two /\
    wf_tx h' tx t insA outsA /\
    NoDup insA /\ NoDup outsA.
Proof.
  destruct (createRawTx_fresh toy_decode history_one recipients_two heap_two)
    as (tx & h' & t & insA & outsA & E & Ht & Hwf & Ni & No & _).
  { repeat (apply Forall_cons; split; [eexists; reflexivity|]). apply Forall_nil. exact I. }
  exists tx, h', t, insA, outsA.
  split; [exact E|]. split; [exact Ht|]. split; [exact Hwf|]. split; [exact Ni | exact No].
Defined.

Lemma createRawTx_bad_address_witness :
  exists h',
    createRawTx picky_decode history_one
      [mkRECIPIENTS 5000 (str "znToyAddress"); mkRECIPIENTS 7000 []] heap_two =
      (Throw ExternalError, h') /\
    take (length heap_two) h' = heap_two.
Proof.
  apply (createRawTx_bad_address picky_decode history_one
           [mkRECIPIENTS 5000 (str "znToyAddress"); mkRECIPIENTS 7000 []] heap_two
           1 (mkRECIPIENTS 7000 []) ExternalError); [reflexivity | reflexivity |].
  intros [|j] o' Hj Ho'; [|lia]. injection Ho' as <-. eexists. reflexivity.
Defined.

Lemma createRawTx_serialized_witness :
  exists tx h' unsigned,
    createRawTx toy_decode history_one recipients_two [] = (Ok tx, h') /\
    readTXOBJ h' tx = Ok unsigned /\
    serializeTx unsigned =
    Ok (str "01000000" ++
        numToVarInt (Z.of_nat (length history_one)) ++
        flat_map unsigned_input history_one ++
        numToVarInt (Z.of_nat (length recipients_two)) ++
        flat_map (layout_out (@length ascii)) (outs unsigned) ++
        str "00000000").
Proof.
  destruct (createRawTx_serialized toy_decode history_one recipients_two [])
    as (tx & h' & unsigned & E & R & Hs & _).
  { repeat (apply Forall_cons; split; [eexists; reflexivity|]). apply Forall_nil. exact I. }
  exists tx, h', unsigned. split; [exact E|]. split; [exact R|].
  apply Hs. split.
  - apply Forall_cons; split; [cbn; unfold fits16; lia|]. apply Forall_nil. exact I.
  - repeat (apply Forall_cons; split; [right; cbn; lia|]). apply Forall_nil. exact I.
Defined.

Lemma serializeTx_domain_witness :
  serializeTx tx_one = Ok (layout (@length ascii) tx_one) /\
  serializeTx tx_large = Throw RangeError.
Proof.
  split.
  - apply (proj1 (serializeTx_domain tx_one)).
    split; [cbn; unfold fits16; lia|]. split; [cbn; unfold fits16; lia|]. split.
    + apply Forall_cons; split; [cbn; unfold fits16; lia|]. apply Forall_nil. exact I.
    + apply Forall_cons; split; [right; cbn; lia|]. apply Forall_nil. exact I.
  - apply (proj2 (serializeTx_domain tx_large)).
    intros (_ & _ & _ & Ho). apply Forall_cons in Ho. destruct Ho as [[H|H] _].
    + vm_compute in H. discriminate.
    + cbn in H. lia.
Defined.

Lemma signTx_fails_early_witness :
  signTx toy_decode toy_privKeyToPubKey toy_pubKeyToAddr toy_sha256x2 toy_sign
    0 0 toy_key (Some 70000) heap_two = (Throw RangeError, heap_two) /\
  signTx picky_decode toy_privKeyToPubKey (fun _ => Ok []) toy_sha256x2 toy_sign
    0 0 toy_key (Some SIGHASH_ALL) heap_two = (Throw ExternalError, heap_two).
Proof.
  split.
  - apply (proj1 (signTx_fails_early toy_decode toy_privKeyToPubKey toy_pubKeyToAddr
                    toy_sha256x2 toy_sign 0 0 toy_key (Some 70000) heap_two)).
    unfold fits16. change (sighash_code (Some 70000)) with 70000. lia.
  - apply (proj2 (signTx_fails_early picky_decode toy_privKeyToPubKey (fun _ => Ok [])
                    toy_sha256x2 toy_sign 0 0 toy_key (Some SIGHASH_ALL) heap_two)).
    + unfold fits16. change (sighash_code (Some SIGHASH_ALL)) with 1. lia.
    + right. eexists. split; [reflexivity|]. right. eexists. split; reflexivity.
Defined.
